(** * SAX_FAST: the symbolic aggregate approximation transformer

    A shallow embedding of
    [aeon/transformations/panel/dictionary_based/_sax_fast.py]:
    the validation path of [_transform], the sliding windows, the PAA
    compressor [_perform_paa_along_dim], the word encoder
    [_generate_words], the numerosity reduction
    [_remove_repeating_words] and the dense / sparse / tabular output.

    Floating-point values are IEEE-754 binary64 numbers, given by the
    executable specification of the standard library ([SpecFloat], precision
    53, exponent bound 1024, round to nearest even): the arithmetic of
    NumPy's [float64].  Integers of fixed width are [Z] with the wrap-around
    written out. *)

From Stdlib Require Import ZArith Bool Lia String SpecFloat.
From stdpp Require Import base list.

Local Open Scope Z_scope.

(** ** Binary64 arithmetic *)

Module F64.

Definition prec : Z := 53.
Definition emax : Z := 1024.

Definition float : Type := spec_float.

Definition nan : float := S754_nan.
Definition inf : float := S754_infinity false.
Definition zero : float := S754_zero false.

Definition add : float -> float -> float := SFadd prec emax.
Definition sub : float -> float -> float := SFsub prec emax.
Definition mul : float -> float -> float := SFmul prec emax.
Definition div : float -> float -> float := SFdiv prec emax.
Definition sqrt : float -> float := SFsqrt prec emax.
Definition opp : float -> float := SFopp.

(** [x <= y], [x > y] and [x == y]; all three are false when an operand
    is not a number. *)
Definition leb : float -> float -> bool := SFleb.
Definition gtb (x y : float) : bool := SFltb y x.
Definition eqb : float -> float -> bool := SFeqb.

(** The conversion of an integer, rounded to nearest. *)
Definition of_Z (n : Z) : float := binary_normalize prec emax n 0 false.

(** The double nearest to the decimal [n / 10^2], as a literal such as
    [0.67] denotes it. *)
Definition centi (n : Z) : float := div (of_Z n) (of_Z 100).

Definition one : float := Eval vm_compute in of_Z 1.

Definition is_nan (x : float) : bool :=
  match x with S754_nan => true | _ => false end.

Definition is_zero (x : float) : bool :=
  match x with S754_zero _ => true | _ => false end.

End F64.

Abbreviation float := F64.float.

(** ** Exceptions and results *)

Inductive exn : Type :=
  | RuntimeError (msg : string)
  | ValueError (msg : string)
  | KeyError (key : Z)
  | IndexError
  | ZeroDivisionError
  (** a store or load outside an array inside jitted code, where no bounds
      check is compiled in: the behaviour is undefined and the model stops *)
  | IndexFault.

Inductive result (A : Type) : Type :=
  | Ok (a : A)
  | Raise (e : exn).
Arguments Ok {A} a.
Arguments Raise {A} e.

#[export] Instance result_ret : MRet result := fun _ a => Ok a.
#[export] Instance result_bind : MBind result := fun _ _ f m =>
  match m with
  | Ok a => f a
  | Raise e => Raise e
  end.
#[export] Instance result_fmap : FMap result := fun _ _ f m =>
  match m with
  | Ok a => Ok (f a)
  | Raise e => Raise e
  end.

(** ** The PAA compressor *)

(** The loop state of [_perform_paa_along_dim] for one row: the variables
    [current_frame], [current_frame_size], [frame_sum] and the row
    [data[i, :]] of the output. *)
Record paa_state : Type := mk_paa_state {
  current_frame : nat;
  current_frame_size : float;
  frame_sum : float;
  data : list float
}.

(** [data[i, current_frame] = v] *)
Definition paa_store (st : paa_state) (v : float) : result (list float) :=
  if decide (current_frame st < length (data st))%nat
  then Ok (<[current_frame st := v]> (data st))
  else Raise IndexFault.

(** [frame_sum / frame_length], with the division check of the jitted code *)
Definition checked_div (x y : float) : result float :=
  if F64.is_zero y then Raise ZeroDivisionError else Ok (F64.div x y).

(** One iteration of [for n in range(num_atts)], on the sample [series[n]]. *)
Definition paa_step (frame_length : float) (st : paa_state) (x : float)
  : result paa_state :=
  let remaining := F64.sub frame_length (current_frame_size st) in
  let '(sum1, size1) :=
    if F64.gtb remaining F64.one
    then (F64.add (frame_sum st) x,
          F64.add (current_frame_size st) F64.one)
    else (F64.add (frame_sum st) (F64.mul remaining x),
          F64.add (current_frame_size st) remaining) in
  if F64.eqb size1 frame_length then
    v ← checked_div sum1 frame_length;
    d ← paa_store st v;
    Ok (mk_paa_state (S (current_frame st))
          (F64.sub F64.one remaining)
          (F64.mul (F64.sub F64.one remaining) x)
          d)
  else Ok (mk_paa_state (current_frame st) size1 sum1 (data st)).

Fixpoint paa_loop (frame_length : float) (series : list float)
    (st : paa_state) : result paa_state :=
  match series with
  | [] => Ok st
  | x :: rest =>
      st' ← paa_step frame_length st x;
      paa_loop frame_length rest st'
  end.

(** The body of [for i in range(num_insts)]: the row [series = X[i, :]] of
    [num_atts = length series] samples, compressed to [num_intervals]
    values.  The row of [data] starts as zeros. *)
Definition paa_row (num_intervals : Z) (series : list float)
  : result (list float) :=
  let num_atts := Z.of_nat (length series) in
  if num_intervals =? 0 then Raise ZeroDivisionError else
  let frame_length := F64.div (F64.of_Z num_atts) (F64.of_Z num_intervals) in
  let st0 := mk_paa_state 0 F64.zero F64.zero
               (replicate (Z.to_nat num_intervals) F64.zero) in
  st ← paa_loop frame_length series st0;
  (* if the last frame was lost due to double imprecision *)
  if Z.of_nat (current_frame st) =? num_intervals - 1 then
    v ← checked_div (frame_sum st) frame_length;
    paa_store st v
  else Ok (data st).

Definition _perform_paa_along_dim (X : list (list float)) (num_intervals : Z)
  : result (list (list float)) :=
  if num_intervals <? 0
  then Raise (ValueError "negative dimensions are not allowed")
  else mapM (paa_row num_intervals) X.

(** ** The word encoder *)

(** Signed 64-bit wrap-around: the jitted [_generate_words] keeps [word] in
    an [int64]. *)
Definition wrap_int64 (z : Z) : Z := (z + 2 ^ 63) mod 2 ^ 64 - 2 ^ 63.

(** [for bp in range(len(breakpoints)): if x <= breakpoints[bp]: ... break]:
    the index of the first breakpoint that [x] does not exceed, counted from
    [bp]; [None] when the loop ends without reaching [break].  [<=] is the
    ordered comparison of IEEE 754 here, which is the comparison of the
    source on numbers; what the compiled comparison may do with an operand
    that is not a number is in [first_breakpoint_fastmath] below. *)
Fixpoint first_breakpoint (x : float) (breakpoints : list float) (bp : Z)
  : option Z :=
  match breakpoints with
  | [] => None
  | b :: rest =>
      if F64.leb x b then Some bp else first_breakpoint x rest (bp + 1)
  end.

(** [word = (word << letter_bits) | bp] *)
Definition push_symbol (letter_bits : Z) (word bp : Z) : Z :=
  wrap_int64 (Z.lor (Z.shiftl word letter_bits) bp).

(** [for i in range(word_length)], reading [pattern[i]] *)
Fixpoint words_of_pattern (pattern : list float) (count : nat)
    (breakpoints : list float) (letter_bits : Z) (word : Z) {struct count}
  : result Z :=
  match count with
  | O => Ok word
  | S count' =>
      match pattern with
      | [] => Raise IndexFault
      | x :: rest =>
          let word' :=
            match first_breakpoint x breakpoints 0 with
            | Some bp => push_symbol letter_bits word bp
            | None => word
            end in
          words_of_pattern rest count' breakpoints letter_bits word'
      end
  end.

Definition _generate_words (pattern : list float) (word_length : Z)
    (breakpoints : list float) (letter_bits : Z) : result Z :=
  words_of_pattern pattern (Z.to_nat word_length) breakpoints letter_bits 0.

(** The accumulation of [_generate_words] on the symbol indices alone. *)
Definition pack_symbols (letter_bits : Z) (symbols : list Z) : Z :=
  fold_left (push_symbol letter_bits) symbols 0.

(** *** The comparison under [fastmath]

    [_generate_words] is compiled with [@njit(fastmath=True)]: the compiler
    is told that no operand of [x <= breakpoints[bp]] is not a number, and
    when one is, the source does not fix what the comparison yields.
    [unordered] is what the compiled comparison yields then, [false] for the
    ordered comparison of IEEE 754 and [true] when the test is compiled as
    the negation of [x > breakpoints[bp]]; on two numbers nothing
    changes. *)
Definition leb_fastmath (unordered : bool) (x b : float) : bool :=
  if F64.is_nan x || F64.is_nan b then unordered else F64.leb x b.

Fixpoint first_breakpoint_fastmath (unordered : bool) (x : float)
    (breakpoints : list float) (bp : Z) : option Z :=
  match breakpoints with
  | [] => None
  | b :: rest =>
      if leb_fastmath unordered x b then Some bp
      else first_breakpoint_fastmath unordered x rest (bp + 1)
  end.

Fixpoint words_of_pattern_fastmath (unordered : bool) (pattern : list float)
    (count : nat) (breakpoints : list float) (letter_bits : Z) (word : Z)
    {struct count} : result Z :=
  match count with
  | O => Ok word
  | S count' =>
      match pattern with
      | [] => Raise IndexFault
      | x :: rest =>
          let word' :=
            match first_breakpoint_fastmath unordered x breakpoints 0 with
            | Some bp => push_symbol letter_bits word bp
            | None => word
            end in
          words_of_pattern_fastmath unordered rest count' breakpoints
            letter_bits word'
      end
  end.

Definition _generate_words_fastmath (unordered : bool) (pattern : list float)
    (word_length : Z) (breakpoints : list float) (letter_bits : Z)
  : result Z :=
  words_of_pattern_fastmath unordered pattern (Z.to_nat word_length)
    breakpoints letter_bits 0.

(** ** Numerosity reduction *)

(** [for j in range(words.shape[1])] on one row, from [last_word]. The row
    is rewritten in place, so [last_word] is read back after the store. *)
Fixpoint remove_repeating_row (last_word : Z) (row : list Z) : list Z :=
  match row with
  | [] => []
  | w :: rest =>
      let w' := if last_word =? w then 0 else w in
      w' :: remove_repeating_row w' rest
  end.

Definition _remove_repeating_words (words : list (list Z)) : list (list Z) :=
  map (remove_repeating_row 0) words.

(** ** Arrays *)

(** An integer matrix with its shape, which a matrix without rows or
    without columns still has. *)
Record int_matrix : Type := mk_int_matrix {
  nrows : nat;
  ncols : nat;
  rows : list (list Z)
}.

(** [np.zeros((n, m), dtype=np.int_)] *)
Definition np_zeros (n : nat) (m : Z) : result int_matrix :=
  if m <? 0 then Raise (ValueError "negative dimensions are not allowed")
  else Ok (mk_int_matrix n (Z.to_nat m)
             (replicate n (replicate (Z.to_nat m) 0))).

(** [m[i, n] = v] outside jitted code: the index is checked. *)
Definition set_item (m : int_matrix) (i n : nat) (v : Z) : result int_matrix :=
  match rows m !! i with
  | Some row =>
      if decide (n < length row)%nat
      then Ok (mk_int_matrix (nrows m) (ncols m)
                 (<[i := <[n := v]> row]> (rows m)))
      else Raise IndexError
  | None => Raise IndexError
  end.

Definition get_item (m : int_matrix) (i j : nat) : Z :=
  default 0 (rows m !! i ≫= fun row => row !! j).

(** The row-compressed matrix of [scipy.sparse]: its shape and, row by row,
    the stored entries, each a column index with its value (the slices of
    [indices] and [data] that [indptr] delimits). *)
Record csr_matrix : Type := mk_csr_matrix {
  csr_nrows : nat;
  csr_ncols : nat;
  csr_rows : list (list (nat * Z))
}.

(** The cast to [np.uint32] *)
Definition to_uint32 (z : Z) : Z := z mod 2 ^ 32.

(** The entries of a dense row that are not zero, from column [j] on, cast
    to the data type of the sparse matrix. *)
Fixpoint nonzero_entries (j : nat) (row : list Z) : list (nat * Z) :=
  match row with
  | [] => []
  | v :: rest =>
      if v =? 0 then nonzero_entries (S j) rest
      else (j, to_uint32 v) :: nonzero_entries (S j) rest
  end.

(** [csr_matrix(all_words, dtype=np.uint32)] *)
Definition csr_of_dense (m : int_matrix) : csr_matrix :=
  mk_csr_matrix (nrows m) (ncols m) (map (nonzero_entries 0) (rows m)).

Fixpoint csr_find (j : nat) (entries : list (nat * Z)) : Z :=
  match entries with
  | [] => 0
  | (c, v) :: rest => if decide (c = j) then v else csr_find j rest
  end.

(** The entry at [(i, j)]: the stored value, or zero when none is stored. *)
Definition csr_get (m : csr_matrix) (i j : nat) : Z :=
  match csr_rows m !! i with
  | Some entries => csr_find j entries
  | None => 0
  end.

(** ** The transformer *)

Record SAX_FAST : Type := mk_SAX_FAST {
  word_length : Z;
  alphabet_size : Z;
  window_size : Z;
  remove_repeat_words : bool;
  return_sparse : bool;
  save_words : bool;
  return_pandas_data_series : bool;
  words : list (list Z);
  letter_bits : Z
}.

(** [SAX_FAST(...)], with the defaults of [__init__] for the two attributes
    that are not parameters. *)
Definition init (word_length alphabet_size window_size : Z)
    (remove_repeat_words return_sparse save_words
       return_pandas_data_series : bool) : SAX_FAST :=
  mk_SAX_FAST word_length alphabet_size window_size remove_repeat_words
    return_sparse save_words return_pandas_data_series [] 0.

(** The input after [X.squeeze(1)]: [n_instances] series of one length. *)
Record panel : Type := mk_panel {
  n_instances : nat;
  series_length : nat;
  series : list (list float)
}.

(** What [_transform] returns. *)
Inductive output : Type :=
  | Frame (bags : list (list Z))
  | Sparse (m : csr_matrix)
  | Dense (m : int_matrix).

(** Methods run on the transformer: they read and write its attributes and
    may raise. *)
Definition M (A : Type) : Type := SAX_FAST -> result A * SAX_FAST.

#[export] Instance M_ret : MRet M := fun _ a self => (Ok a, self).
#[export] Instance M_bind : MBind M := fun _ _ f m self =>
  match m self with
  | (Ok a, self') => f a self'
  | (Raise e, self') => (Raise e, self')
  end.

Definition raise {A : Type} (e : exn) : M A := fun self => (Raise e, self).
Definition lift {A : Type} (r : result A) : M A := fun self => (r, self).
Definition attr {A : Type} (f : SAX_FAST -> A) : M A :=
  fun self => (Ok (f self), self).

Definition set_letter_bits (v : Z) : M unit := fun self =>
  (Ok tt,
   mk_SAX_FAST (word_length self) (alphabet_size self) (window_size self)
     (remove_repeat_words self) (return_sparse self) (save_words self)
     (return_pandas_data_series self) (words self) v).

Definition set_words (v : list (list Z)) : M unit := fun self =>
  (Ok tt,
   mk_SAX_FAST (word_length self) (alphabet_size self) (window_size self)
     (remove_repeat_words self) (return_sparse self) (save_words self)
     (return_pandas_data_series self) v (letter_bits self)).

(** Pre-made gaussian curve breakpoints, keyed by the alphabet size. *)
Definition breakpoint_table (alphabet_size : Z) : option (list float) :=
  let c := F64.centi in
  let m := fun n => F64.opp (F64.centi n) in
  match alphabet_size with
  | 2 => Some [F64.zero; F64.inf]
  | 3 => Some [m 43; c 43; F64.inf]
  | 4 => Some [m 67; F64.zero; c 67; F64.inf]
  | 5 => Some [m 84; m 25; c 25; c 84; F64.inf]
  | 6 => Some [m 97; m 43; F64.zero; c 43; c 97; F64.inf]
  | 7 => Some [m 107; m 57; m 18; c 18; c 57; c 107; F64.inf]
  | 8 => Some [m 115; m 67; m 32; F64.zero; c 32; c 67; c 115; F64.inf]
  | 9 => Some [m 122; m 76; m 43; m 14; c 14; c 43; c 76; c 122; F64.inf]
  | 10 => Some [m 128; m 84; m 52; m 25; F64.zero; c 25; c 52; c 84; c 128;
                F64.inf]
  | _ => None
  end.

Definition _generate_breakpoints : M (list float) := fun self =>
  match breakpoint_table (alphabet_size self) with
  | Some bps => (Ok bps, self)
  | None => (Raise (KeyError (alphabet_size self)), self)
  end.

(** [X[i, np.arange(window_size)[None, :] + np.arange(num_windows)[:, None]]]:
    row [a] holds the samples [a], [a + 1], ..., [a + window_size - 1] of
    the series. *)
Definition sliding_windows (window_size num_windows : Z) (s : list float)
  : list (list float) :=
  map (fun a => take (Z.to_nat window_size) (drop a s))
      (seq 0 (Z.to_nat num_windows)).

(** [for n in range(patterns.shape[0])]: the words of instance [i], stored
    one by one from column [n] on. *)
Fixpoint words_loop (patterns : list (list float)) (word_length : Z)
    (breakpoints : list float) (letter_bits : Z) (i n : nat)
    (all_words : int_matrix) : result int_matrix :=
  match patterns with
  | [] => Ok all_words
  | pattern :: rest =>
      word ← _generate_words pattern word_length breakpoints letter_bits;
      all_words' ← set_item all_words i n word;
      words_loop rest word_length breakpoints letter_bits i (S n) all_words'
  end.

Section Transform.

(** [scipy.stats.zscore(_, axis=1)] on one row.  The routine belongs to
    SciPy, not to this repository, so the transformer is stated over any
    such function. *)
Variable zscore : list float -> list float.

(** [for i in range(n_instances)], on the series that are left, the first
    of them being instance [i]. *)
Fixpoint instances_loop (X : list (list float)) (window_size num_windows
    word_length : Z) (breakpoints : list float) (letter_bits : Z)
    (i : nat) (all_words : int_matrix) : result int_matrix :=
  match X with
  | [] => Ok all_words
  | s :: rest =>
      let split := sliding_windows window_size num_windows s in
      let split := map zscore split in
      patterns ← _perform_paa_along_dim split word_length;
      all_words' ← words_loop patterns word_length breakpoints
                     letter_bits i 0 all_words;
      instances_loop rest window_size num_windows word_length breakpoints
        letter_bits (S i) all_words'
  end.

Definition _transform (X : panel) : M output :=
  alphabet ← attr alphabet_size;
  if (alphabet <? 2) || (alphabet >? 4) then
    raise (RuntimeError "Alphabet size must be an integer between 2 and 4")
  else
  wl ← attr word_length;
  if (wl <? 1) || (wl >? 16) then
    raise (RuntimeError "Word length must be an integer between 1 and 16")
  else
  breakpoints ← _generate_breakpoints;
  ws ← attr window_size;
  let num_windows_per_inst := Z.of_nat (series_length X) - ws + 1 in
  all_words ← lift (np_zeros (n_instances X) num_windows_per_inst);
  set_letter_bits (Z.log2_up alphabet mod 2 ^ 32);;
  lb ← attr letter_bits;
  all_words ← lift (instances_loop (series X) ws num_windows_per_inst wl
                      breakpoints lb 0 all_words);
  remove ← attr remove_repeat_words;
  let all_words :=
    if remove : bool
    then mk_int_matrix (nrows all_words) (ncols all_words)
           (_remove_repeating_words (rows all_words))
    else all_words in
  save ← attr save_words;
  (if save : bool then set_words (rows all_words) else mret tt);;
  pandas ← attr return_pandas_data_series;
  sparse ← attr return_sparse;
  if pandas : bool then mret (Frame (rows all_words))
  else if sparse : bool then mret (Sparse (csr_of_dense all_words))
  else mret (Dense all_words).

End Transform.

(** Modelled from the spec: [scipy.stats.zscore] is not part of the
    repository.  Each row has its mean subtracted and is divided by its
    population standard deviation, in binary64 with sums taken from left to
    right.  A constant row, one whose samples all equal the first, has no
    variance: its scores are not numbers, whatever the rounding of its mean
    would give. *)
Definition fsum (l : list float) : float := fold_left F64.add l F64.zero.

Definition fmean (l : list float) : float :=
  F64.div (fsum l) (F64.of_Z (Z.of_nat (length l))).

Definition is_constant (row : list float) : bool :=
  match row with
  | [] => false
  | x :: rest => forallb (fun y => F64.eqb y x) rest
  end.

Definition zscore_ref (row : list float) : list float :=
  if is_constant row then replicate (length row) F64.nan else
  let mn := fmean row in
  let dev := map (fun x => F64.sub x mn) row in
  let std := F64.sqrt (fmean (map (fun d => F64.mul d d) dev)) in
  map (fun d => F64.div d std) dev.

(** Following the specification's round-trip property: the symbol indices of
    a word of [n] letters, read back by shifting right and masking with
    [letter_bits] ones, the last letter first. *)
Fixpoint unpack_symbols (letter_bits : Z) (n : nat) (word : Z) : list Z :=
  match n with
  | O => []
  | S n' =>
      unpack_symbols letter_bits n' (Z.shiftr word letter_bits)
        ++ [Z.land word (Z.ones letter_bits)]
  end.

(** The entry of an output at [(i, j)], whatever its form. *)
Definition output_get (out : output) (i j : nat) : Z :=
  match out with
  | Frame bags => default 0 (bags !! i ≫= fun bag => bag !! j)
  | Sparse m => csr_get m i j
  | Dense m => get_item m i j
  end.

Definition with_return_sparse (b : bool) (self : SAX_FAST) : SAX_FAST :=
  mk_SAX_FAST (word_length self) (alphabet_size self) (window_size self)
    (remove_repeat_words self) b (save_words self)
    (return_pandas_data_series self) (words self) (letter_bits self).

(** ** Notions used in the statements *)

Definition letters_below (lb : Z) (symbols : list Z) : Prop :=
  Forall (fun s => 0 <= s < 2 ^ lb) symbols.

(** A row in which a word that is not zero never follows itself. *)
Definition no_adjacent_repeat (row : list Z) : Prop :=
  forall (j : nat) (x : Z),
    row !! j = Some x -> row !! S j = Some x -> x = 0.

Definition entries_below (bound : Z) (rws : list (list Z)) : Prop :=
  Forall (Forall (fun w => 0 <= w < bound)) rws.

(** The statements of [_transform] that follow the loop over the
    instances, as a function of the word matrix the loop leaves. *)
Definition transform_tail (self : SAX_FAST) (all_words : int_matrix)
  : result output * SAX_FAST :=
  let all_words :=
    if remove_repeat_words self
    then mk_int_matrix (nrows all_words) (ncols all_words)
           (_remove_repeating_words (rows all_words))
    else all_words in
  let self' :=
    if save_words self then snd (set_words (rows all_words) self)
    else self in
  (Ok (if return_pandas_data_series self then Frame (rows all_words)
       else if return_sparse self then Sparse (csr_of_dense all_words)
       else Dense all_words),
   self').

(** The frames are scheduled by the two lengths alone: two runs that agree
    on [current_frame], [current_frame_size] and the size of the row stay in
    step, on whatever samples. *)
Definition in_step (st st' : paa_state) : Prop :=
  current_frame st = current_frame st' /\
  current_frame_size st = current_frame_size st' /\
  length (data st) = length (data st').

Definition same_outcome {A : Type} (R : A -> A -> Prop) (r r' : result A)
  : Prop :=
  match r, r' with
  | Ok a, Ok a' => R a a'
  | Raise e, Raise e' => e = e'
  | _, _ => False
  end.

(** Not-a-number samples: every sum, and so every value that is stored, is
    not a number; a slot that is never stored keeps its initial zero. *)
Definition nan_or_unwritten (v : float) : Prop := v = F64.nan \/ v = F64.zero.

Definition to_floats (l : list Z) : list float := map F64.of_Z l.

(** The instance [1, 2, ..., 8] under the test parameters of the class with
    windows of four samples. *)
Definition ramp_panel : panel :=
  mk_panel 1 8 [to_floats [1; 2; 3; 4; 5; 6; 7; 8]].

Definition ramp_sax : SAX_FAST := init 2 4 4 false false false false.

(** One window [1, 1, -2] under an alphabet of three symbols. *)
Definition skew_panel : panel := mk_panel 1 3 [to_floats [1; 1; -2]].

Definition skew_sax : SAX_FAST := init 3 3 3 false false false false.

(** The output for a word matrix of [n] rows and no column. *)
Definition empty_output (self : SAX_FAST) (n : nat) : output :=
  if return_pandas_data_series self then Frame (replicate n [])
  else if return_sparse self
       then Sparse (mk_csr_matrix n 0 (replicate n []))
       else Dense (mk_int_matrix n 0 (replicate n [])).

(** Two series of three samples for a window of four or five. *)
Definition short_panel : panel :=
  mk_panel 2 3 [to_floats [1; 1; -2]; to_floats [1; 2; 3]].

Definition wide_sax (window_size : Z) : SAX_FAST :=
  init 3 3 window_size false false false false.

(** An alphabet of eleven symbols, for which the table has no row, and a
    window longer than the series. *)
Definition bad_sax : SAX_FAST := init 3 11 5 false true false false.

Definition is_number (x : float) : Prop := F64.is_nan x = false.

#[export] Instance is_number_dec (x : float) : Decision (is_number x).
Proof. unfold is_number. apply _. Defined.



(** The window [10, 10, 10, 10] of the scenario in the specification. *)
Definition flat_window : list float := to_floats [10; 10; 10; 10].

(** *** Binary64 numbers with their exact value *)

Definition fexp64 (e : Z) : Z := fexp 53 1024 e.

(** [x] is the binary64 number, not negative and in canonical form, whose
    value is [V * 2^-1074]. *)
Definition is_float (x : float) (V : Z) : Prop :=
  match x with
  | S754_zero s => s = false /\ V = 0
  | S754_finite s m e =>
      s = false /\ bounded 53 1024 m e = true /\ V = Zpos m * 2 ^ (e + 1074)
  | _ => False
  end.

(** The binary64 number [z * 2^E]. *)
Definition lattice (E z : Z) : float := binary_normalize 53 1024 z E false.

(** *** The segments of a row, frame by frame

    Following the specification: each segment is the weighted sum of its
    span of samples, divided by the frame length.  The frame length is the
    binary64 number [fl = M * 2^E]; with [U = 2^-E] a sample is [U] units
    long and a frame [M] units, so that frame [j] spans the units from
    [j * M] to [(j + 1) * M] and the weight of a sample in a frame is the
    number of units they share, as a binary64 number. *)

(** The first sample that begins inside frame [j] or after it:
    [ceil (j * M / U)]. *)
Definition frame_start (M : positive) (E : Z) (j : nat) : nat :=
  Z.to_nat ((Z.of_nat j * Zpos M + 2 ^ (- E) - 1) / 2 ^ (- E)).

(** What frame [j] takes over from the sample in which the frame before it
    ended: the part of that sample beyond the boundary. *)
Definition frame_carry (M : positive) (E : Z) (series : list float) (j : nat)
  : float :=
  match j with
  | O => F64.zero
  | S _ =>
      let s := frame_start M E j in
      F64.mul (lattice E (Z.of_nat s * 2 ^ (- E) - Z.of_nat j * Zpos M))
        (nth (s - 1) series F64.zero)
  end.

(** The weighted sum of frame [j], added up in the order of time: the carry,
    the samples that lie in the frame as a whole, and the part of the sample
    [t] in which the frame ends.  When the series ends before, the frame
    takes the samples that are left. *)
Definition frame_total (M : positive) (E : Z) (series : list float) (j : nat)
  : float :=
  let s := frame_start M E j in
  let t := (frame_start M E (S j) - 1)%nat in
  let acc :=
    fold_left F64.add (take (t - s) (drop s series)) (frame_carry M E series j)
  in
  match series !! t with
  | Some x =>
      F64.add acc
        (F64.mul
           (lattice E (Z.of_nat (S j) * Zpos M - Z.of_nat t * 2 ^ (- E))) x)
  | None => acc
  end.

Definition segment_mean (M : positive) (E : Z) (series : list float) (j : nat)
  : float :=
  F64.div (frame_total M E series j) (S754_finite false M E).

(** The [k] segments of a series for the frame length
    [len(series) / k]. *)
Definition paa_segments (k : Z) (series : list float) : list float :=
  match F64.div (F64.of_Z (Z.of_nat (length series))) (F64.of_Z k) with
  | S754_finite _ M E => segment_mean M E series <$> seq 0 (Z.to_nat k)
  | _ => []
  end.

(** The state of the loop after [i] samples: [current_frame] segments are
    stored, [c] units of the next frame are filled, and [frame_sum] holds
    its samples so far. *)
Definition paa_inv (M : positive) (E : Z) (series : list float) (k i : nat)
    (st : paa_state) : Prop :=
  exists c : Z,
    let j := current_frame st in
    is_float (current_frame_size st) (c * 2 ^ (E + 1074)) /\
    0 <= c < Zpos M /\
    Z.of_nat i * 2 ^ (- E) = Z.of_nat j * Zpos M + c /\
    frame_sum st =
      fold_left F64.add
        (take (i - frame_start M E j) (drop (frame_start M E j) series))
        (frame_carry M E series j) /\
    data st = (segment_mean M E series <$> seq 0 j)
              ++ replicate (k - j) F64.zero /\
    (j <= k)%nat.

(** *** Thresholds *)

(** Thresholds in strictly ascending order. *)
Fixpoint ascending (bps : list float) : bool :=
  match bps with
  | b :: (b' :: _) as rest => F64.gtb b' b && ascending rest
  | _ => true
  end.

(** The thresholds before the infinite one mirror each other about zero:
    the threshold at place [i] from the end is minus the one at place [i]
    from the start. *)
Definition mirrored (bps : list float) : bool :=
  let finite := take (length bps - 1) bps in
  forallb (fun p => F64.eqb (snd p) (F64.opp (fst p)))
    (zip finite (rev finite)).

(** *** Batches, windows and outputs *)

(** A batch as a NumPy array has it: [n_instances] series, each of
    [series_length] samples. *)
Definition well_formed (X : panel) : Prop :=
  length (series X) = n_instances X /\
  Forall (fun s => length s = series_length X) (series X).

(** The word of one window: the statements of the loop body of [_transform]
    for a single row of [split]. *)
Definition window_word (zscore : list float -> list float) (word_length : Z)
    (breakpoints : list float) (letter_bits : Z) (window : list float)
  : result Z :=
  pattern ← paa_row word_length (zscore window);
  _generate_words pattern word_length breakpoints letter_bits.

(** An output of [n] rows and [m] columns. *)
Definition has_shape (out : output) (n m : nat) : Prop :=
  match out with
  | Frame bags => length bags = n /\ Forall (fun bag => length bag = m) bags
  | Sparse s => csr_nrows s = n /\ csr_ncols s = m /\ length (csr_rows s) = n
  | Dense d =>
      nrows d = n /\ ncols d = m /\ length (rows d) = n /\
      Forall (fun row => length row = m) (rows d)
  end.

Definition with_return_pandas (b : bool) (self : SAX_FAST) : SAX_FAST :=
  mk_SAX_FAST (word_length self) (alphabet_size self) (window_size self)
    (remove_repeat_words self) (return_sparse self) (save_words self)
    b (words self) (letter_bits self).

(** The form in which [_transform] returns a word matrix: the last
    statements of the method. *)
Definition rendered (self : SAX_FAST) (m : int_matrix) : output :=
  if return_pandas_data_series self then Frame (rows m)
  else if return_sparse self then Sparse (csr_of_dense m)
  else Dense m.

(** The letters of a word of [word_length] letters are symbol indices of the
    alphabet. *)
Definition letters_valid (alphabet_size letter_bits word_length word : Z)
  : Prop :=
  Forall (fun s => 0 <= s < alphabet_size)
    (unpack_symbols letter_bits (Z.to_nat word_length) word).

(** *** Finite values *)

(** A binary64 value in canonical form: what every operation returns. *)
Definition is_valid (x : float) : bool := valid_binary 53 1024 x.

(** A finite binary64 number: a zero or a canonical finite value. *)
Definition is_finite (x : float) : bool :=
  match x with
  | S754_zero _ => true
  | S754_finite _ m e => bounded 53 1024 m e
  | _ => false
  end.

(** Equal, or both zero: the values that no comparison tells apart. *)
Definition same_number (x y : float) : Prop :=
  x = y \/ (F64.is_zero x = true /\ F64.is_zero y = true).

(** * Properties *)

(** ** Word arithmetic *)

Lemma wrap_int64_small (z : Z) :
  - 2 ^ 63 <= z < 2 ^ 63 -> wrap_int64 z = z.
Proof.
  intros Hz. unfold wrap_int64.
  rewrite Z.mod_small; lia.
Qed.

Lemma lor_shiftl_add (w lb s : Z) :
  0 <= lb -> 0 <= s < 2 ^ lb ->
  Z.lor (Z.shiftl w lb) s = w * 2 ^ lb + s.
Proof.
  intros Hlb Hs.
  rewrite <- Z.shiftl_mul_pow2 by assumption.
  pose proof (Z.add_lor_land (Z.shiftl w lb) s) as Hadd.
  enough (Z.land (Z.shiftl w lb) s = 0) by lia.
  apply Z.bits_inj'. intros n Hn.
  rewrite Z.land_spec, Z.bits_0.
  destruct (Z.lt_ge_cases n lb) as [Hlt|Hge].
  - rewrite Z.shiftl_spec_low by assumption. reflexivity.
  - replace s with (s mod 2 ^ lb) by (apply Z.mod_small; assumption).
    rewrite Z.mod_pow2_bits_high by lia. apply andb_false_r.
Qed.

Lemma pow2_le_mono (a b : Z) : 0 <= a <= b -> 2 ^ a <= 2 ^ b.
Proof. intros H. apply Z.pow_le_mono_r; lia. Qed.

Lemma pow2_pos (a : Z) : 0 <= a -> 0 < 2 ^ a.
Proof. intros H. apply Z.pow_pos_nonneg; lia. Qed.

(** One letter more: the word is shifted and the index added, with no
    wrap-around as long as the letters stay below the sign bit. *)
Lemma push_symbol_spec (lb b word bp : Z) :
  0 <= lb -> 0 <= b -> b + lb <= 63 ->
  0 <= word < 2 ^ b -> 0 <= bp < 2 ^ lb ->
  push_symbol lb word bp = word * 2 ^ lb + bp /\
  0 <= push_symbol lb word bp < 2 ^ (b + lb).
Proof.
  intros Hlb Hb Hsum Hw Hbp.
  assert (Hrange : 0 <= word * 2 ^ lb + bp < 2 ^ (b + lb)).
  { rewrite Z.pow_add_r by assumption. nia. }
  assert (H63 : 2 ^ (b + lb) <= 2 ^ 63) by (apply pow2_le_mono; lia).
  unfold push_symbol. rewrite lor_shiftl_add by assumption.
  rewrite wrap_int64_small by lia. split; [reflexivity | assumption].
Qed.

Lemma pack_symbols_snoc (lb : Z) (symbols : list Z) (s : Z) :
  pack_symbols lb (symbols ++ [s]) = push_symbol lb (pack_symbols lb symbols) s.
Proof. unfold pack_symbols. rewrite fold_left_app. reflexivity. Qed.

Lemma pack_symbols_range (lb : Z) (symbols : list Z) :
  0 <= lb -> letters_below lb symbols ->
  Z.of_nat (length symbols) * lb <= 63 ->
  0 <= pack_symbols lb symbols < 2 ^ (Z.of_nat (length symbols) * lb).
Proof.
  intros Hlb. induction symbols as [|s symbols IH] using rev_ind;
    intros Hall Hbits.
  - cbn. lia.
  - apply Forall_app in Hall as [Hall Hs]. apply Forall_inv in Hs.
    rewrite length_app in *. cbn [length] in *.
    rewrite pack_symbols_snoc.
    replace (Z.of_nat (length symbols + 1) * lb)
      with (Z.of_nat (length symbols) * lb + lb) in * by lia.
    apply push_symbol_spec; try assumption; try nia.
    apply IH; [assumption | nia].
Qed.

Lemma unpack_pack_symbols (lb : Z) (symbols : list Z) :
  0 <= lb -> letters_below lb symbols ->
  Z.of_nat (length symbols) * lb <= 63 ->
  unpack_symbols lb (length symbols) (pack_symbols lb symbols) = symbols.
Proof.
  intros Hlb. induction symbols as [|s symbols IH] using rev_ind;
    intros Hall Hbits.
  - reflexivity.
  - apply Forall_app in Hall as [Hall Hs]. apply Forall_inv in Hs.
    rewrite length_app in *. cbn [length] in *.
    assert (Hbits' : Z.of_nat (length symbols) * lb <= 63) by nia.
    pose proof (pack_symbols_range lb symbols Hlb Hall Hbits') as Hp.
    destruct (push_symbol_spec lb (Z.of_nat (length symbols) * lb)
                (pack_symbols lb symbols) s) as [Heq _];
      try assumption; try nia.
    rewrite pack_symbols_snoc, Heq, Nat.add_1_r. cbn [unpack_symbols].
    pose proof (pow2_pos lb Hlb) as Hpos.
    rewrite Z.shiftr_div_pow2, Z.land_ones by assumption.
    rewrite Z.div_add_l, Z.div_small, Z.add_0_r by lia.
    rewrite Z.add_comm, Z.mod_add, Z.mod_small by lia.
    rewrite IH by assumption. reflexivity.
Qed.

(** The alphabet fits its letters: every index below [alphabet_size] is below
    [2 ^ letter_bits]. *)
Lemma alphabet_fits (a s : Z) :
  1 <= a -> 0 <= s < a -> 0 <= s < 2 ^ Z.log2_up a.
Proof.
  intros Ha Hs. split; [lia|].
  destruct (Z.eq_dec a 1) as [-> | Hne].
  - cbn. lia.
  - pose proof (Z.log2_up_spec a ltac:(lia)). lia.
Qed.

(** ** The breakpoint scan *)

Lemma first_breakpoint_range (x : float) (bps : list float) (k bp : Z) :
  first_breakpoint x bps k = Some bp ->
  k <= bp < k + Z.of_nat (length bps).
Proof.
  revert k. induction bps as [|b bps IH]; intros k H; cbn in H.
  - discriminate.
  - cbn [length]. destruct (F64.leb x b).
    + injection H as <-. lia.
    + apply IH in H. lia.
Qed.

(** A value that is not a number is below no breakpoint, the infinite one
    included: the scan ends without a symbol. *)
Lemma leb_nan (b : float) : F64.leb F64.nan b = false.
Proof. reflexivity. Qed.

Lemma first_breakpoint_nan (bps : list float) (k : Z) :
  first_breakpoint F64.nan bps k = None.
Proof.
  revert k. induction bps as [|b bps IH]; intros k; cbn.
  - reflexivity.
  - apply IH.
Qed.


(** Every number, finite or infinite, is at most plus infinity. *)
Lemma leb_inf (x : float) : F64.is_nan x = false -> F64.leb x F64.inf = true.
Proof.
  intros H. destruct x as [s|s| |s m e]; try destruct s;
    try reflexivity; discriminate.
Qed.

(** So a scan over a table that has the infinite sentinel finds a symbol for
    every number. *)
Lemma first_breakpoint_number (x : float) (bps : list float) (k : Z) :
  F64.is_nan x = false -> F64.inf ∈ bps ->
  is_Some (first_breakpoint x bps k).
Proof.
  intros Hx. revert k. induction bps as [|b bps IH]; intros k Hin.
  - inversion Hin.
  - cbn. destruct (F64.leb x b) eqn:Hle; [eexists; reflexivity|].
    apply IH. apply elem_of_cons in Hin as [<-|Hin]; [|assumption].
    rewrite leb_inf in Hle by assumption. discriminate.
Qed.

(** ** The word of a pattern *)

(** The loop of [_generate_words] only accumulates the symbols that the scan
    finds, in order. *)
Lemma words_of_pattern_pack (pattern : list float) (count : nat)
    (bps : list float) (lb word : Z) :
  (count <= length pattern)%nat ->
  words_of_pattern pattern count bps lb word =
  Ok (fold_left (push_symbol lb)
        (omap (fun x => first_breakpoint x bps 0) (take count pattern)) word).
Proof.
  revert pattern word. induction count as [|count IH]; intros pattern word Hlen.
  - rewrite take_0. reflexivity.
  - destruct pattern as [|x rest]; cbn [length] in Hlen; [lia|].
    cbn [words_of_pattern]. rewrite IH by lia.
    rewrite firstn_cons. cbn.
    destruct (first_breakpoint x bps 0); reflexivity.
Qed.

Lemma generate_words_pack (pattern : list float) (wl : Z)
    (bps : list float) (lb : Z) :
  (Z.to_nat wl <= length pattern)%nat ->
  _generate_words pattern wl bps lb =
  Ok (pack_symbols lb
        (omap (fun x => first_breakpoint x bps 0)
           (take (Z.to_nat wl) pattern))).
Proof. intros H. apply words_of_pattern_pack, H. Qed.

Lemma symbols_below (bps : list float) (lb : Z) (l : list float) :
  Z.of_nat (length bps) <= 2 ^ lb ->
  letters_below lb (omap (fun x => first_breakpoint x bps 0) l).
Proof.
  intros Hlen. induction l as [|x l IH]; cbn.
  - constructor.
  - destruct (first_breakpoint x bps 0) as [bp|] eqn:Hbp; [|exact IH].
    constructor; [|exact IH].
    apply first_breakpoint_range in Hbp. lia.
Qed.

Lemma length_omap_le {A B : Type} (f : A -> option B) (l : list A) :
  (length (omap f l) <= length l)%nat.
Proof.
  induction l as [|x l IH]; cbn; [lia|].
  destruct (f x); cbn; lia.
Qed.

(** Whatever the pattern holds, a word that is produced lies below
    [2 ^ (word_length * letter_bits)]. *)
Lemma generate_words_range (pattern : list float) (wl : Z)
    (bps : list float) (lb w : Z) :
  0 <= lb -> 0 <= wl -> wl * lb <= 63 ->
  Z.of_nat (length bps) <= 2 ^ lb ->
  _generate_words pattern wl bps lb = Ok w ->
  0 <= w < 2 ^ (wl * lb).
Proof.
  intros Hlb Hwl Hbits Hbps Hw.
  destruct (decide (Z.to_nat wl <= length pattern)%nat) as [Hlen|Hlen].
  - rewrite generate_words_pack in Hw by assumption. injection Hw as <-.
    set (syms := omap _ _).
    assert (Hn : (length syms <= Z.to_nat wl)%nat).
    { subst syms. etransitivity; [apply length_omap_le|].
      rewrite length_take. lia. }
    assert (Hsyms : letters_below lb syms) by (apply symbols_below, Hbps).
    pose proof (pack_symbols_range lb syms Hlb Hsyms ltac:(nia)) as Hp.
    split; [lia|]. eapply Z.lt_le_trans; [apply Hp|].
    apply pow2_le_mono. nia.
  - exfalso. revert Hw Hlen. unfold _generate_words.
    generalize (Z.to_nat wl) 0. intros count. revert pattern.
    induction count as [|count IH]; intros pattern word Hw Hlen.
    + lia.
    + destruct pattern as [|x rest]; cbn in Hw; [discriminate|].
      cbn [length] in Hlen. eapply IH; [exact Hw | lia].
Qed.

(** ** Numerosity reduction *)

(** What a pass writes at a position depends on the word there and on the
    word the pass has left just before it ([last_word] for the first). *)
Lemma remove_repeating_row_lookup (last : Z) (row : list Z) (j : nat) (w : Z) :
  row !! j = Some w ->
  let out := remove_repeating_row last row in
  let previous := match j with O => last | S j' => default 0 (out !! j') end in
  out !! j = Some (if previous =? w then 0 else w).
Proof.
  revert last j. induction row as [|v row IH]; intros last j Hj; [discriminate|].
  destruct j as [|j]; cbn in Hj |- *.
  - injection Hj as ->. reflexivity.
  - rewrite (IH _ _ Hj). destruct j; reflexivity.
Qed.

Lemma remove_repeating_row_idem (last : Z) (row : list Z) :
  remove_repeating_row last (remove_repeating_row last row) =
  remove_repeating_row last row.
Proof.
  revert last. induction row as [|w row IH]; intros last; cbn.
  - reflexivity.
  - destruct (last =? w) eqn:Hw.
    + destruct (last =? 0); rewrite IH; reflexivity.
    + rewrite Hw, IH. reflexivity.
Qed.

Lemma remove_repeating_row_no_repeat (last : Z) (row : list Z) :
  no_adjacent_repeat (remove_repeating_row last row).
Proof.
  revert last. induction row as [|w row IH]; intros last j x Hj HSj.
  - discriminate.
  - destruct j as [|j]; cbn in Hj, HSj.
    + injection Hj as Hx. destruct row as [|w2 row]; cbn in HSj; [discriminate|].
      injection HSj as Hy. rewrite Hx in Hy.
      destruct (x =? w2) eqn:Hw2; [congruence|].
      apply Z.eqb_neq in Hw2. congruence.
    + exact (IH _ j x Hj HSj).
Qed.

Lemma remove_repeating_row_length (last : Z) (row : list Z) :
  length (remove_repeating_row last row) = length row.
Proof.
  revert last. induction row as [|w row IH]; intros last; cbn; [|rewrite IH];
    reflexivity.
Qed.

Lemma remove_repeating_row_Forall (P : Z -> Prop) (last : Z) (row : list Z) :
  P 0 -> Forall P row -> Forall P (remove_repeating_row last row).
Proof.
  intros H0 Hrow. revert last.
  induction Hrow as [|w row Hw Hrow IH]; intros last; cbn; constructor.
  - destruct (last =? w); assumption.
  - apply IH.
Qed.

(** ** Dense and sparse matrices *)

Lemma csr_find_nonzero_entries (row : list Z) (j0 j : nat) :
  csr_find j (nonzero_entries j0 row) =
  if decide (j0 <= j)%nat then to_uint32 (default 0 (row !! (j - j0)%nat))
  else 0.
Proof.
  revert j0. induction row as [|v row IH]; intros j0; cbn.
  - rewrite lookup_nil. cbn. case_decide; reflexivity.
  - assert (Hnext : csr_find j (nonzero_entries (S j0) row) =
              if decide (j0 = j) then 0
              else if decide (j0 <= j)%nat
                   then to_uint32 (default 0 ((v :: row) !! (j - j0)%nat))
                   else 0).
    { rewrite IH. repeat case_decide; try lia; try reflexivity.
      replace (j - j0)%nat with (S (j - S j0)) by lia. reflexivity. }
    destruct (v =? 0) eqn:Hv; cbn [csr_find]; rewrite Hnext.
    + apply Z.eqb_eq in Hv. subst v.
      repeat case_decide; try lia; try reflexivity.
      subst j0. rewrite Nat.sub_diag. reflexivity.
    + repeat case_decide; try lia; try reflexivity.
      subst j0. rewrite Nat.sub_diag. reflexivity.
Qed.

(** An entry of the sparse matrix is the entry of the dense one, cast. *)
Lemma csr_get_of_dense (m : int_matrix) (i j : nat) :
  csr_get (csr_of_dense m) i j = to_uint32 (get_item m i j).
Proof.
  unfold csr_get, csr_of_dense, get_item. cbn [csr_rows].
  rewrite list_lookup_fmap.
  destruct (rows m !! i) as [row|]; cbn; [|reflexivity].
  rewrite csr_find_nonzero_entries. rewrite decide_True by lia.
  rewrite Nat.sub_0_r. reflexivity.
Qed.

(** ** Matrices of words in range *)

Lemma entries_below_lookup (bound : Z) (rws : list (list Z)) (i j : nat) :
  0 < bound -> entries_below bound rws ->
  0 <= default 0 (rws !! i ≫= fun row => row !! j) < bound.
Proof.
  intros Hb Hall. destruct (rws !! i) as [row|] eqn:Hi; cbn; [|lia].
  destruct (row !! j) as [w|] eqn:Hj; cbn; [|lia].
  eapply Forall_lookup_1 in Hall; [|exact Hi].
  eapply Forall_lookup_1 in Hall; [|exact Hj]. exact Hall.
Qed.

Lemma np_zeros_below (bound : Z) (n : nat) (m : Z) (z : int_matrix) :
  0 < bound -> np_zeros n m = Ok z -> entries_below bound (rows z).
Proof.
  intros Hb. unfold np_zeros. destruct (m <? 0); [discriminate|].
  intros [= <-]. cbn. apply Forall_replicate, Forall_replicate. lia.
Qed.

Lemma set_item_below (bound : Z) (m m' : int_matrix) (i n : nat) (v : Z) :
  entries_below bound (rows m) -> 0 <= v < bound ->
  set_item m i n v = Ok m' -> entries_below bound (rows m').
Proof.
  intros Hall Hv. unfold set_item.
  destruct (rows m !! i) as [row|] eqn:Hi; [|discriminate].
  case_decide; [|discriminate]. intros [= <-]. cbn.
  apply Forall_insert; [assumption|].
  apply Forall_insert; [|assumption].
  eapply Forall_lookup_1; eassumption.
Qed.

Lemma set_item_shape (m m' : int_matrix) (i n : nat) (v : Z) :
  set_item m i n v = Ok m' -> nrows m' = nrows m /\ ncols m' = ncols m.
Proof.
  unfold set_item. destruct (rows m !! i); [|discriminate].
  case_decide; [|discriminate]. intros [= <-]. split; reflexivity.
Qed.

Lemma words_loop_below (bound : Z) (wl : Z) (bps : list float) (lb : Z)
    (patterns : list (list float)) (i n : nat) (m m' : int_matrix) :
  (forall pattern w,
      _generate_words pattern wl bps lb = Ok w -> 0 <= w < bound) ->
  entries_below bound (rows m) ->
  words_loop patterns wl bps lb i n m = Ok m' ->
  entries_below bound (rows m') /\ nrows m' = nrows m /\ ncols m' = ncols m.
Proof.
  intros Hgen. revert n m.
  induction patterns as [|pattern rest IH]; intros n m Hm Hrun; cbn in Hrun.
  - injection Hrun as <-. auto.
  - destruct (_generate_words pattern wl bps lb) as [w|e] eqn:Hw;
      cbn in Hrun; [|discriminate].
    destruct (set_item m i n w) as [m1|e] eqn:Hset; cbn in Hrun; [|discriminate].
    apply IH in Hrun.
    + destruct (set_item_shape _ _ _ _ _ Hset) as [Hr Hc].
      destruct Hrun as (? & ? & ?). repeat split; [assumption|congruence..].
    + eapply set_item_below; eauto.
Qed.

Section TransformProperties.

Variable zscore : list float -> list float.

Lemma instances_loop_below (bound : Z) (ws nw wl : Z) (bps : list float)
    (lb : Z) (X : list (list float)) (i : nat) (m m' : int_matrix) :
  (forall pattern w,
      _generate_words pattern wl bps lb = Ok w -> 0 <= w < bound) ->
  entries_below bound (rows m) ->
  instances_loop zscore X ws nw wl bps lb i m = Ok m' ->
  entries_below bound (rows m') /\ nrows m' = nrows m /\ ncols m' = ncols m.
Proof.
  intros Hgen. revert i m.
  induction X as [|s rest IH]; intros i m Hm Hrun; cbn in Hrun.
  - injection Hrun as <-. auto.
  - destruct (_perform_paa_along_dim _ wl) as [patterns|e];
      cbn in Hrun; [|discriminate].
    destruct (words_loop patterns wl bps lb i 0 m) as [m1|e] eqn:Hwords;
      cbn in Hrun; [|discriminate].
    eapply words_loop_below in Hwords as (Hm1 & Hr & Hc); [|eassumption..].
    apply IH in Hrun; [|assumption].
    destruct Hrun as (? & ? & ?). repeat split; [assumption|congruence..].
Qed.

(** A call of [_transform], statement by statement. *)
Lemma transform_run (X : panel) (self : SAX_FAST) :
  _transform zscore X self =
  let a := alphabet_size self in
  let wl := word_length self in
  if (a <? 2) || (a >? 4) then
    (Raise (RuntimeError "Alphabet size must be an integer between 2 and 4"),
     self)
  else if (wl <? 1) || (wl >? 16) then
    (Raise (RuntimeError "Word length must be an integer between 1 and 16"),
     self)
  else
    match breakpoint_table a with
    | None => (Raise (KeyError a), self)
    | Some bps =>
        let nw := Z.of_nat (series_length X) - window_size self + 1 in
        match np_zeros (n_instances X) nw with
        | Raise e => (Raise e, self)
        | Ok zeros =>
            let lb := Z.log2_up a mod 2 ^ 32 in
            let self1 := snd (set_letter_bits lb self) in
            match instances_loop zscore (series X) (window_size self) nw wl
                    bps lb 0 zeros with
            | Raise e => (Raise e, self1)
            | Ok all_words => transform_tail self1 all_words
            end
        end
    end.
Proof.
  unfold _transform, transform_tail, mbind, M_bind, attr, raise, lift,
    _generate_breakpoints.
  cbn zeta.
  destruct ((alphabet_size self <? 2) || (alphabet_size self >? 4));
    [reflexivity|].
  destruct ((word_length self <? 1) || (word_length self >? 16));
    [reflexivity|].
  destruct (breakpoint_table (alphabet_size self)); [|reflexivity].
  destruct (np_zeros _ _); [|reflexivity].
  cbn.
  destruct (instances_loop _ _ _ _ _ _ _ _ _); [|reflexivity].
  destruct (remove_repeat_words self), (save_words self),
    (return_pandas_data_series self), (return_sparse self); reflexivity.
Qed.

End TransformProperties.

(** ** The PAA compressor *)

Lemma paa_step_in_step (fl : float) (st st' : paa_state) (x x' : float) :
  in_step st st' ->
  same_outcome in_step (paa_step fl st x) (paa_step fl st' x').
Proof.
  destruct st as [cf size sum d], st' as [cf' size' sum' d'].
  unfold in_step. cbn. intros (<- & <- & Hlen).
  unfold paa_step, checked_div, paa_store. cbn.
  destruct (F64.gtb _ _); destruct (F64.eqb _ fl); cbn; auto;
    destruct (F64.is_zero fl); cbn; auto;
    rewrite <- Hlen; case_decide; cbn; rewrite ?length_insert; auto.
Qed.

Lemma paa_loop_in_step (fl : float) (series series' : list float)
    (st st' : paa_state) :
  length series = length series' -> in_step st st' ->
  same_outcome in_step (paa_loop fl series st) (paa_loop fl series' st').
Proof.
  revert series' st st'.
  induction series as [|x rest IH]; intros [|x' rest'] st st' Hlen Hst;
    try discriminate; cbn.
  - exact Hst.
  - pose proof (paa_step_in_step fl st st' x x' Hst) as Hstep.
    destruct (paa_step fl st x), (paa_step fl st' x'); cbn in Hstep |- *;
      try contradiction; [|exact Hstep].
    apply IH; [|exact Hstep]. cbn in Hlen. lia.
Qed.

(** Whether [paa_row] raises does not depend on the samples, and neither does
    the size of the row it returns. *)
Lemma paa_row_outcome (k : Z) (series series' : list float) :
  length series = length series' ->
  same_outcome (fun p p' => length p = length p')
    (paa_row k series) (paa_row k series').
Proof.
  intros Hlen. unfold paa_row. rewrite <- Hlen.
  destruct (k =? 0); [reflexivity|].
  set (fl := F64.div _ _). set (st0 := mk_paa_state _ _ _ _).
  assert (H0 : in_step st0 st0) by (repeat split).
  pose proof (paa_loop_in_step fl series series' st0 st0 Hlen H0) as Hloop.
  destruct (paa_loop fl series st0) as [st|e],
    (paa_loop fl series' st0) as [st'|e']; cbn in Hloop |- *;
    try contradiction; [|exact Hloop].
  destruct Hloop as (Hcf & _ & Hd). rewrite <- Hcf.
  destruct (_ =? k - 1); [|exact Hd].
  unfold checked_div, paa_store.
  destruct (F64.is_zero fl); cbn; [reflexivity|].
  rewrite <- Hcf, <- Hd. case_decide; cbn; rewrite ?length_insert; auto.
Qed.

(** The row that is returned has [num_intervals] slots. *)
Lemma paa_step_length (fl : float) (st st' : paa_state) (x : float) :
  paa_step fl st x = Ok st' -> length (data st') = length (data st).
Proof.
  unfold paa_step, checked_div, paa_store.
  destruct (F64.gtb _ _); destruct (F64.eqb _ fl); cbn;
    try (intros [= <-]; reflexivity);
    destruct (F64.is_zero fl); cbn; try discriminate;
    case_decide; cbn; try discriminate;
    intros [= <-]; cbn; apply length_insert.
Qed.

Lemma paa_loop_length (fl : float) (series : list float) (st st' : paa_state) :
  paa_loop fl series st = Ok st' -> length (data st') = length (data st).
Proof.
  revert st. induction series as [|x rest IH]; intros st H; cbn in H.
  - injection H as <-. reflexivity.
  - destruct (paa_step fl st x) as [st1|e] eqn:Hstep; cbn in H; [|discriminate].
    rewrite (IH _ H). eapply paa_step_length, Hstep.
Qed.

Lemma paa_row_length (k : Z) (series pattern : list float) :
  paa_row k series = Ok pattern -> length pattern = Z.to_nat k.
Proof.
  unfold paa_row. destruct (k =? 0); [discriminate|].
  set (fl := F64.div _ _).
  destruct (paa_loop fl series _) as [st|e] eqn:Hloop; cbn; [|discriminate].
  apply paa_loop_length in Hloop. cbn in Hloop.
  rewrite length_replicate in Hloop.
  destruct (_ =? k - 1).
  - unfold checked_div, paa_store.
    destruct (F64.is_zero fl); cbn; [discriminate|].
    case_decide; cbn; [|discriminate].
    intros [= <-]. rewrite length_insert. exact Hloop.
  - intros [= <-]. exact Hloop.
Qed.

Lemma add_nan_r (x : float) : F64.add x F64.nan = F64.nan.
Proof. destruct x; reflexivity. Qed.

Lemma mul_nan_r (x : float) : F64.mul x F64.nan = F64.nan.
Proof. destruct x; reflexivity. Qed.

Lemma div_nan_l (y : float) : F64.div F64.nan y = F64.nan.
Proof. reflexivity. Qed.

Lemma paa_step_nan (fl : float) (st st' : paa_state) :
  Forall nan_or_unwritten (data st) ->
  paa_step fl st F64.nan = Ok st' ->
  frame_sum st' = F64.nan /\ Forall nan_or_unwritten (data st').
Proof.
  intros Hd. unfold paa_step, checked_div, paa_store.
  rewrite !mul_nan_r, !add_nan_r.
  destruct (F64.gtb _ _); destruct (F64.eqb _ fl); cbn;
    try (intros [= <-]; split; [reflexivity | exact Hd]);
    destruct (F64.is_zero fl); cbn; try discriminate;
    case_decide; cbn; try discriminate;
    intros [= <-]; cbn; (split; [reflexivity|]);
    apply Forall_insert; try assumption; left; reflexivity.
Qed.

Lemma paa_loop_nan (fl : float) (series : list float) (st st' : paa_state) :
  Forall (fun x => x = F64.nan) series ->
  Forall nan_or_unwritten (data st) ->
  frame_sum st = F64.nan \/ series <> [] ->
  paa_loop fl series st = Ok st' ->
  frame_sum st' = F64.nan /\ Forall nan_or_unwritten (data st').
Proof.
  intros Hs. revert st.
  induction Hs as [|x rest -> Hrest IH]; intros st Hd Hsum H; cbn in H.
  - injection H as <-. destruct Hsum as [Hsum|Hne]; [auto | contradiction].
  - destruct (paa_step fl st F64.nan) as [st1|e] eqn:Hstep; cbn in H;
      [|discriminate].
    apply paa_step_nan in Hstep as [Hsum1 Hd1]; [|assumption].
    eapply IH; eauto.
Qed.

Lemma paa_row_nan (k : Z) (series pattern : list float) :
  series <> [] -> Forall (fun x => x = F64.nan) series ->
  paa_row k series = Ok pattern ->
  Forall nan_or_unwritten pattern.
Proof.
  intros Hne Hs. unfold paa_row. destruct (k =? 0); [discriminate|].
  set (fl := F64.div _ _).
  destruct (paa_loop fl series _) as [st|e] eqn:Hloop; cbn; [|discriminate].
  apply paa_loop_nan in Hloop as [Hsum Hd]; auto.
  2:{ cbn. apply Forall_replicate. right. reflexivity. }
  destruct (_ =? k - 1).
  - unfold checked_div, paa_store. rewrite Hsum.
    destruct (F64.is_zero fl); cbn; [discriminate|].
    case_decide; cbn; [|discriminate].
    intros [= <-]. apply Forall_insert; [assumption|]. left. reflexivity.
  - intros [= <-]. exact Hd.
Qed.

(** A pattern of not-a-number segments leaves the word at its initial 0. *)
Lemma words_of_pattern_nan (pattern : list float) (count : nat)
    (bps : list float) (lb word : Z) :
  Forall (fun x => x = F64.nan) pattern -> (count <= length pattern)%nat ->
  words_of_pattern pattern count bps lb word = Ok word.
Proof.
  intros Hp. revert count.
  induction Hp as [|x rest -> Hrest IH]; intros [|count] Hlen;
    cbn in Hlen |- *; try reflexivity; try lia.
  rewrite first_breakpoint_nan. apply IH. lia.
Qed.

(** ** Exact binary64 arithmetic *)

Lemma fexp64_eq (e : Z) : fexp64 e = Z.max (e - 53) (-1074).
Proof. reflexivity. Qed.

Lemma digits2_pos_size (m : positive) : digits2_pos m = Pos.size m.
Proof. induction m as [m IH|m IH|]; cbn; rewrite ?IH; reflexivity. Qed.

Lemma digits2_pos_log2 (m : positive) :
  Zpos (digits2_pos m) = Z.log2 (Zpos m) + 1.
Proof.
  rewrite digits2_pos_size.
  pose proof (Pos.size_gt m) as Hgt. pose proof (Pos.size_le m) as Hle.
  assert (Hgt' : Zpos m < 2 ^ Zpos (Pos.size m)).
  { change 2 with (Zpos 2). rewrite <- Pos2Z.inj_pow. exact Hgt. }
  assert (Hle' : 2 ^ Zpos (Pos.size m) <= 2 * Zpos m).
  { change 2 with (Zpos 2) at 1. rewrite <- Pos2Z.inj_pow. exact Hle. }
  enough (Z.log2 (Zpos m) = Zpos (Pos.size m) - 1) by lia.
  apply Z.log2_unique; [lia|].
  replace (Z.succ (Zpos (Pos.size m) - 1)) with (Zpos (Pos.size m)) by lia.
  split; [|exact Hgt'].
  replace (Zpos (Pos.size m)) with (Z.succ (Zpos (Pos.size m) - 1)) in Hle'
    by lia.
  rewrite Z.pow_succ_r in Hle' by lia. lia.
Qed.

Lemma digits_shift (m : positive) (a : Z) :
  0 <= a ->
  Z.log2 (Zpos m * 2 ^ a) = Z.log2 (Zpos m) + a.
Proof. intros Ha. rewrite Z.log2_mul_pow2 by lia. lia. Qed.

Lemma digits_shift' (z a : Z) :
  0 < z -> 0 <= a -> Z.log2 (z * 2 ^ a) = Z.log2 z + a.
Proof. intros Hz Ha. rewrite Z.log2_mul_pow2 by lia. lia. Qed.

Lemma nat_iter_xO (n : nat) (m : positive) :
  Zpos (Nat.iter n xO m) = Zpos m * 2 ^ Z.of_nat n.
Proof.
  induction n as [|n IH].
  - cbn. lia.
  - change (Nat.iter (S n) xO m) with (xO (Nat.iter n xO m)).
    rewrite Pos2Z.inj_xO, IH, Nat2Z.inj_succ, Z.pow_succ_r by lia. lia.
Qed.

Lemma iter_xO (m d : positive) :
  Zpos (Pos.iter xO m d) = Zpos m * 2 ^ Zpos d.
Proof.
  rewrite Pos2Nat.inj_iter.
  change (nat_rect _ m _ (Pos.to_nat d)) with (Nat.iter (Pos.to_nat d) xO m).
  rewrite nat_iter_xO, positive_nat_Z. reflexivity.
Qed.

Lemma shl_align_spec (m : positive) (e e' : Z) :
  snd (shl_align m e e') = Z.min e e' /\
  Zpos (fst (shl_align m e e')) = Zpos m * 2 ^ (e - Z.min e e').
Proof.
  unfold shl_align. destruct (e' - e) as [|d|d] eqn:Hd; cbn [fst snd].
  - replace (Z.min e e') with e by lia. rewrite Z.sub_diag. cbn. lia.
  - replace (Z.min e e') with e by lia. rewrite Z.sub_diag. cbn. lia.
  - replace (Z.min e e') with e' by lia. rewrite iter_xO.
    replace (e - e') with (Zpos d) by lia. split; reflexivity.
Qed.

Lemma iter_pos_nat {A : Type} (f : A -> A) (p : positive) (x : A) :
  SpecFloat.iter_pos f p x = Nat.iter (Pos.to_nat p) f x.
Proof.
  revert x. induction p as [p IH|p IH|]; intros x; cbn [SpecFloat.iter_pos].
  - rewrite !IH, Pos2Nat.inj_xI.
    rewrite <- Nat.iter_add, <- Nat.iter_succ_r. f_equal. lia.
  - rewrite !IH, Pos2Nat.inj_xO, <- Nat.iter_add. f_equal. lia.
  - reflexivity.
Qed.

Lemma shr_1_even (z : Z) :
  0 < z ->
  shr_1 (Build_shr_record (2 * z) false false) = Build_shr_record z false false.
Proof. intros Hz. destruct z; try lia. reflexivity. Qed.

Lemma iter_shr_exact (n : nat) (z : Z) :
  0 < z ->
  Nat.iter n shr_1 (Build_shr_record (z * 2 ^ Z.of_nat n) false false) =
  Build_shr_record z false false.
Proof.
  intros Hz. induction n as [|n IH].
  - cbn. rewrite Z.mul_1_r. reflexivity.
  - rewrite Nat.iter_succ_r, Nat2Z.inj_succ, Z.pow_succ_r by lia.
    replace (z * (2 * 2 ^ Z.of_nat n)) with (2 * (z * 2 ^ Z.of_nat n)) by lia.
    rewrite shr_1_even; [exact IH|].
    apply Z.mul_pos_pos; [lia|]. apply Z.pow_pos_nonneg; lia.
Qed.

Lemma canonical_mantissa_eq (m : positive) (e : Z) :
  canonical_mantissa 53 1024 m e = true <->
  fexp64 (Zpos (digits2_pos m) + e) = e.
Proof. unfold canonical_mantissa, fexp64. apply Z.eqb_eq. Qed.

Lemma shr_fexp_exact (m m2 : positive) (e n : Z) :
  0 <= n ->
  Zpos m = Zpos m2 * 2 ^ n ->
  fexp64 (Zpos (digits2_pos m) + e) = e + n ->
  shr_fexp 53 1024 (Zpos m) e loc_Exact =
  (Build_shr_record (Zpos m2) false false, e + n).
Proof.
  intros Hn Hm Hexp. unfold shr_fexp, shr. cbn [Zdigits2 shr_record_of_loc].
  fold (fexp64 (Zpos (digits2_pos m) + e)). rewrite Hexp.
  replace (e + n - e) with n by lia.
  destruct n as [|p|p]; try lia.
  - rewrite Z.add_0_r. cbn in Hm. rewrite Z.mul_1_r in Hm.
    injection Hm as ->. reflexivity.
  - rewrite iter_pos_nat, Hm, <- (positive_nat_Z p).
    rewrite iter_shr_exact by lia. rewrite positive_nat_Z. reflexivity.
Qed.

Lemma binary_round_aux_exact (s : bool) (m m2 : positive) (e n : Z) :
  0 <= n ->
  Zpos m = Zpos m2 * 2 ^ n ->
  fexp64 (Zpos (digits2_pos m) + e) = e + n ->
  fexp64 (Zpos (digits2_pos m2) + (e + n)) = e + n ->
  e + n <= 971 ->
  binary_round_aux 53 1024 s (Zpos m) e loc_Exact = S754_finite s m2 (e + n).
Proof.
  intros Hn Hm Hexp Hcan Hmax. unfold binary_round_aux.
  rewrite (shr_fexp_exact m m2 e n Hn Hm Hexp).
  cbn [shr_m loc_of_shr_record round_nearest_even].
  assert (Hsecond : shr_fexp 53 1024 (Zpos m2) (e + n) loc_Exact =
                    (Build_shr_record (Zpos m2) false false, e + n + 0)).
  { apply shr_fexp_exact; [lia | cbn; lia |].
    rewrite Z.add_0_r. exact Hcan. }
  rewrite Hsecond. cbn [shr_m]. rewrite Z.add_0_r.
  replace (e + n <=? 1024 - 53) with true; [reflexivity|].
  symmetry. apply Z.leb_le. lia.
Qed.

(** Position of the leading bit of a value. *)
Lemma position_eq (m m2 : positive) (a b : Z) :
  0 <= a -> 0 <= b ->
  Zpos m * 2 ^ a = Zpos m2 * 2 ^ b ->
  Zpos (digits2_pos m) + a = Zpos (digits2_pos m2) + b.
Proof.
  intros Ha Hb H. rewrite !digits2_pos_log2.
  apply (f_equal Z.log2) in H. rewrite !digits_shift in H by assumption. lia.
Qed.

Lemma binary_round_exact (s : bool) (m m2 : positive) (e ec : Z) :
  -1074 <= e -> -1074 <= ec <= 971 ->
  Zpos m2 * 2 ^ (ec + 1074) = Zpos m * 2 ^ (e + 1074) ->
  fexp64 (Zpos (digits2_pos m2) + ec) = ec ->
  binary_round 53 1024 s m e = S754_finite s m2 ec.
Proof.
  intros He Hec Hval Hcan. unfold binary_round.
  assert (Hpos : Zpos (digits2_pos m) + e = Zpos (digits2_pos m2) + ec).
  { pose proof (position_eq m m2 (e + 1074) (ec + 1074) ltac:(lia) ltac:(lia)
                  (eq_sym Hval)). lia. }
  fold (fexp64 (Zpos (digits2_pos m) + e)). rewrite Hpos, Hcan.
  destruct (shl_align_spec m e ec) as [Hsnd Hfst].
  destruct (shl_align m e ec) as [mz ez]. cbn [fst snd] in Hsnd, Hfst.
  subst ez.
  destruct (Z.le_gt_cases ec e) as [Hle|Hgt].
  - replace (Z.min e ec) with ec in * by lia.
    assert (mz = m2) as ->.
    { apply Pos2Z.inj. rewrite Hfst.
      replace (e + 1074) with ((e - ec) + (ec + 1074)) in Hval by lia.
      rewrite (Z.pow_add_r 2 (e - ec) (ec + 1074)) in Hval by lia.
      assert (0 < 2 ^ (ec + 1074)) by (apply Z.pow_pos_nonneg; lia).
      apply Z.mul_cancel_r with (p := 2 ^ (ec + 1074)); [lia|].
      rewrite Hval. ring. }
    pose proof (binary_round_aux_exact s m2 m2 ec 0) as Haux.
    rewrite !Z.add_0_r in Haux. apply Haux; try lia; try assumption.
  - replace (Z.min e ec) with e in * by lia.
    rewrite Z.sub_diag, Z.mul_1_r in Hfst. injection Hfst as ->.
    pose proof (binary_round_aux_exact s m m2 e (ec - e)) as Haux.
    replace (e + (ec - e)) with ec in Haux by lia.
    apply Haux; try lia.
    + replace (ec + 1074) with ((ec - e) + (e + 1074)) in Hval by lia.
      rewrite (Z.pow_add_r 2 (ec - e) (e + 1074)) in Hval by lia.
      assert (0 < 2 ^ (e + 1074)) by (apply Z.pow_pos_nonneg; lia).
      apply Z.mul_cancel_r with (p := 2 ^ (e + 1074)); [lia|].
      rewrite <- Hval. ring.
    + rewrite Hpos. exact Hcan.
Qed.

Lemma bounded_eq (m : positive) (e : Z) :
  bounded 53 1024 m e = true <->
  fexp64 (Zpos (digits2_pos m) + e) = e /\ e <= 971.
Proof.
  unfold bounded. rewrite andb_true_iff, canonical_mantissa_eq, Z.leb_le.
  reflexivity.
Qed.

Lemma bounded_emin (m : positive) (e : Z) :
  bounded 53 1024 m e = true -> -1074 <= e.
Proof. rewrite bounded_eq, fexp64_eq. lia. Qed.

Lemma is_float_nonneg (x : float) (V : Z) : is_float x V -> 0 <= V.
Proof.
  destruct x as [s|s| |s m e]; cbn; try tauto; [lia|].
  intros (_ & Hb & ->). apply bounded_emin in Hb.
  assert (0 < 2 ^ (e + 1074)) by (apply Z.pow_pos_nonneg; lia). lia.
Qed.

Lemma is_float_zero (x : float) : is_float x 0 -> x = S754_zero false.
Proof.
  destruct x as [s|s| |s m e]; cbn; try tauto.
  - intros [-> _]. reflexivity.
  - intros (_ & Hb & H). apply bounded_emin in Hb.
    assert (0 < 2 ^ (e + 1074)) by (apply Z.pow_pos_nonneg; lia). lia.
Qed.

Lemma is_float_unique (x y : float) (V : Z) :
  is_float x V -> is_float y V -> x = y.
Proof.
  destruct x as [s|s| |s m e]; cbn; try tauto.
  - intros [-> ->] Hy. symmetry. apply is_float_zero, Hy.
  - intros (-> & Hb & ->) Hy.
    destruct y as [s'|s'| |s' m' e']; cbn in Hy; try tauto.
    + destruct Hy as [_ Hy]. pose proof (bounded_emin _ _ Hb).
      assert (0 < 2 ^ (e + 1074)) by (apply Z.pow_pos_nonneg; lia). lia.
    + destruct Hy as (-> & Hb' & Hv).
      pose proof (bounded_emin _ _ Hb). pose proof (bounded_emin _ _ Hb').
      pose proof (position_eq m m' (e + 1074) (e' + 1074) ltac:(lia)
                    ltac:(lia) Hv) as Hpos.
      apply bounded_eq in Hb as [Hc _]. apply bounded_eq in Hb' as [Hc' _].
      assert (e = e').
      { rewrite <- Hc, <- Hc'. f_equal. lia. }
      subst e'. f_equal. apply Pos2Z.inj.
      assert (0 < 2 ^ (e + 1074)) by (apply Z.pow_pos_nonneg; lia).
      apply Z.mul_cancel_r with (p := 2 ^ (e + 1074)); [lia | exact Hv].
Qed.

(** Every integer below [2^53], scaled by a power of two in range, is a
    binary64 number. *)
Lemma is_float_exists (z E : Z) :
  0 <= z < 2 ^ 53 -> -1074 <= E <= 971 ->
  exists x, is_float x (z * 2 ^ (E + 1074)).
Proof.
  intros Hz HE. destruct (Z.eq_dec z 0) as [->|Hnz].
  - exists (S754_zero false). cbn. auto.
  - set (ec := fexp64 (Z.log2 z + 1 + E)).
    assert (Hlog : 0 <= Z.log2 z < 53).
    { split; [apply Z.log2_nonneg|]. apply Z.log2_lt_pow2; lia. }
    assert (Hec : -1074 <= ec <= E) by (subst ec; rewrite fexp64_eq; lia).
    assert (Hpos : 0 < z * 2 ^ (E - ec)).
    { apply Z.mul_pos_pos; [lia|]. apply Z.pow_pos_nonneg; lia. }
    destruct (z * 2 ^ (E - ec)) as [|m|m] eqn:Hm; try lia.
    exists (S754_finite false m ec). cbn. split; [reflexivity|]. split.
    + apply bounded_eq. split; [|lia].
      rewrite digits2_pos_log2, <- Hm, digits_shift' by lia.
      replace (Z.log2 z + (E - ec) + 1 + ec) with (Z.log2 z + 1 + E) by lia.
      reflexivity.
    + rewrite <- Hm, <- Z.mul_assoc, <- Z.pow_add_r by lia.
      f_equal. f_equal. lia.
Qed.

Lemma binary_normalize_exact (z e : Z) (r : float) :
  -1074 <= e ->
  is_float r (z * 2 ^ (e + 1074)) ->
  binary_normalize 53 1024 z e false = r.
Proof.
  intros He Hr.
  assert (Hp : 0 < 2 ^ (e + 1074)) by (apply Z.pow_pos_nonneg; lia).
  pose proof (is_float_nonneg _ _ Hr) as Hnn.
  destruct z as [|m|m]; cbn [binary_normalize]; [| |lia].
  - symmetry. apply is_float_zero. exact Hr.
  - destruct r as [s|s| |s m2 ec]; cbn in Hr; try tauto; [lia|].
    destruct Hr as (-> & Hb & Hv).
    pose proof (bounded_emin _ _ Hb). apply bounded_eq in Hb as [Hc Hmax].
    apply binary_round_exact; auto; lia.
Qed.

Lemma add_exact (x y r : float) (a b : Z) :
  is_float x a -> is_float y b -> is_float r (a + b) ->
  F64.add x y = r.
Proof.
  intros Hx Hy Hr. unfold F64.add, F64.prec, F64.emax.
  destruct x as [sx|sx| |sx mx ex]; cbn in Hx; try tauto.
  - destruct Hx as [-> ->].
    destruct y as [sy|sy| |sy my ey]; cbn in Hy; try tauto.
    + destruct Hy as [-> ->]. symmetry. apply is_float_zero, Hr.
    + cbn. eapply is_float_unique; [|exact Hr]. exact Hy.
  - destruct Hx as (-> & Hbx & ->).
    destruct y as [sy|sy| |sy my ey]; cbn in Hy; try tauto.
    + destruct Hy as [-> ->]. cbn. rewrite Z.add_0_r in Hr.
      eapply is_float_unique; [|exact Hr]. cbn. auto.
    + destruct Hy as (-> & Hby & ->).
      pose proof (bounded_emin _ _ Hbx). pose proof (bounded_emin _ _ Hby).
      cbn [SFadd cond_Zopp].
      destruct (shl_align_spec mx ex (Z.min ex ey)) as [_ Hfx].
      destruct (shl_align_spec my ey (Z.min ex ey)) as [_ Hfy].
      rewrite Hfx, Hfy.
      replace (Z.min ex (Z.min ex ey)) with (Z.min ex ey) by lia.
      replace (Z.min ey (Z.min ex ey)) with (Z.min ex ey) by lia.
      apply binary_normalize_exact; [lia|].
      replace ((Zpos mx * 2 ^ (ex - Z.min ex ey) +
                Zpos my * 2 ^ (ey - Z.min ex ey)) * 2 ^ (Z.min ex ey + 1074))
        with (Zpos mx * 2 ^ (ex + 1074) + Zpos my * 2 ^ (ey + 1074));
        [exact Hr|].
      rewrite Z.mul_add_distr_r, <- !Z.mul_assoc, <- !Z.pow_add_r by lia.
      f_equal; f_equal; f_equal; lia.
Qed.

Lemma sub_exact (x y r : float) (a b : Z) :
  is_float x a -> is_float y b -> is_float r (a - b) ->
  F64.sub x y = r.
Proof.
  intros Hx Hy Hr. unfold F64.sub, F64.prec, F64.emax. pose proof (is_float_nonneg _ _ Hr) as Hnn.
  destruct x as [sx|sx| |sx mx ex]; cbn in Hx; try tauto.
  - destruct Hx as [-> ->].
    destruct y as [sy|sy| |sy my ey]; cbn in Hy; try tauto.
    + destruct Hy as [-> ->]. symmetry. apply is_float_zero, Hr.
    + destruct Hy as (-> & Hby & ->). pose proof (bounded_emin _ _ Hby).
      assert (0 < 2 ^ (ey + 1074)) by (apply Z.pow_pos_nonneg; lia). lia.
  - destruct Hx as (-> & Hbx & ->).
    destruct y as [sy|sy| |sy my ey]; cbn in Hy; try tauto.
    + destruct Hy as [-> ->]. cbn. rewrite Z.sub_0_r in Hr.
      eapply is_float_unique; [|exact Hr]. cbn. auto.
    + destruct Hy as (-> & Hby & ->).
      pose proof (bounded_emin _ _ Hbx). pose proof (bounded_emin _ _ Hby).
      cbn [SFsub cond_Zopp].
      destruct (shl_align_spec mx ex (Z.min ex ey)) as [_ Hfx].
      destruct (shl_align_spec my ey (Z.min ex ey)) as [_ Hfy].
      rewrite Hfx, Hfy.
      replace (Z.min ex (Z.min ex ey)) with (Z.min ex ey) by lia.
      replace (Z.min ey (Z.min ex ey)) with (Z.min ex ey) by lia.
      apply binary_normalize_exact; [lia|].
      replace ((Zpos mx * 2 ^ (ex - Z.min ex ey) -
                Zpos my * 2 ^ (ey - Z.min ex ey)) * 2 ^ (Z.min ex ey + 1074))
        with (Zpos mx * 2 ^ (ex + 1074) - Zpos my * 2 ^ (ey + 1074));
        [exact Hr|].
      rewrite Z.mul_sub_distr_r, <- !Z.mul_assoc, <- !Z.pow_add_r by lia.
      f_equal; f_equal; f_equal; lia.
Qed.

Lemma bounded_digits (m : positive) (e : Z) :
  bounded 53 1024 m e = true ->
  Zpos m < 2 ^ 53 /\ (-1074 < e -> 2 ^ 52 <= Zpos m).
Proof.
  intros Hb. apply bounded_eq in Hb as [Hc _].
  rewrite fexp64_eq, digits2_pos_log2 in Hc.
  assert (Hlog : 0 <= Z.log2 (Zpos m)) by apply Z.log2_nonneg.
  pose proof (Z.log2_spec (Zpos m) ltac:(lia)) as [Hlo Hhi].
  split.
  - eapply Z.lt_le_trans; [exact Hhi|]. apply Z.pow_le_mono_r; lia.
  - intros He. eapply Z.le_trans; [|exact Hlo].
    apply Z.pow_le_mono_r; lia.
Qed.

Lemma compare_exact (x y : float) (a b : Z) :
  is_float x a -> is_float y b ->
  SFcompare x y = Some (a ?= b).
Proof.
  intros Hx Hy.
  pose proof (is_float_nonneg _ _ Hx). pose proof (is_float_nonneg _ _ Hy).
  destruct x as [sx|sx| |sx mx ex]; cbn in Hx; try tauto;
    destruct y as [sy|sy| |sy my ey]; cbn in Hy; try tauto.
  - destruct Hx as [-> ->], Hy as [-> ->]. reflexivity.
  - destruct Hx as [-> ->], Hy as (-> & Hby & ->). cbn [SFcompare].
    pose proof (bounded_emin _ _ Hby).
    assert (0 < 2 ^ (ey + 1074)) by (apply Z.pow_pos_nonneg; lia).
    f_equal. symmetry. apply Z.compare_lt_iff. lia.
  - destruct Hx as (-> & Hbx & ->), Hy as [-> ->]. cbn [SFcompare].
    pose proof (bounded_emin _ _ Hbx).
    assert (0 < 2 ^ (ex + 1074)) by (apply Z.pow_pos_nonneg; lia).
    f_equal. symmetry. apply Z.compare_gt_iff. lia.
  - destruct Hx as (-> & Hbx & ->), Hy as (-> & Hby & ->). cbn [SFcompare].
    pose proof (bounded_emin _ _ Hbx) as Hex.
    pose proof (bounded_emin _ _ Hby) as Hey.
    pose proof (bounded_digits _ _ Hbx) as [Hxhi Hxlo].
    pose proof (bounded_digits _ _ Hby) as [Hyhi Hylo].
    f_equal. destruct (Z.compare_spec ex ey) as [->|Hlt|Hgt].
    + assert (Hp : 0 < 2 ^ (ey + 1074)) by (apply Z.pow_pos_nonneg; lia).
      change (Pos.compare_cont Eq mx my) with (Zpos mx ?= Zpos my).
      apply Zmult_compare_compat_r. lia.
    + symmetry. apply Z.compare_lt_iff.
      replace (ey + 1074) with ((ey - ex) + (ex + 1074)) by lia.
      rewrite (Z.pow_add_r 2 (ey - ex) (ex + 1074)) by lia.
      assert (Hp : 0 < 2 ^ (ex + 1074)) by (apply Z.pow_pos_nonneg; lia).
      assert (H2 : 2 <= 2 ^ (ey - ex)).
      { change 2 with (2 ^ 1) at 1. apply Z.pow_le_mono_r; lia. }
      specialize (Hylo ltac:(lia)).
      assert (Zpos mx < Zpos my * 2 ^ (ey - ex)) by nia.
      nia.
    + symmetry. apply Z.compare_gt_iff.
      replace (ex + 1074) with ((ex - ey) + (ey + 1074)) by lia.
      rewrite (Z.pow_add_r 2 (ex - ey) (ey + 1074)) by lia.
      assert (Hp : 0 < 2 ^ (ey + 1074)) by (apply Z.pow_pos_nonneg; lia).
      assert (H2 : 2 <= 2 ^ (ex - ey)).
      { change 2 with (2 ^ 1) at 1. apply Z.pow_le_mono_r; lia. }
      specialize (Hxlo ltac:(lia)).
      assert (Zpos my < Zpos mx * 2 ^ (ex - ey)) by nia.
      nia.
Qed.

Lemma eqb_exact (x y : float) (a b : Z) :
  is_float x a -> is_float y b -> SFeqb x y = (a =? b).
Proof.
  intros Hx Hy. unfold SFeqb. rewrite (compare_exact x y a b Hx Hy).
  destruct (Z.compare_spec a b) as [->|Hlt|Hgt].
  - rewrite Z.eqb_refl. reflexivity.
  - symmetry. apply Z.eqb_neq. lia.
  - symmetry. apply Z.eqb_neq. lia.
Qed.

Lemma ltb_exact (x y : float) (a b : Z) :
  is_float x a -> is_float y b -> SFltb x y = (a <? b).
Proof.
  intros Hx Hy. unfold SFltb. rewrite (compare_exact x y a b Hx Hy).
  unfold Z.ltb. destruct (a ?= b); reflexivity.
Qed.

Lemma of_Z_exact (n : Z) :
  0 <= n < 2 ^ 53 -> is_float (F64.of_Z n) (n * 2 ^ 1074).
Proof.
  intros Hn. destruct (is_float_exists n 0 Hn ltac:(lia)) as [x Hx].
  unfold F64.of_Z, F64.prec, F64.emax. rewrite (binary_normalize_exact n 0 x ltac:(lia) Hx). exact Hx.
Qed.

(** A positive integer below [2^52] as a binary64 number: a mantissa of 53
    bits and an exponent between -52 and -1. *)
Lemma of_Z_normal (n : Z) :
  1 <= n < 2 ^ 52 ->
  exists m e,
    F64.of_Z n = S754_finite false m e /\
    2 ^ 52 <= Zpos m < 2 ^ 53 /\ -52 <= e <= -1 /\
    Zpos m = n * 2 ^ (- e).
Proof.
  intros Hn. pose proof (of_Z_exact n ltac:(lia)) as Hx.
  destruct (F64.of_Z n) as [s|s| |s m e]; cbn in Hx; try tauto; [lia|].
  destruct Hx as (-> & Hb & Hv).
  pose proof (bounded_emin _ _ Hb) as He.
  pose proof (bounded_digits _ _ Hb) as [Hhi Hlo].
  assert (Hp : 0 < 2 ^ (e + 1074)) by (apply Z.pow_pos_nonneg; lia).
  assert (He52 : -52 <= e).
  { destruct (Z.lt_ge_cases e (-52)) as [Hlt|]; [|assumption]. exfalso.
    assert (2 ^ (e + 1074) <= 2 ^ 1021) by (apply Z.pow_le_mono_r; lia).
    assert (Zpos m * 2 ^ (e + 1074) < 2 ^ 53 * 2 ^ 1021) by nia.
    change (2 ^ 53 * 2 ^ 1021) with (2 ^ 1074) in *. nia. }
  specialize (Hlo ltac:(lia)).
  assert (He1 : e <= -1).
  { destruct (Z.lt_ge_cases e 0) as [|Hge]; [lia|]. exfalso.
    assert (2 ^ 1074 <= 2 ^ (e + 1074)) by (apply Z.pow_le_mono_r; lia).
    assert (0 < 2 ^ 1074) by (apply Z.pow_pos_nonneg; lia). nia. }
  exists m, e. repeat split; try lia.
  assert (Hq : 0 < 2 ^ (- e)) by (apply Z.pow_pos_nonneg; lia).
  apply Z.mul_cancel_r with (p := 2 ^ (e + 1074)); [lia|].
  rewrite <- Hv, <- Z.mul_assoc, <- Z.pow_add_r by lia.
  f_equal. f_equal. lia.
Qed.

Lemma round_nearest_even_cases (m : Z) (l : location) :
  round_nearest_even m l = m \/ round_nearest_even m l = m + 1.
Proof.
  destruct l as [|[| |]]; cbn; auto. destruct (Z.even m); auto.
Qed.

Lemma loc_of_record_of_loc (m : Z) (l : location) :
  loc_of_shr_record (shr_record_of_loc m l) = l /\
  shr_m (shr_record_of_loc m l) = m.
Proof. destruct l as [|[| |]]; split; reflexivity. Qed.

Lemma shr_1_m (mrs : shr_record) :
  0 <= shr_m mrs -> shr_m (shr_1 mrs) = shr_m mrs / 2.
Proof.
  destruct mrs as [m r s]. cbn [shr_m]. intros Hm.
  destruct m as [|[p|p|]|p]; cbn [shr_1 shr_m]; try lia;
    rewrite <- Z.div2_div; reflexivity.
Qed.

Lemma digits_53 (m : positive) :
  2 ^ 52 <= Zpos m < 2 ^ 53 -> Zpos (digits2_pos m) = 53.
Proof.
  intros Hm. rewrite digits2_pos_log2.
  rewrite (Z.log2_unique (Zpos m) 52); [reflexivity | lia | exact Hm].
Qed.

Lemma digits_54 (m : positive) :
  2 ^ 53 <= Zpos m < 2 ^ 54 -> Zpos (digits2_pos m) = 54.
Proof.
  intros Hm. rewrite digits2_pos_log2.
  rewrite (Z.log2_unique (Zpos m) 53); [reflexivity | lia | exact Hm].
Qed.

(** The last step of a rounding: a mantissa of 53 bits is kept, and [2^53]
    is renormalised to [2^52] with the next exponent. *)
Lemma round_aux_finish (mr e1 : Z) :
  2 ^ 52 <= mr <= 2 ^ 53 -> -1074 <= e1 <= 970 ->
  exists M E,
    (let '(mrs, e2) := shr_fexp 53 1024 mr e1 loc_Exact in
     match shr_m mrs with
     | Z0 => S754_zero false
     | Zpos m =>
         if e2 <=? 1024 - 53 then S754_finite false m e2
         else S754_infinity false
     | Zneg _ => S754_nan
     end) = S754_finite false M E /\
    bounded 53 1024 M E = true /\
    ((E = e1 /\ Zpos M = mr) \/
     (E = e1 + 1 /\ Zpos M = 2 ^ 52 /\ mr = 2 ^ 53)).
Proof.
  intros Hmr He. destruct mr as [|p|p]; try lia.
  destruct (Z.eq_dec (Zpos p) (2 ^ 53)) as [Heq|Hne].
  - exists (Z.to_pos (2 ^ 52)), (e1 + 1).
    assert (H52 : Zpos (Z.to_pos (2 ^ 52)) = 2 ^ 52) by reflexivity.
    rewrite (shr_fexp_exact p (Z.to_pos (2 ^ 52)) e1 1); try lia.
    2:{ rewrite fexp64_eq, digits_54 by lia. lia. }
    cbn [shr_m].
    replace (e1 + 1 <=? 1024 - 53) with true by (symmetry; apply Z.leb_le; lia).
    split; [reflexivity|]. split; [|right; auto].
    apply bounded_eq. split; [|lia].
    rewrite fexp64_eq, digits_53 by lia. lia.
  - exists p, e1.
    pose proof (shr_fexp_exact p p e1 0 ltac:(lia)) as Hs.
    rewrite Z.add_0_r in Hs. rewrite Hs; try lia.
    2:{ rewrite fexp64_eq, digits_53 by lia. lia. }
    cbn [shr_m].
    replace (e1 <=? 1024 - 53) with true by (symmetry; apply Z.leb_le; lia).
    split; [reflexivity|]. split; [|left; auto].
    apply bounded_eq. split; [|lia].
    rewrite fexp64_eq, digits_53 by lia. lia.
Qed.

(** Rounding a mantissa of 53 or 54 bits: the result is the truncation to 53
    bits or the number after it. *)
Lemma round_aux_53 (q : positive) (e : Z) (l : location) :
  2 ^ 52 <= Zpos q < 2 ^ 53 -> -1074 <= e <= 970 ->
  exists M E,
    binary_round_aux 53 1024 false (Zpos q) e l = S754_finite false M E /\
    bounded 53 1024 M E = true /\
    ((E = e /\ (Zpos M = Zpos q \/ Zpos M = Zpos q + 1)) \/
     (E = e + 1 /\ Zpos M = 2 ^ 52 /\ Zpos q + 1 = 2 ^ 53)).
Proof.
  intros Hq He. unfold binary_round_aux.
  unfold shr_fexp at 1. cbn [Zdigits2].
  fold (fexp64 (Zpos (digits2_pos q) + e)).
  rewrite fexp64_eq, digits_53 by lia.
  replace (Z.max (53 + e - 53) (-1074) - e) with 0 by lia.
  cbn [shr].
  destruct (loc_of_record_of_loc (Zpos q) l) as [-> ->].
  destruct (round_nearest_even_cases (Zpos q) l) as [-> | ->].
  - destruct (round_aux_finish (Zpos q) e ltac:(lia) He)
      as (M & E & Hres & Hb & Hcases).
    exists M, E. split; [exact Hres|]. split; [exact Hb|]. lia.
  - destruct (round_aux_finish (Zpos q + 1) e ltac:(lia) He)
      as (M & E & Hres & Hb & Hcases).
    exists M, E. split; [exact Hres|]. split; [exact Hb|]. lia.
Qed.

Lemma round_aux_54 (q : positive) (e : Z) (l : location) :
  2 ^ 53 <= Zpos q < 2 ^ 54 -> -1074 <= e <= 969 ->
  exists M E,
    binary_round_aux 53 1024 false (Zpos q) e l = S754_finite false M E /\
    bounded 53 1024 M E = true /\
    ((E = e + 1 /\ (Zpos M = Zpos q / 2 \/ Zpos M = Zpos q / 2 + 1)) \/
     (E = e + 2 /\ Zpos M = 2 ^ 52 /\ Zpos q / 2 + 1 = 2 ^ 53)).
Proof.
  intros Hq He. unfold binary_round_aux.
  unfold shr_fexp at 1. cbn [Zdigits2].
  fold (fexp64 (Zpos (digits2_pos q) + e)).
  rewrite fexp64_eq, digits_54 by lia.
  replace (Z.max (54 + e - 53) (-1074) - e) with 1 by lia.
  cbn [shr SpecFloat.iter_pos].
  set (mrs := shr_1 (shr_record_of_loc (Zpos q) l)).
  assert (Hm : shr_m mrs = Zpos q / 2).
  { subst mrs. rewrite shr_1_m;
      destruct (loc_of_record_of_loc (Zpos q) l) as [_ ->]; lia. }
  assert (Ht : 2 ^ 52 <= Zpos q / 2 < 2 ^ 53).
  { split.
    - apply Z.div_le_lower_bound; lia.
    - apply Z.div_lt_upper_bound; lia. }
  rewrite Hm.
  destruct (round_nearest_even_cases (Zpos q / 2) (loc_of_shr_record mrs))
    as [-> | ->].
  - destruct (round_aux_finish (Zpos q / 2) (e + 1) ltac:(lia) ltac:(lia))
      as (M & E & Hres & Hb & Hcases).
    exists M, E. split; [exact Hres|]. split; [exact Hb|]. lia.
  - destruct (round_aux_finish (Zpos q / 2 + 1) (e + 1) ltac:(lia) ltac:(lia))
      as (M & E & Hres & Hb & Hcases).
    exists M, E. split; [exact Hres|]. split; [exact Hb|]. lia.
Qed.

Lemma div_core (mn mk : positive) (en ek : Z) :
  2 ^ 52 <= Zpos mn < 2 ^ 53 -> 2 ^ 52 <= Zpos mk < 2 ^ 53 ->
  -52 <= en <= -1 -> -52 <= ek <= -1 ->
  SFdiv_core_binary 53 1024 (Zpos mn) en (Zpos mk) ek =
  (Zpos mn * 2 ^ 53 / Zpos mk, en - ek - 53,
   new_location (Zpos mk) (Zpos mn * 2 ^ 53 mod Zpos mk)).
Proof.
  intros Hmn Hmk Hen Hek. unfold SFdiv_core_binary. cbn [Zdigits2].
  rewrite !digits_53 by assumption.
  fold (fexp64 (53 + en - (53 + ek))). rewrite fexp64_eq.
  replace (Z.min (Z.max (53 + en - (53 + ek) - 53) (-1074)) (en - ek))
    with (en - ek - 53) by lia.
  replace (en - ek - (en - ek - 53)) with 53 by lia.
  rewrite Z.shiftl_mul_pow2 by lia.
  unfold Z.div, Z.modulo.
  destruct (Z.div_eucl (Zpos mn * 2 ^ 53) (Zpos mk)) as [q r]. reflexivity.
Qed.

Lemma div_finish (n k t g M E : Z) :
  1 <= k <= n -> n < 2 ^ 52 -> 2 ^ 52 <= t < 2 ^ 53 -> 0 <= g ->
  t * k <= n * 2 ^ g < (t + 1) * k ->
  2 ^ 52 <= M < 2 ^ 53 ->
  (E = - g /\ (M = t \/ M = t + 1)) \/
  (E = - g + 1 /\ M = 2 ^ 52 /\ t + 1 = 2 ^ 53) ->
  -52 <= E <= 0 /\ - k <= M * k - n * 2 ^ (- E) <= k.
Proof.
  intros Hk Hn Ht Hg0 [Hlo Hhi] HM Hcases.
  assert (Hpg : 0 < 2 ^ g) by (apply Z.pow_pos_nonneg; lia).
  assert (Hg : 1 <= g <= 52).
  { split.
    - destruct (Z.eq_dec g 0) as [Hz|]; [|lia]. exfalso. rewrite Hz in *.
      change (2 ^ 0) with 1 in *.
      assert (2 ^ 52 * 1 <= t * k) by (apply Z.mul_le_mono_nonneg; lia). lia.
    - destruct (Z.lt_ge_cases g 53) as [|Hge]; [lia|]. exfalso.
      assert (2 ^ 53 <= 2 ^ g) by (apply Z.pow_le_mono_r; lia).
      assert (n * 2 ^ 53 <= n * 2 ^ g)
        by (apply Z.mul_le_mono_nonneg_l; lia).
      assert ((t + 1) * k <= 2 ^ 53 * n)
        by (apply Z.mul_le_mono_nonneg; lia).
      lia. }
  assert (H2 : 2 ^ g = 2 * 2 ^ (g - 1)).
  { rewrite <- Z.pow_succ_r by lia. f_equal. lia. }
  destruct Hcases as [(-> & HMt) | (-> & -> & Hcarry)].
  - replace (- - g) with g by lia. split; [lia|].
    destruct HMt as [-> | ->]; lia.
  - replace (- (- g + 1)) with (g - 1) by lia. split; [lia|].
    rewrite H2 in Hlo, Hhi. lia.
Qed.

(** The quotient of two integers, [1 <= k <= n < 2^52]: a number
    [M * 2^E] with a mantissa of 53 bits, at least one, and within one unit
    in the last place of [n / k]. *)
Lemma div_ints (n k : Z) :
  1 <= k <= n -> n < 2 ^ 52 ->
  exists M E,
    F64.div (F64.of_Z n) (F64.of_Z k) = S754_finite false M E /\
    bounded 53 1024 M E = true /\
    2 ^ 52 <= Zpos M < 2 ^ 53 /\ -52 <= E <= 0 /\
    - k <= Zpos M * k - n * 2 ^ (- E) <= k.
Proof.
  intros Hk Hn.
  destruct (of_Z_normal n ltac:(lia)) as (mn & en & -> & Hmn & Hen & Hvn).
  destruct (of_Z_normal k ltac:(lia)) as (mk & ek & -> & Hmk & Hek & Hvk).
  unfold F64.div, F64.prec, F64.emax. cbn [SFdiv xorb].
  rewrite div_core by assumption.
  set (l := new_location _ _).
  pose proof (Z.div_mod (Zpos mn * 2 ^ 53) (Zpos mk) ltac:(lia)) as Hdm.
  pose proof (Z.mod_pos_bound (Zpos mn * 2 ^ 53) (Zpos mk) ltac:(lia)) as Hr.
  set (q := Zpos mn * 2 ^ 53 / Zpos mk) in *.
  set (r := Zpos mn * 2 ^ 53 mod Zpos mk) in *.
  assert (Hq : 2 ^ 52 <= q < 2 ^ 54).
  { split.
    - apply Z.div_le_lower_bound; [lia|].
      assert (Zpos mk * 2 ^ 52 <= 2 ^ 53 * 2 ^ 52)
        by (apply Z.mul_le_mono_nonneg_r; lia).
      assert (2 ^ 52 * 2 ^ 53 <= Zpos mn * 2 ^ 53)
        by (apply Z.mul_le_mono_nonneg_r; lia).
      lia.
    - apply Z.div_lt_upper_bound; [lia|].
      assert (Zpos mn * 2 ^ 53 < 2 ^ 53 * 2 ^ 53)
        by (apply Z.mul_lt_mono_pos_r; lia).
      assert (2 ^ 52 * 2 ^ 54 <= Zpos mk * 2 ^ 54)
        by (apply Z.mul_le_mono_nonneg_r; lia).
      lia. }
  set (P := 2 ^ (- ek)) in *.
  assert (HP : 0 < P) by (apply Z.pow_pos_nonneg; lia).
  assert (Hpn : 0 < 2 ^ (- en)) by (apply Z.pow_pos_nonneg; lia).
  destruct q as [|pq|pq] eqn:Hpq; try lia.
  destruct (Z.lt_ge_cases (Zpos pq) (2 ^ 53)) as [H53|H54].
  - (* a quotient of 53 bits *)
    destruct (round_aux_53 pq (en - ek - 53) l ltac:(lia) ltac:(lia))
      as (M & E & -> & Hb & Hcases).
    pose proof (bounded_digits _ _ Hb) as [HMhi _].
    set (g := - en + ek + 53).
    assert (Hg0 : 0 <= g) by (subst g; lia).
    assert (Hscale : n * 2 ^ g * P = Zpos mn * 2 ^ 53).
    { rewrite Hvn, <- !Z.mul_assoc. f_equal. subst P.
      rewrite <- (Z.pow_add_r 2 g (- ek)), <- (Z.pow_add_r 2 (- en) 53) by lia.
      f_equal. subst g. lia. }
    assert (Hbounds : Zpos pq * k <= n * 2 ^ g < (Zpos pq + 1) * k).
    { split.
      - apply (Z.mul_le_mono_pos_r _ _ P HP).
        rewrite Hscale, Hdm.
        replace (Zpos pq * k * P) with (Zpos mk * Zpos pq) by (rewrite Hvk; ring).
        lia.
      - apply (Z.mul_lt_mono_pos_r P _ _ HP).
        rewrite Hscale, Hdm.
        replace ((Zpos pq + 1) * k * P) with (Zpos mk * Zpos pq + Zpos mk)
          by (rewrite Hvk; ring).
        lia. }
    destruct (div_finish n k (Zpos pq) g (Zpos M) E Hk Hn ltac:(lia) Hg0
                Hbounds ltac:(lia) ltac:(subst g; lia)) as [HE Herr].
    exists M, E. split; [reflexivity|].
    split; [exact Hb|]. split; [lia|]. split; assumption.
  - (* a quotient of 54 bits *)
    destruct (round_aux_54 pq (en - ek - 53) l ltac:(lia) ltac:(lia))
      as (M & E & -> & Hb & Hcases).
    pose proof (bounded_digits _ _ Hb) as [HMhi _].
    pose proof (Z.div_mod (Zpos pq) 2 ltac:(lia)) as Hq2.
    pose proof (Z.mod_pos_bound (Zpos pq) 2 ltac:(lia)) as Hr2.
    set (t := Zpos pq / 2) in *.
    assert (Ht : 2 ^ 52 <= t < 2 ^ 53) by lia.
    set (g := - en + ek + 52).
    assert (Hg0 : 0 <= g).
    { subst g. destruct (Z.lt_ge_cases (- en + ek + 52) 0) as [Hneg|]; [|lia].
      exfalso. assert (en = -1 /\ ek = -52) as [Hen1 Hek1] by lia.
      subst P. rewrite Hen1 in Hvn. rewrite Hek1 in Hvk.
      change (2 ^ (- -1)) with 2 in Hvn.
      change (2 ^ (- -52)) with (2 ^ 52) in Hvk. lia. }
    assert (Hscale : 2 * (n * 2 ^ g * P) = Zpos mn * 2 ^ 53).
    { rewrite Hvn, <- !Z.mul_assoc. subst P.
      rewrite <- (Z.pow_add_r 2 g (- ek)), <- (Z.pow_add_r 2 (- en) 53) by lia.
      replace (- en + 53) with (Z.succ (g + - ek)) by (subst g; lia).
      rewrite Z.pow_succ_r by lia. lia. }
    assert (Hbounds : t * k <= n * 2 ^ g < (t + 1) * k).
    { split.
      - apply (Z.mul_le_mono_pos_r _ _ P HP).
        apply (Z.mul_le_mono_pos_l _ _ 2 ltac:(lia)).
        rewrite Hscale, Hdm.
        replace (2 * (t * k * P)) with (Zpos mk * (2 * t)) by (rewrite Hvk; ring).
        assert (Zpos mk * (2 * t) <= Zpos mk * Zpos pq)
          by (apply Z.mul_le_mono_nonneg_l; lia).
        lia.
      - apply (Z.mul_lt_mono_pos_r P _ _ HP).
        apply (Z.mul_lt_mono_pos_l 2 _ _ ltac:(lia)).
        rewrite Hscale, Hdm.
        replace (2 * ((t + 1) * k * P)) with (Zpos mk * (2 * t + 2))
          by (rewrite Hvk; ring).
        assert (Zpos mk * (Zpos pq + 1) <= Zpos mk * (2 * t + 2))
          by (apply Z.mul_le_mono_nonneg_l; lia).
        lia. }
    destruct (div_finish n k t g (Zpos M) E Hk Hn Ht Hg0
                Hbounds ltac:(lia) ltac:(subst g; lia)) as [HE Herr].
    exists M, E. split; [reflexivity|].
    split; [exact Hb|]. split; [lia|]. split; assumption.
Qed.

Lemma add_nan_l (x : float) : F64.add F64.nan x = F64.nan.
Proof. reflexivity. Qed.



(** ** The schedule of the PAA loop *)

Lemma ltb_scale (a b w : Z) : 0 < w -> (a * w <? b * w) = (a <? b).
Proof.
  intros Hw. destruct (Z.ltb_spec a b) as [H|H].
  - apply Z.ltb_lt. apply Z.mul_lt_mono_pos_r; assumption.
  - apply Z.ltb_ge. apply Z.mul_le_mono_nonneg_r; lia.
Qed.

Lemma eqb_scale (a b w : Z) : 0 < w -> (a * w =? b * w) = (a =? b).
Proof.
  intros Hw. destruct (Z.eqb_spec a b) as [->|H].
  - apply Z.eqb_refl.
  - apply Z.eqb_neq. intros Heq. apply H.
    apply Z.mul_cancel_r with (p := w); [lia | exact Heq].
Qed.

Section Schedule.

Variable M : positive.
Variable E : Z.
Hypothesis HM : 2 ^ 52 <= Zpos M < 2 ^ 53.
Hypothesis HE : -52 <= E <= 0.

Local Abbreviation fl := (S754_finite false M E).
Local Abbreviation U := (2 ^ (- E)).
Local Abbreviation W := (2 ^ (E + 1074)).

Lemma W_pos : 0 < W.
Proof. apply Z.pow_pos_nonneg; lia. Qed.

Lemma U_bounds : 1 <= U <= 2 ^ 52.
Proof.
  split.
  - change 1 with (2 ^ 0). apply Z.pow_le_mono_r; lia.
  - apply Z.pow_le_mono_r; lia.
Qed.

Lemma lattice_is_float (z : Z) : 0 <= z < 2 ^ 53 -> is_float (lattice E z) (z * W).
Proof.
  intros Hz. destruct (is_float_exists z E Hz ltac:(lia)) as [x Hx].
  unfold lattice. rewrite (binary_normalize_exact z E x ltac:(lia) Hx). exact Hx.
Qed.

Lemma fl_is_float : is_float fl (Zpos M * W).
Proof.
  cbn. split; [reflexivity|]. split; [|reflexivity].
  apply bounded_eq. rewrite fexp64_eq, digits_53 by assumption. lia.
Qed.

Lemma one_is_float : is_float F64.one (U * W).
Proof.
  cbn. split; [reflexivity|]. split; [reflexivity|].
  rewrite <- Z.pow_add_r by lia.
  replace (- E + (E + 1074)) with 1074 by lia. reflexivity.
Qed.

Lemma is_float_lattice (x : float) (z : Z) :
  0 <= z < 2 ^ 53 -> is_float x (z * W) -> x = lattice E z.
Proof.
  intros Hz Hx. eapply is_float_unique; [exact Hx|]. apply lattice_is_float, Hz.
Qed.

(** One iteration, with the sizes as integers: [c] units of [2^E] of the
    current frame are filled, of the [M] that make a frame. *)
Lemma paa_step_exact (st : paa_state) (c : Z) (x : float) :
  is_float (current_frame_size st) (c * W) -> 0 <= c < Zpos M ->
  paa_step fl st x =
  if U <? Zpos M - c then
    Ok (mk_paa_state (current_frame st) (lattice E (c + U))
          (F64.add (frame_sum st) x) (data st))
  else
    d ← paa_store st
          (F64.div (F64.add (frame_sum st) (F64.mul (lattice E (Zpos M - c)) x)) fl);
    Ok (mk_paa_state (S (current_frame st)) (lattice E (U - (Zpos M - c)))
          (F64.mul (lattice E (U - (Zpos M - c))) x) d).
Proof.
  intros Hc Hrange. pose proof W_pos as HW. pose proof U_bounds as HU.
  unfold paa_step.
  assert (Hrem : F64.sub fl (current_frame_size st) = lattice E (Zpos M - c)).
  { apply (sub_exact _ _ _ (Zpos M * W) (c * W) fl_is_float Hc).
    rewrite <- Z.mul_sub_distr_r. apply lattice_is_float. lia. }
  rewrite Hrem.
  assert (Hremf : is_float (lattice E (Zpos M - c)) ((Zpos M - c) * W))
    by (apply lattice_is_float; lia).
  unfold F64.gtb.
  rewrite (ltb_exact _ _ _ _ one_is_float Hremf), ltb_scale by assumption.
  destruct (U <? Zpos M - c) eqn:Hgt.
  - apply Z.ltb_lt in Hgt.
    assert (Hsize : F64.add (current_frame_size st) F64.one = lattice E (c + U)).
    { apply (add_exact _ _ _ (c * W) (U * W) Hc one_is_float).
      rewrite <- Z.mul_add_distr_r. apply lattice_is_float. lia. }
    rewrite Hsize. unfold F64.eqb.
    rewrite (eqb_exact _ _ ((c + U) * W) (Zpos M * W)
               ltac:(apply lattice_is_float; lia) fl_is_float).
    rewrite eqb_scale by assumption.
    replace (c + U =? Zpos M) with false by (symmetry; apply Z.eqb_neq; lia).
    reflexivity.
  - apply Z.ltb_ge in Hgt.
    assert (Hsize : F64.add (current_frame_size st) (lattice E (Zpos M - c)) = fl).
    { apply (add_exact _ _ _ (c * W) ((Zpos M - c) * W) Hc Hremf).
      rewrite <- Z.mul_add_distr_r.
      replace (c + (Zpos M - c)) with (Zpos M) by lia. apply fl_is_float. }
    rewrite Hsize. unfold F64.eqb.
    rewrite (eqb_exact _ _ _ _ fl_is_float fl_is_float), Z.eqb_refl.
    assert (Hnext : F64.sub F64.one (lattice E (Zpos M - c))
                    = lattice E (U - (Zpos M - c))).
    { apply (sub_exact _ _ _ (U * W) ((Zpos M - c) * W) one_is_float Hremf).
      rewrite <- Z.mul_sub_distr_r. apply lattice_is_float. lia. }
    rewrite Hnext. reflexivity.
Qed.


(** *** The closed form *)

Variable series : list float.

Lemma frame_start_spec (j : nat) :
  (Z.of_nat (frame_start M E j) - 1) * U < Z.of_nat j * Zpos M
    <= Z.of_nat (frame_start M E j) * U.
Proof.
  pose proof U_bounds as HU. unfold frame_start.
  set (a := Z.of_nat j * Zpos M). assert (Ha : 0 <= a) by (subst a; lia).
  assert (Hq : 0 <= (a + U - 1) / U) by (apply Z.div_pos; lia).
  rewrite Z2Nat.id by assumption.
  pose proof (Z.div_mod (a + U - 1) U ltac:(lia)) as Hdm.
  pose proof (Z.mod_pos_bound (a + U - 1) U ltac:(lia)) as Hr.
  lia.
Qed.

Lemma frame_start_unique (j s : nat) :
  (Z.of_nat s - 1) * U < Z.of_nat j * Zpos M <= Z.of_nat s * U ->
  frame_start M E j = s.
Proof.
  intros Hs. pose proof (frame_start_spec j) as Hj.
  pose proof U_bounds as HU.
  apply Nat2Z.inj. nia.
Qed.


(** The frames follow each other in time, from the first sample on. *)
Lemma frame_start_0 : frame_start M E 0 = 0%nat.
Proof. apply frame_start_unique. pose proof U_bounds. lia. Qed.

Lemma frame_start_lt (j : nat) :
  (frame_start M E j < frame_start M E (S j))%nat.
Proof.
  pose proof (frame_start_spec j) as Hj.
  pose proof (frame_start_spec (S j)) as HSj.
  pose proof U_bounds as HU. nia.
Qed.

(** The weights of frame [j]: the carry is a part of one sample, the last
    weight is a part of one sample and not zero, and with the whole samples
    between them the weights add up to the [M] units of a frame. *)
Lemma frame_weights (j : nat) :
  let s := Z.of_nat (frame_start M E j) in
  let t := Z.of_nat (frame_start M E (S j) - 1) in
  0 <= s * U - Z.of_nat j * Zpos M < U /\
  0 < Z.of_nat (S j) * Zpos M - t * U <= U /\
  (s * U - Z.of_nat j * Zpos M) + (t - s) * U
    + (Z.of_nat (S j) * Zpos M - t * U) = Zpos M.
Proof.
  pose proof (frame_start_spec j) as Hj.
  pose proof (frame_start_spec (S j)) as HSj.
  pose proof (frame_start_lt j) as Hlt.
  cbn zeta. rewrite Nat2Z.inj_sub by lia.
  change (Z.of_nat 1) with 1. lia.
Qed.

Variable k : nat.

Hypothesis Hupper :
  Z.of_nat (length series) * U < (Z.of_nat k + 1) * Zpos M.

Lemma store_next (j : nat) :
  (j < k)%nat ->
  <[j := segment_mean M E series j]>
    ((segment_mean M E series <$> seq 0 j) ++ replicate (k - j) F64.zero) =
  (segment_mean M E series <$> seq 0 (S j)) ++ replicate (k - S j) F64.zero.
Proof.
  intros Hj.
  replace (k - j)%nat with (S (k - S j)) by lia. cbn [replicate].
  rewrite seq_S, fmap_app. cbn [fmap list_fmap Nat.add].
  rewrite <- app_assoc. cbn [app].
  replace j with (length (segment_mean M E series <$> seq 0 j) + 0)%nat at 1
    by (rewrite length_fmap, length_seq; lia).
  rewrite insert_app_r. reflexivity.
Qed.

Lemma paa_step_inv (i : nat) (st : paa_state) (x : float) :
  paa_inv M E series k i st -> series !! i = Some x ->
  exists st', paa_step fl st x = Ok st' /\ paa_inv M E series k (S i) st'.
Proof.
  intros (c & Hc & Hrange & Hpos & Hsum & Hdata & Hjk) Hx.
  pose proof W_pos as HW. pose proof U_bounds as HU.
  pose proof (lookup_lt_Some _ _ _ Hx) as Hi.
  set (j := current_frame st) in *.
  pose proof (frame_start_spec j) as Hs.
  assert (Hsi : (frame_start M E j <= i)%nat) by nia.
  rewrite (paa_step_exact st c x Hc Hrange).
  destruct (U <? Zpos M - c) eqn:Hgt.
  - apply Z.ltb_lt in Hgt. eexists. split; [reflexivity|].
    exists (c + U). cbn [current_frame current_frame_size frame_sum data].
    fold j. split; [apply lattice_is_float; lia|]. split; [lia|].
    split; [lia|]. split; [|split; assumption].
    replace (S i - frame_start M E j)%nat with (S (i - frame_start M E j)) by lia.
    rewrite (take_S_r _ _ x).
    + rewrite fold_left_app. cbn [fold_left]. rewrite Hsum. reflexivity.
    + rewrite lookup_drop. rewrite <- Hx. f_equal. lia.
  - apply Z.ltb_ge in Hgt.
    assert (Hj : (j < k)%nat) by nia.
    assert (Hnext : frame_start M E (S j) = S i).
    { apply frame_start_unique. lia. }
    assert (Hseg :
      F64.div (F64.add (frame_sum st) (F64.mul (lattice E (Zpos M - c)) x)) fl
      = segment_mean M E series j).
    { unfold segment_mean, frame_total. rewrite Hnext.
      replace (S i - 1)%nat with i by lia. rewrite Hx, <- Hsum.
      do 4 f_equal. lia. }
    rewrite Hseg. unfold paa_store. fold j. rewrite Hdata.
    rewrite decide_True
      by (rewrite length_app, length_fmap, length_seq, length_replicate; lia).
    cbn [mbind result_bind]. eexists. split; [reflexivity|].
    exists (U - (Zpos M - c)).
    cbn [current_frame current_frame_size frame_sum data]. fold j.
    split; [apply lattice_is_float; lia|]. split; [lia|].
    split; [lia|]. split; [|split; [apply store_next, Hj | lia]].
    rewrite Hnext, Nat.sub_diag, take_0. cbn [fold_left].
    unfold frame_carry. rewrite Hnext.
    replace (S i - 1)%nat with i by lia.
    rewrite (nth_lookup_Some _ _ _ _ Hx). do 2 f_equal. lia.
Qed.

Lemma paa_loop_inv (rest : list float) (i : nat) (st : paa_state) :
  drop i series = rest -> (i <= length series)%nat -> paa_inv M E series k i st ->
  exists st',
    paa_loop fl rest st = Ok st' /\ paa_inv M E series k (length series) st'.
Proof.
  revert i st. induction rest as [|x rest IH]; intros i st Hdrop Hi Hinv.
  - assert (i = length series) as ->.
    { apply (f_equal length) in Hdrop. rewrite length_drop in Hdrop.
      cbn in Hdrop. lia. }
    exists st. split; [reflexivity | exact Hinv].
  - assert (Hx : series !! i = Some x).
    { rewrite <- (Nat.add_0_r i), <- lookup_drop, Hdrop. reflexivity. }
    destruct (paa_step_inv i st x Hinv Hx) as (st1 & Hstep & Hinv1).
    cbn [paa_loop]. rewrite Hstep. cbn [mbind result_bind].
    apply (IH (S i)); [|apply lookup_lt_Some in Hx; lia | exact Hinv1].
    rewrite (drop_S _ _ _ Hx) in Hdrop. injection Hdrop as Hdrop. exact Hdrop.
Qed.


Hypothesis Hk : (1 <= k)%nat.
Hypothesis Hlower :
  (Z.of_nat k - 1) * Zpos M < Z.of_nat (length series) * U.

(** The end of the loop.  Either all [k] segments are stored, or the loop
    ends one segment short, with the samples of the last frame in
    [frame_sum]; the second happens when [k] frames are longer than the
    series, that is when the frame length is the quotient rounded up. *)
Lemma paa_loop_end :
  exists st,
    paa_loop fl series
      (mk_paa_state 0 F64.zero F64.zero (replicate k F64.zero)) = Ok st /\
    ((current_frame st = k /\
      Z.of_nat k * Zpos M <= Z.of_nat (length series) * U /\
      data st = segment_mean M E series <$> seq 0 k) \/
     (current_frame st = (k - 1)%nat /\
      Z.of_nat (length series) * U < Z.of_nat k * Zpos M /\
      <[current_frame st := F64.div (frame_sum st) fl]> (data st)
        = segment_mean M E series <$> seq 0 k)).
Proof.
  pose proof W_pos as HW. pose proof U_bounds as HU.
  set (st0 := mk_paa_state 0 F64.zero F64.zero (replicate k F64.zero)).
  assert (H0 : paa_inv M E series k 0 st0).
  { exists 0. cbn [current_frame current_frame_size frame_sum data st0].
    split; [cbn; auto|]. split; [lia|]. split; [lia|].
    split; [|split; [|lia]].
    - rewrite take_0. reflexivity.
    - rewrite Nat.sub_0_r. reflexivity. }
  destruct (paa_loop_inv series 0 st0 (drop_0 _) ltac:(lia) H0)
    as (st & Hloop & c & Hc & Hrange & Hpos & Hsum & Hdata & Hjk).
  exists st. split; [exact Hloop|].
  set (j := current_frame st) in *.
  assert (Hj : (j = k - 1 \/ j = k)%nat) by nia.
  destruct (decide (j = k)) as [Hjeq|Hjne].
  - left. split; [exact Hjeq|]. split; [lia|].
    rewrite Hdata, Hjeq, Nat.sub_diag. cbn [replicate]. apply app_nil_r.
  - right. assert (j = k - 1)%nat as Hjeq by lia.
    split; [exact Hjeq|]. split; [nia|].
    assert (Hseg : F64.div (frame_sum st) fl = segment_mean M E series j).
    { unfold segment_mean, frame_total.
      pose proof (frame_start_spec j) as Hs.
      pose proof (frame_start_spec (S j)) as Hs1.
      assert (Hlate : (length series <= frame_start M E (S j) - 1)%nat) by nia.
      rewrite (lookup_ge_None_2 _ _ Hlate), Hsum. do 2 f_equal.
      rewrite !take_ge; [reflexivity | |]; rewrite length_drop; lia. }
    rewrite Hseg, Hdata, store_next by lia.
    replace (S j) with k by lia. rewrite Nat.sub_diag. cbn [replicate].
    apply app_nil_r.
Qed.

Hypothesis Hfl :
  F64.div (F64.of_Z (Z.of_nat (length series))) (F64.of_Z (Z.of_nat k)) = fl.

Lemma paa_row_segments :
  paa_row (Z.of_nat k) series = Ok (segment_mean M E series <$> seq 0 k).
Proof.
  unfold paa_row.
  replace (Z.of_nat k =? 0) with false by (symmetry; apply Z.eqb_neq; lia).
  rewrite Hfl, Nat2Z.id.
  destruct paa_loop_end as (st & -> & [(Hj & _ & Hdata)|(Hj & _ & Hdata)]);
    cbn [mbind result_bind]; rewrite Hj.
  - replace (Z.of_nat k =? Z.of_nat k - 1) with false
      by (symmetry; apply Z.eqb_neq; lia).
    rewrite Hdata. reflexivity.
  - replace (Z.of_nat (k - 1) =? Z.of_nat k - 1) with true
      by (symmetry; apply Z.eqb_eq; lia).
    unfold checked_div. cbn [F64.is_zero mbind result_bind].
    unfold paa_store. rewrite Hj in Hdata |- *.
    assert (Hlen : length (data st) = k).
    { apply (f_equal length) in Hdata.
      rewrite length_insert, length_fmap, length_seq in Hdata. exact Hdata. }
    rewrite decide_True by lia. rewrite Hdata. reflexivity.
Qed.


End Schedule.

(** The frame length of a row of [n] samples in [k] frames, [1 <= k <= n]:
    a binary64 number [M * 2^E] with a mantissa of 53 bits, within one unit
    in the last place of the quotient [n / k]. *)
Lemma frame_length_schedule (n k : Z) :
  1 <= k <= n -> n < 2 ^ 52 ->
  exists M E,
    F64.div (F64.of_Z n) (F64.of_Z k) = S754_finite false M E /\
    2 ^ 52 <= Zpos M < 2 ^ 53 /\ -52 <= E <= 0 /\
    n * 2 ^ (- E) < (k + 1) * Zpos M /\
    (k - 1) * Zpos M < n * 2 ^ (- E).
Proof.
  intros Hk Hn.
  destruct (div_ints n k Hk Hn) as (M & E & Hdiv & Hb & HM & HE & Herr).
  exists M, E. split; [exact Hdiv|]. split; [exact HM|].
  split; [exact HE|]. lia.
Qed.


(** ** Configurations *)

Lemma range_check_passes (lo hi v : Z) :
  lo <= v <= hi -> (v <? lo) || (v >? hi) = false.
Proof.
  intros H. apply orb_false_iff. rewrite Z.gtb_ltb. split; apply Z.ltb_ge; lia.
Qed.

Lemma range_check_fails (lo hi v : Z) :
  v < lo \/ v > hi -> (v <? lo) || (v >? hi) = true.
Proof.
  intros H. apply orb_true_iff. rewrite Z.gtb_ltb.
  destruct H; [left | right]; apply Z.ltb_lt; lia.
Qed.

(** The three alphabets that pass the check: their table has one breakpoint
    per symbol, the infinite one last, and the symbols fit the letters. *)
Lemma valid_alphabet (a : Z) :
  2 <= a <= 4 ->
  exists bps,
    breakpoint_table a = Some bps /\
    Z.of_nat (length bps) = a /\
    F64.inf ∈ bps /\
    Z.log2_up a mod 2 ^ 32 = Z.log2_up a /\
    1 <= Z.log2_up a <= 2 /\
    (a <> 3 -> 2 ^ Z.log2_up a = a).
Proof.
  intros Ha.
  assert (Hcases : a = 2 \/ a = 3 \/ a = 4) by lia.
  destruct Hcases as [-> | [-> | ->]]; eexists;
    (split; [reflexivity|]); cbn [length]; repeat split;
    try reflexivity; try (vm_compute; discriminate);
    try (intros H; first [reflexivity | contradiction]);
    repeat first [apply list_elem_of_here | apply list_elem_of_further].
Qed.

Lemma transform_tail_below (bound : Z) (self self' : SAX_FAST)
    (m : int_matrix) (out : output) :
  0 < bound <= 2 ^ 32 -> entries_below bound (rows m) ->
  transform_tail self m = (Ok out, self') ->
  forall i j, 0 <= output_get out i j < bound.
Proof.
  intros Hb Hm Htail i j. unfold transform_tail in Htail.
  injection Htail as Hout _. subst out.
  set (m' := if remove_repeat_words self then _ else m).
  assert (Hm' : entries_below bound (rows m')).
  { subst m'. destruct (remove_repeat_words self); [|exact Hm]. cbn.
    unfold _remove_repeating_words. apply Forall_fmap.
    eapply Forall_impl; [exact Hm|]. intros row Hrow. cbn.
    apply remove_repeating_row_Forall; [lia | exact Hrow]. }
  pose proof (entries_below_lookup bound (rows m') i j ltac:(lia) Hm') as Hij.
  destruct (return_pandas_data_series self); [exact Hij|].
  destruct (return_sparse self); [|exact Hij].
  cbn [output_get]. rewrite csr_get_of_dense. unfold to_uint32, get_item.
  rewrite Z.mod_small; [exact Hij | lia].
Qed.

(** In a valid configuration every word that the encoder produces is below
    [2 ^ (word_length * letter_bits)]. *)
Lemma valid_words_below (a wl : Z) (bps : list float) :
  2 <= a <= 4 -> 1 <= wl <= 16 -> breakpoint_table a = Some bps ->
  0 < 2 ^ (wl * Z.log2_up a) <= 2 ^ 32 /\
  forall pattern w,
    _generate_words pattern wl bps (Z.log2_up a) = Ok w ->
    0 <= w < 2 ^ (wl * Z.log2_up a).
Proof.
  intros Ha Hwl Htab.
  destruct (valid_alphabet a Ha) as (bps' & Htab' & Hlen & _ & _ & Hlb & _).
  rewrite Htab in Htab'. injection Htab' as <-.
  split.
  - split; [apply pow2_pos; nia | apply pow2_le_mono; nia].
  - intros pattern w Hw.
    eapply generate_words_range; [lia | lia | nia | | exact Hw].
    rewrite Hlen. destruct (Z.eq_dec a 1); [lia|].
    pose proof (Z.log2_up_spec a ltac:(lia)). lia.
Qed.

(** ** The claims *)

(** C2 (as amended).  For every input batch and every valid configuration
    ([alphabet_size] in 2..4, [word_length] in 1..16, [window_size] at most
    the series length), every entry of the output of [_transform], with or
    without repeat suppression and in each of its three forms, lies in
    [0, 2 ^ (word_length * letter_bits)), where
    [letter_bits = ceil(log2(alphabet_size))].  For the alphabets 2 and 4
    this bound is [alphabet_size ^ word_length]. *)
Theorem word_range (zscore : list float -> list float) (X : panel)
    (self self' : SAX_FAST) (out : output) :
  2 <= alphabet_size self <= 4 ->
  1 <= word_length self <= 16 ->
  window_size self <= Z.of_nat (series_length X) ->
  _transform zscore X self = (Ok out, self') ->
  let bits := word_length self * Z.log2_up (alphabet_size self) in
  (forall i j, 0 <= output_get out i j < 2 ^ bits) /\
  (alphabet_size self <> 3 ->
   2 ^ bits = alphabet_size self ^ word_length self).
Proof.
  intros Ha Hwl Hws Hrun bits.
  destruct (valid_alphabet _ Ha) as (bps & Htab & _ & _ & Hmod & Hlb & Hpow).
  destruct (valid_words_below _ _ bps Ha Hwl Htab) as [Hbound Hgen].
  split.
  - rewrite transform_run in Hrun. cbn zeta in Hrun.
    rewrite (range_check_passes 2 4), (range_check_passes 1 16) in Hrun
      by assumption.
    rewrite Htab, Hmod in Hrun.
    destruct (np_zeros _ _) as [zeros|e] eqn:Hzeros; [|discriminate].
    destruct (instances_loop _ _ _ _ _ _ _ _ _) as [m|e] eqn:Hloop;
      [|discriminate].
    eapply instances_loop_below in Hloop as [Hm _]; [|exact Hgen|].
    + eapply transform_tail_below; eassumption.
    + eapply np_zeros_below; [lia | exact Hzeros].
  - intros H3. subst bits. rewrite Z.mul_comm, Z.pow_mul_r by lia.
    rewrite Hpow by assumption. reflexivity.
Qed.

Lemma word_range_witness :
  (2 <= alphabet_size ramp_sax <= 4 /\
   1 <= word_length ramp_sax <= 16 /\
   window_size ramp_sax <= Z.of_nat (series_length ramp_panel)) /\
  (forall i j,
      0 <= output_get (Dense (mk_int_matrix 1 5 [[3; 3; 3; 3; 3]])) i j
        < 2 ^ (2 * Z.log2_up 4)) /\
  (4 <> 3 -> 2 ^ (2 * Z.log2_up 4) = 4 ^ 2).
Proof.
  assert (H : (2 <= alphabet_size ramp_sax <= 4 /\
               1 <= word_length ramp_sax <= 16 /\
               window_size ramp_sax <= Z.of_nat (series_length ramp_panel)))
    by (cbn; lia).
  split; [exact H|].
  destruct H as (Ha & Hwl & Hws).
  apply (word_range zscore_ref ramp_panel ramp_sax
           (snd (_transform zscore_ref ramp_panel ramp_sax))
           (Dense (mk_int_matrix 1 5 [[3; 3; 3; 3; 3]])) Ha Hwl Hws).
  vm_compute. reflexivity.
Defined.

(** C2, the claim as stated, fails: with three symbols a letter takes two
    bits, and the window [1, 1, -2] with [word_length = 3] has the symbols
    2, 2, 0, packed as 40, which is not below [3 ^ 3 = 27]. *)
Lemma word_range_counterexample :
  fst (_transform zscore_ref skew_panel skew_sax)
    = Ok (Dense (mk_int_matrix 1 1 [[40]])) /\
  ~ (0 <= output_get (Dense (mk_int_matrix 1 1 [[40]])) 0 0
       < alphabet_size skew_sax ^ word_length skew_sax).
Proof.
  split.
  - vm_compute. reflexivity.
  - cbn. lia.
Qed.

(** C1.  For every input batch and every valid configuration that does not
    ask for the tabular form, the call with [return_sparse = True] and the
    call with [return_sparse = False] end alike: both raise the same
    exception, or the first returns a sparse and the second a dense matrix
    of one shape whose entries are equal at every position. *)
Theorem dense_sparse_agree (zscore : list float -> list float) (X : panel)
    (self : SAX_FAST) :
  2 <= alphabet_size self <= 4 ->
  1 <= word_length self <= 16 ->
  window_size self <= Z.of_nat (series_length X) ->
  return_pandas_data_series self = false ->
  same_outcome
    (fun sparse dense =>
       match sparse, dense with
       | Sparse s, Dense d =>
           csr_nrows s = nrows d /\ csr_ncols s = ncols d /\
           forall i j, csr_get s i j = get_item d i j
       | _, _ => False
       end)
    (fst (_transform zscore X (with_return_sparse true self)))
    (fst (_transform zscore X (with_return_sparse false self))).
Proof.
  intros Ha Hwl Hws Hpandas.
  destruct (valid_alphabet _ Ha) as (bps & Htab & _ & _ & Hmod & Hlb & _).
  destruct (valid_words_below _ _ bps Ha Hwl Htab) as [Hbound Hgen].
  rewrite !transform_run.
  cbn [with_return_sparse alphabet_size word_length window_size]. cbn zeta.
  rewrite (range_check_passes 2 4), (range_check_passes 1 16) by assumption.
  rewrite Htab, Hmod.
  destruct (np_zeros _ _) as [zeros|e] eqn:Hzeros; [|reflexivity].
  destruct (instances_loop _ _ _ _ _ _ _ _ _) as [m|e] eqn:Hloop;
    [|reflexivity].
  eapply instances_loop_below in Hloop as [Hm _];
    [|exact Hgen | eapply np_zeros_below; [lia | exact Hzeros]].
  unfold transform_tail. cbn. rewrite Hpandas. cbn.
  repeat split. intros i j.
  pose proof (transform_tail_below _ (with_return_sparse false self)
                (snd (transform_tail (with_return_sparse false self) m)) m
                _ Hbound Hm eq_refl i j) as Hij.
  unfold transform_tail in Hij. cbn in Hij. rewrite Hpandas in Hij.
  cbn in Hij. rewrite csr_get_of_dense. unfold to_uint32.
  rewrite Z.mod_small; [reflexivity | lia].
Qed.

Lemma dense_sparse_agree_witness :
  (2 <= alphabet_size ramp_sax <= 4 /\
   1 <= word_length ramp_sax <= 16 /\
   window_size ramp_sax <= Z.of_nat (series_length ramp_panel) /\
   return_pandas_data_series ramp_sax = false) /\
  forall i j,
    csr_get (csr_of_dense (mk_int_matrix 1 5 [[3; 3; 3; 3; 3]])) i j =
    get_item (mk_int_matrix 1 5 [[3; 3; 3; 3; 3]]) i j.
Proof.
  assert (H : (2 <= alphabet_size ramp_sax <= 4 /\
               1 <= word_length ramp_sax <= 16 /\
               window_size ramp_sax <= Z.of_nat (series_length ramp_panel) /\
               return_pandas_data_series ramp_sax = false))
    by (cbn; repeat split; lia).
  split; [exact H|].
  destruct H as (Ha & Hwl & Hws & Hpandas).
  pose proof (dense_sparse_agree zscore_ref ramp_panel ramp_sax
                Ha Hwl Hws Hpandas) as Hagree.
  vm_compute in Hagree. destruct Hagree as (_ & _ & Hagree).
  exact Hagree.
Defined.

(** Without windows the loop over the instances stores nothing. *)
Lemma instances_loop_no_windows (zscore : list float -> list float)
    (X : list (list float)) (ws wl : Z) (bps : list float) (lb : Z)
    (i : nat) (m : int_matrix) :
  0 <= wl ->
  instances_loop zscore X ws 0 wl bps lb i m = Ok m.
Proof.
  intros Hwl. revert i. induction X as [|s rest IH]; intros i; cbn.
  - reflexivity.
  - unfold _perform_paa_along_dim.
    destruct (wl <? 0) eqn:Hneg; [apply Z.ltb_lt in Hneg; lia|].
    cbn. apply IH.
Qed.

(** C5 (as amended).  In a valid configuration whose [window_size] exceeds
    the series length by two or more, [_transform] fails on every input
    batch: the allocation of the word matrix raises [ValueError] for its
    negative dimension, nothing is returned and the transformer is left as
    it was.  When [window_size] is the series length plus one, no exception
    is raised and the output has one row per instance and no column. *)
Theorem oversized_window (zscore : list float -> list float) (X : panel)
    (self : SAX_FAST) :
  2 <= alphabet_size self <= 4 ->
  1 <= word_length self <= 16 ->
  (window_size self > Z.of_nat (series_length X) + 1 ->
   _transform zscore X self =
   (Raise (ValueError "negative dimensions are not allowed"), self)) /\
  (window_size self = Z.of_nat (series_length X) + 1 ->
   fst (_transform zscore X self) = Ok (empty_output self (n_instances X))).
Proof.
  intros Ha Hwl.
  destruct (valid_alphabet _ Ha) as (bps & Htab & _ & _ & Hmod & _ & _).
  rewrite transform_run. cbn zeta.
  rewrite (range_check_passes 2 4), (range_check_passes 1 16) by assumption.
  rewrite Htab, Hmod. unfold np_zeros. split; intros Hws.
  - destruct (_ <? 0) eqn:Hneg; [reflexivity|].
    apply Z.ltb_ge in Hneg. lia.
  - replace (Z.of_nat (series_length X) - window_size self + 1) with 0 by lia.
    cbn [Z.ltb Z.compare Z.to_nat].
    rewrite instances_loop_no_windows by lia.
    unfold transform_tail, empty_output, csr_of_dense, _remove_repeating_words.
    cbn.
    destruct (remove_repeat_words self), (save_words self),
      (return_pandas_data_series self), (return_sparse self); cbn;
      rewrite ?fmap_replicate; reflexivity.
Qed.

Lemma oversized_window_witness :
  (2 <= alphabet_size (wide_sax 5) <= 4 /\
   1 <= word_length (wide_sax 5) <= 16 /\
   window_size (wide_sax 5) > Z.of_nat (series_length short_panel) + 1 /\
   window_size (wide_sax 4) = Z.of_nat (series_length short_panel) + 1) /\
  _transform zscore_ref short_panel (wide_sax 5) =
    (Raise (ValueError "negative dimensions are not allowed"), wide_sax 5) /\
  fst (_transform zscore_ref short_panel (wide_sax 4)) =
    Ok (empty_output (wide_sax 4) 2).
Proof.
  assert (H : 2 <= alphabet_size (wide_sax 5) <= 4 /\
              1 <= word_length (wide_sax 5) <= 16 /\
              window_size (wide_sax 5)
                > Z.of_nat (series_length short_panel) + 1 /\
              window_size (wide_sax 4)
                = Z.of_nat (series_length short_panel) + 1)
    by (cbn; repeat split; lia).
  split; [exact H|].
  destruct H as (Ha & Hwl & Hws5 & Hws4).
  split.
  - exact (proj1 (oversized_window zscore_ref short_panel (wide_sax 5) Ha Hwl)
             Hws5).
  - exact (proj2 (oversized_window zscore_ref short_panel (wide_sax 4) Ha Hwl)
             Hws4).
Defined.

(** C5, the claim as stated, fails: a window one sample longer than the
    series raises nothing, and a matrix of two rows and no column is
    returned. *)
Lemma oversized_window_counterexample :
  window_size (wide_sax 4) > Z.of_nat (series_length short_panel) /\
  _transform zscore_ref short_panel (wide_sax 4) =
    (Ok (Dense (mk_int_matrix 2 0 [[]; []])),
     snd (set_letter_bits 2 (wide_sax 4))).
Proof.
  split.
  - cbn. lia.
  - vm_compute. reflexivity.
Qed.

(** C9.  When [alphabet_size] is outside 2..4 or [word_length] is outside
    1..16, [_transform] raises a [RuntimeError] whose message is fixed by
    the configuration alone, whatever the input batch: it is the error of
    the two checks, not one of the table lookup, of the allocation or of a
    later stage; no output is returned, and the transformer, its [words] and
    [letter_bits] included, is left as it was. *)
Theorem invalid_configuration (self : SAX_FAST) :
  alphabet_size self < 2 \/ alphabet_size self > 4 \/
  word_length self < 1 \/ word_length self > 16 ->
  exists msg,
    forall (zscore : list float -> list float) (X : panel),
      _transform zscore X self = (Raise (RuntimeError msg), self).
Proof.
  intros Hbad.
  destruct ((alphabet_size self <? 2) || (alphabet_size self >? 4)) eqn:Ha.
  - eexists. intros zscore X. rewrite transform_run. cbn zeta.
    rewrite Ha. reflexivity.
  - assert (Hwl : (word_length self <? 1) || (word_length self >? 16) = true).
    { apply range_check_fails.
      apply orb_false_iff in Ha as [Hlo Hhi].
      apply Z.ltb_ge in Hlo. rewrite Z.gtb_ltb in Hhi. apply Z.ltb_ge in Hhi.
      lia. }
    eexists. intros zscore X. rewrite transform_run. cbn zeta.
    rewrite Ha, Hwl. reflexivity.
Qed.

Lemma invalid_configuration_witness :
  (alphabet_size bad_sax < 2 \/ alphabet_size bad_sax > 4 \/
   word_length bad_sax < 1 \/ word_length bad_sax > 16) /\
  exists msg,
    forall (zscore : list float -> list float) (X : panel),
      _transform zscore X bad_sax = (Raise (RuntimeError msg), bad_sax).
Proof.
  assert (H : alphabet_size bad_sax < 2 \/ alphabet_size bad_sax > 4 \/
              word_length bad_sax < 1 \/ word_length bad_sax > 16)
    by (right; left; cbn; lia).
  split; [exact H|].
  exact (invalid_configuration bad_sax H).
Defined.

(** C3: the code at the row [5, 5, 5].  The second word is replaced by 0;
    the third is compared with that 0, not with the 5 before it, and is
    kept. *)
Theorem remove_repeating_words_run_of_three :
  _remove_repeating_words [[5; 5; 5]] = [[5; 0; 5]].
Proof. reflexivity. Qed.

(** C8.  A second pass of the suppression over a matrix changes nothing, and
    after one pass no row holds a word other than 0 twice in a row. *)
Theorem suppression_idempotent (words : list (list Z)) :
  _remove_repeating_words (_remove_repeating_words words) =
  _remove_repeating_words words /\
  Forall no_adjacent_repeat (_remove_repeating_words words).
Proof.
  unfold _remove_repeating_words. split.
  - rewrite <- list_fmap_compose. apply list_fmap_ext.
    intros i row _. cbn. apply remove_repeating_row_idem.
  - apply Forall_fmap, Forall_true. intros row. cbn.
    apply remove_repeating_row_no_repeat.
Qed.

(** C7.  For an alphabet of at least two symbols and a sequence of symbol
    indices below [alphabet_size] whose letters stay below the sign bit of
    the word (as they do for every checked configuration, which has at most
    32 bits), shifting right and masking the packed word gives the sequence
    back; so two such sequences of one length with the same word are
    equal. *)
Theorem pack_roundtrip (a : Z) (symbols : list Z) :
  2 <= a ->
  Forall (fun s => 0 <= s < a) symbols ->
  Z.of_nat (length symbols) * Z.log2_up a <= 63 ->
  let lb := Z.log2_up a in
  unpack_symbols lb (length symbols) (pack_symbols lb symbols) = symbols /\
  forall symbols',
    Forall (fun s => 0 <= s < a) symbols' ->
    length symbols' = length symbols ->
    pack_symbols lb symbols' = pack_symbols lb symbols ->
    symbols' = symbols.
Proof.
  intros Ha Hsyms Hbits lb.
  assert (Hlb : 0 <= lb) by apply Z.log2_up_nonneg.
  assert (Hfit : forall l, Forall (fun s => 0 <= s < a) l -> letters_below lb l).
  { intros l Hl. eapply Forall_impl; [exact Hl|].
    intros s Hs. cbn. apply alphabet_fits; [lia | exact Hs]. }
  split.
  - apply unpack_pack_symbols; auto.
  - intros symbols' Hsyms' Hlen Hpack.
    rewrite <- (unpack_pack_symbols lb symbols') by (rewrite ?Hlen; auto).
    rewrite Hlen, Hpack. apply unpack_pack_symbols; auto.
Qed.

Lemma pack_roundtrip_witness :
  (2 <= 4 /\ Forall (fun s => 0 <= s < 4) [3; 0; 2; 1] /\
   Z.of_nat (length [3; 0; 2; 1]) * Z.log2_up 4 <= 63) /\
  unpack_symbols 2 4 (pack_symbols 2 [3; 0; 2; 1]) = [3; 0; 2; 1].
Proof.
  assert (H : 2 <= 4 /\ Forall (fun s => 0 <= s < 4) [3; 0; 2; 1] /\
              Z.of_nat (length [3; 0; 2; 1]) * Z.log2_up 4 <= 63).
  { split; [lia|]. split; [|vm_compute; discriminate].
    repeat constructor; lia. }
  split; [exact H|].
  destruct H as (Ha & Hsyms & Hbits).
  exact (proj1 (pack_roundtrip 4 [3; 0; 2; 1] Ha Hsyms Hbits)).
Defined.

(** ** The segments of a window *)

(** C6.  For a window of [n] samples, [n < 2^52], and [1 <= k <= n], the PAA
    stage returns [k] values, slot [j] holding the value of frame [j]: the
    weighted sum of the span of samples of that frame, divided by the frame
    length.  The frame length is a binary64 number [M * 2^E]; the frames
    follow each other in time.  The loop stores all [k] values, or it ends
    one frame short, and then the statement after the loop stores the
    accumulated [frame_sum / frame_length] in the last slot; the loop ends
    short when [k] frames are longer than the window, which is when the frame
    length is the quotient [n / k] rounded up.  No slot keeps its initial
    zero unwritten. *)
Theorem paa_emits_segments (k : Z) (series : list float) :
  1 <= k <= Z.of_nat (length series) ->
  Z.of_nat (length series) < 2 ^ 52 ->
  let n := Z.of_nat (length series) in
  let frame_length := F64.div (F64.of_Z n) (F64.of_Z k) in
  paa_row k series = Ok (paa_segments k series) /\
  length (paa_segments k series) = Z.to_nat k /\
  exists M E st,
    frame_length = S754_finite false M E /\
    paa_segments k series = segment_mean M E series <$> seq 0 (Z.to_nat k) /\
    (forall j, (frame_start M E j < frame_start M E (S j))%nat) /\
    paa_loop frame_length series
      (mk_paa_state 0 F64.zero F64.zero (replicate (Z.to_nat k) F64.zero))
      = Ok st /\
    ((current_frame st = Z.to_nat k /\
      k * Zpos M <= n * 2 ^ (- E) /\
      data st = paa_segments k series) \/
     (current_frame st = (Z.to_nat k - 1)%nat /\
      n * 2 ^ (- E) < k * Zpos M /\
      <[current_frame st := F64.div (frame_sum st) frame_length]> (data st)
        = paa_segments k series)).
Proof.
  intros Hk Hn n fl.
  destruct (frame_length_schedule n k Hk Hn)
    as (M & E & Hfl & HM & HE & Hupper & Hlower).
  assert (Hkn : Z.of_nat (Z.to_nat k) = k) by lia.
  assert (Hseg :
    paa_segments k series = segment_mean M E series <$> seq 0 (Z.to_nat k)).
  { unfold paa_segments. fold n. rewrite Hfl. reflexivity. }
  split; [|split].
  - rewrite Hseg, <- Hkn at 1.
    apply paa_row_segments; rewrite ?Hkn; try assumption; lia.
  - rewrite Hseg, length_fmap, length_seq. reflexivity.
  - destruct (paa_loop_end M E HM HE series (Z.to_nat k))
      as (st & Hloop & Hend); rewrite ?Hkn; try assumption; try lia.
    exists M, E, st. split; [exact Hfl|]. split; [exact Hseg|].
    split; [intros j; apply frame_start_lt; assumption|].
    subst fl. rewrite Hfl, Hseg. split; [exact Hloop|].
    rewrite Hkn in Hend. exact Hend.
Qed.

Lemma paa_emits_segments_witness :
  (1 <= 3 <= Z.of_nat (length (to_floats [1; 2; 3; 4; 5])) /\
   Z.of_nat (length (to_floats [1; 2; 3; 4; 5])) < 2 ^ 52) /\
  paa_row 3 (to_floats [1; 2; 3; 4; 5])
    = Ok (paa_segments 3 (to_floats [1; 2; 3; 4; 5])) /\
  length (paa_segments 3 (to_floats [1; 2; 3; 4; 5])) = Z.to_nat 3.
Proof.
  assert (H : 1 <= 3 <= Z.of_nat (length (to_floats [1; 2; 3; 4; 5])) /\
              Z.of_nat (length (to_floats [1; 2; 3; 4; 5])) < 2 ^ 52).
  { split; [split|]; vm_compute; congruence. }
  split; [exact H|].
  destruct H as (Hk & Hn).
  pose proof (paa_emits_segments 3 (to_floats [1; 2; 3; 4; 5]) Hk Hn)
    as (Hrow & Hlen & _).
  split; [exact Hrow | exact Hlen].
Defined.

(** ** Segments that are not numbers *)



Lemma push_symbol_zero (lb : Z) : push_symbol lb 0 0 = 0.
Proof. unfold push_symbol. rewrite Z.shiftl_0_l. reflexivity. Qed.

Lemma pack_symbols_leading_zeros (lb : Z) (n : nat) (symbols : list Z) :
  pack_symbols lb (replicate n 0 ++ symbols) = pack_symbols lb symbols.
Proof.
  unfold pack_symbols. rewrite fold_left_app. f_equal.
  induction n as [|n IH]; cbn; [reflexivity|].
  rewrite push_symbol_zero. exact IH.
Qed.



(** ** The compiled comparison *)


Lemma leb_fastmath_number (unordered : bool) (x b : float) :
  F64.is_nan x = false -> F64.is_nan b = false ->
  leb_fastmath unordered x b = F64.leb x b.
Proof. intros Hx Hb. unfold leb_fastmath. rewrite Hx, Hb. reflexivity. Qed.


Lemma first_breakpoint_fastmath_number (unordered : bool) (x : float)
    (bps : list float) (k : Z) :
  F64.is_nan x = false -> Forall is_number bps ->
  first_breakpoint_fastmath unordered x bps k = first_breakpoint x bps k.
Proof.
  intros Hx Hbps. revert k.
  induction Hbps as [|b bps Hb _ IH]; intros k; [reflexivity|].
  cbn. rewrite (leb_fastmath_number unordered x b Hx Hb), IH. reflexivity.
Qed.











(** ** Windows without variance *)


Lemma unpack_symbols_zero (lb : Z) (n : nat) :
  unpack_symbols lb n 0 = replicate n 0.
Proof.
  induction n as [|n IH]; [reflexivity|].
  cbn [unpack_symbols]. rewrite Z.shiftr_0_l, IH, Z.land_0_l.
  rewrite <- replicate_cons_app. reflexivity.
Qed.



(** ** Runs of the whole transform *)

(** The scenario of the specification: the window [10, 10, 10, 10] is
    turned into not-a-number values, its two PAA segments as well, and the
    two windows without variance have the word 0. *)
Example flat_window_nan :
  zscore_ref flat_window = replicate 4 F64.nan /\
  paa_row 2 (zscore_ref flat_window) = Ok [F64.nan; F64.nan].
Proof. split; vm_compute; reflexivity. Qed.

(** A constant window whose rounded mean differs from its samples: three
    times 0.1 sum to more than 0.3, and the scores are not numbers all the
    same. *)
Example constant_window_nan :
  F64.eqb (fmean (replicate 3 (F64.centi 10))) (F64.centi 10) = false /\
  zscore_ref (replicate 3 (F64.centi 10)) = replicate 3 F64.nan.
Proof. split; vm_compute; reflexivity. Qed.

Example transform_step_series :
  fst (_transform zscore_ref
         (mk_panel 1 8 [to_floats [0; 0; 0; 0; 10; 10; 10; 10]]) ramp_sax)
  = Ok (Dense (mk_int_matrix 1 5 [[0; 6; 3; 6; 0]])).
Proof. vm_compute. reflexivity. Qed.

Example transform_ramp :
  fst (_transform zscore_ref ramp_panel ramp_sax)
  = Ok (Dense (mk_int_matrix 1 5 [[3; 3; 3; 3; 3]])).
Proof. vm_compute. reflexivity. Qed.

(** Five samples in three frames: the last frame fails the test of the loop
    and is stored by the statement after it; the segments are 1.4, 3 and
    4.6. *)
Example paa_flush :
  fmap current_frame
    (paa_loop (F64.div (F64.of_Z 5) (F64.of_Z 3)) (to_floats [1; 2; 3; 4; 5])
       (mk_paa_state 0 F64.zero F64.zero (replicate 3 F64.zero)))
  = Ok 2%nat /\
  paa_row 3 (to_floats [1; 2; 3; 4; 5]) =
  Ok [S754_finite false 6305039478318695 (-52);
      S754_finite false 6755399441055744 (-51);
      S754_finite false 5179139571476070 (-50)].
Proof. split; vm_compute; reflexivity. Qed.

(** * Further properties *)

(** ** Suppression of repeated words *)

Lemma remove_repeating_row_head (last : Z) (row : list Z) :
  head (remove_repeating_row last row) = head row \/
  head (remove_repeating_row last row) = Some 0.
Proof. destruct row as [|w row]; cbn; [auto|]. destruct (last =? w); auto. Qed.

Lemma remove_repeating_row_kept (last : Z) (row : list Z) (j : nat) (w : Z) :
  row !! j = Some w ->
  remove_repeating_row last row !! j = Some w \/
  remove_repeating_row last row !! j = Some 0.
Proof.
  intros Hj. pose proof (remove_repeating_row_lookup last row j w Hj) as H.
  cbn zeta in H. rewrite H. destruct (_ =? w); auto.
Qed.

Lemma remove_repeating_row_first (row : list Z) :
  remove_repeating_row 0 row !! 0%nat = row !! 0%nat.
Proof.
  destruct row as [|w row]; cbn; [reflexivity|].
  destruct w; reflexivity.
Qed.

Lemma no_adjacent_repeat_cons (last w : Z) (rest : list Z) :
  no_adjacent_repeat (last :: w :: rest) <->
  (last = w -> w = 0) /\ no_adjacent_repeat (w :: rest).
Proof.
  split.
  - intros H. split.
    + intros ->. apply (H 0%nat w); reflexivity.
    + intros j x Hj HSj. apply (H (S j) x); assumption.
  - intros [Hw H] [|j] x Hj HSj; cbn in Hj, HSj.
    + injection Hj as ->. injection HSj as ->. apply Hw. reflexivity.
    + apply (H j x); assumption.
Qed.

Lemma remove_repeating_row_fixed (last : Z) (row : list Z) :
  remove_repeating_row last row = row <-> no_adjacent_repeat (last :: row).
Proof.
  revert last. induction row as [|w rest IH]; intros last.
  - split; [|reflexivity]. intros _ [|j] x Hj HSj; discriminate.
  - rewrite no_adjacent_repeat_cons, <- IH. cbn.
    destruct (Z.eqb_spec last w) as [->|Hne]; split.
    + intros [= H0 Hrest]. subst w. split; [reflexivity|].
      exact Hrest.
    + intros [Hw Hrest]. rewrite (Hw eq_refl) in *. rewrite Hrest. reflexivity.
    + intros [= Hrest]. split; [congruence | exact Hrest].
    + intros [_ Hrest]. rewrite Hrest. reflexivity.
Qed.

Lemma no_adjacent_repeat_zero (row : list Z) :
  no_adjacent_repeat (0 :: row) <-> no_adjacent_repeat row.
Proof.
  destruct row as [|w rest].
  - split; intros _ [|[|j]] x Hj HSj; discriminate.
  - rewrite no_adjacent_repeat_cons. split; [tauto|]. intros H. split; auto.
Qed.

(** A run of [n] words [w], not zero: the pass keeps every other one, from
    the first on when the word before the run differs from [w], and from the
    second on when it is [w] itself. *)
Lemma remove_repeating_row_run (last w : Z) (n : nat) (rest : list Z) (j : nat) :
  w <> 0 -> (j < n)%nat ->
  remove_repeating_row last (replicate n w ++ rest) !! j =
  Some (if Bool.eqb (Nat.even j) (negb (last =? w)) then w else 0).
Proof.
  intros Hw. revert last j. induction n as [|n IH]; intros last j Hj; [lia|].
  cbn [replicate app remove_repeating_row].
  destruct j as [|j]; cbn [lookup list_lookup].
  - cbn. destruct (last =? w); reflexivity.
  - rewrite IH by lia. rewrite Nat.even_succ, <- Nat.negb_even.
    destruct (Z.eqb_spec last w) as [->|Hne].
    + replace (0 =? w) with false by (symmetry; apply Z.eqb_neq; lia).
      destruct (Nat.even j); reflexivity.
    + rewrite Z.eqb_refl. destruct (Nat.even j); reflexivity.
Qed.

Lemma remove_repeating_row_app (lw : Z) (pre l : list Z) :
  remove_repeating_row lw (pre ++ l) =
  remove_repeating_row lw pre ++
  remove_repeating_row (default lw (last (remove_repeating_row lw pre))) l.
Proof.
  revert lw. induction pre as [|v pre IH]; intros lw; [reflexivity|].
  cbn [app remove_repeating_row]. rewrite IH. f_equal. f_equal.
  rewrite last_cons. destruct (last _); reflexivity.
Qed.

(** The word a pass leaves last is the last word of the row, or zero. *)
Lemma remove_repeating_row_last (lw : Z) (row : list Z) :
  last (remove_repeating_row lw row) = last row \/
  last (remove_repeating_row lw row) = Some 0 /\ row <> [].
Proof.
  revert lw. induction row as [|v row IH]; intros lw; [left; reflexivity|].
  cbn [remove_repeating_row]. rewrite !last_cons.
  destruct (IH (if lw =? v then 0 else v)) as [->|[-> Hne]].
  - destruct (last row); [left; reflexivity|].
    destruct (lw =? v); [right | left]; easy.
  - right. easy.
Qed.

(** X14.  Suppression only writes zeros: the matrix keeps its shape, every
    entry of the result is the entry of the input or zero, and the first entry
    of every row is kept. *)
Theorem suppression_only_zeroes (words : list (list Z)) :
  Forall2
    (fun row out =>
       length out = length row /\
       out !! 0%nat = row !! 0%nat /\
       forall j w, row !! j = Some w -> out !! j = Some w \/ out !! j = Some 0)
    words (_remove_repeating_words words).
Proof.
  unfold _remove_repeating_words.
  induction words as [|row words IH]; cbn; constructor; [|exact IH].
  split; [apply remove_repeating_row_length|].
  split; [apply remove_repeating_row_first|].
  intros j w. apply remove_repeating_row_kept.
Qed.

(** X15.  Suppression leaves a matrix as it is exactly when no row has a
    word that is not zero directly after itself. *)
Theorem suppression_fixed_points (words : list (list Z)) :
  _remove_repeating_words words = words <-> Forall no_adjacent_repeat words.
Proof.
  unfold _remove_repeating_words.
  induction words as [|row words IH]; cbn.
  - split; [constructor | reflexivity].
  - rewrite Forall_cons, <- IH, <- no_adjacent_repeat_zero,
      <- remove_repeating_row_fixed.
    split; [intros [= H1 H2] | intros [H1 H2]]; [split | f_equal]; assumption.
Qed.

(** X16.  A run of [n] equal words [w], not zero, that starts a row or
    follows a different word: suppression keeps the first, third, fifth, ...
    word of the run and writes zero at the second, fourth, ... . *)
Theorem suppression_of_run (words : list (list Z)) (i : nat)
    (pre rest : list Z) (w : Z) (n : nat) :
  w <> 0 -> last pre <> Some w ->
  words !! i = Some (pre ++ replicate n w ++ rest) ->
  exists out,
    _remove_repeating_words words !! i = Some out /\
    forall j, (j < n)%nat ->
      out !! (length pre + j)%nat = Some (if Nat.even j then w else 0).
Proof.
  intros Hw Hpre Hi. unfold _remove_repeating_words.
  rewrite list_lookup_fmap, Hi. cbn. eexists. split; [reflexivity|].
  intros j Hj. rewrite remove_repeating_row_app.
  rewrite lookup_app_r by (rewrite remove_repeating_row_length; lia).
  rewrite remove_repeating_row_length.
  replace (length pre + j - length pre)%nat with j by lia.
  rewrite remove_repeating_row_run by assumption.
  set (lw := default 0 _).
  assert (Hlw : lw <> w).
  { subst lw. destruct (remove_repeating_row_last 0 pre) as [->|[-> _]].
    - destruct (last pre) as [v|]; cbn; congruence.
    - cbn. congruence. }
  replace (lw =? w) with false by (symmetry; apply Z.eqb_neq; exact Hlw).
  destruct (Nat.even j); reflexivity.
Qed.

Lemma suppression_of_run_witness :
  (5 <> 0 /\ last [7] <> Some 5 /\
   [[7; 5; 5; 5; 5; 2]] !! 0%nat = Some ([7] ++ replicate 4 5 ++ [2])) /\
  exists out,
    _remove_repeating_words [[7; 5; 5; 5; 5; 2]] !! 0%nat = Some out /\
    forall j, (j < 4)%nat ->
      out !! (length [7] + j)%nat = Some (if Nat.even j then 5 else 0).
Proof.
  assert (H : 5 <> 0 /\ last [7] <> Some 5 /\
    [[7; 5; 5; 5; 5; 2]] !! 0%nat = Some ([7] ++ replicate 4 5 ++ [2])).
  { split; [lia|]. split; [cbn; congruence | reflexivity]. }
  split; [exact H|]. destruct H as (Hw & Hpre & Hi).
  exact (suppression_of_run _ 0 [7] [2] 5 4 Hw Hpre Hi).
Defined.

(** ** The order of binary64 numbers and the scan *)

Ltac order_cases :=
  repeat match goal with
  | |- context [Z.compare ?a ?b] => destruct (Z.compare_spec a b)
  | H : context [Z.compare ?a ?b] |- _ => destruct (Z.compare_spec a b)
  | |- context [Pos.compare ?a ?b] => destruct (Pos.compare_spec a b)
  | H : context [Pos.compare ?a ?b] |- _ => destruct (Pos.compare_spec a b)
  end.

Lemma compare_antisym (x y : float) :
  SFcompare y x = option_map CompOpp (SFcompare x y).
Proof.
  destruct x as [sx|sx| |sx mx ex], y as [sy|sy| |sy my ey]; cbn;
    try reflexivity;
    try (destruct sx; reflexivity); try (destruct sy; reflexivity);
    try (destruct sx, sy; reflexivity).
  change (Pos.compare_cont Eq my mx) with (Pos.compare my mx).
  change (Pos.compare_cont Eq mx my) with (Pos.compare mx my).
  f_equal. destruct sx, sy; try reflexivity;
    order_cases; cbn; try reflexivity; try lia.
Qed.

Lemma leb_trans (x y z : float) :
  F64.leb x y = true -> F64.leb y z = true -> F64.leb x z = true.
Proof.
  unfold F64.leb, SFleb.
  destruct x as [sx|sx| |sx mx ex], y as [sy|sy| |sy my ey],
    z as [sz|sz| |sz mz ez]; cbn; try discriminate; try reflexivity;
    try (destruct sx; discriminate || reflexivity);
    try (destruct sy; discriminate || reflexivity);
    try (destruct sz; discriminate || reflexivity);
    try (destruct sx, sy; discriminate || reflexivity);
    try (destruct sx, sz; discriminate || reflexivity);
    try (destruct sy, sz; discriminate || reflexivity);
    try (destruct sx, sy, sz; discriminate || reflexivity).
  all: change (Pos.compare_cont Eq mx my) with (Pos.compare mx my);
    change (Pos.compare_cont Eq my mz) with (Pos.compare my mz);
    change (Pos.compare_cont Eq mx mz) with (Pos.compare mx mz).
  all: destruct sx, sy, sz; try discriminate; try reflexivity;
    intros H1 H2; order_cases; cbn in *; try reflexivity; try discriminate;
    try lia.
Qed.

(** Of two numbers one is at most the other. *)
Lemma leb_total (x y : float) :
  F64.is_nan x = false -> F64.is_nan y = false ->
  F64.leb x y = false -> F64.gtb x y = true.
Proof.
  unfold F64.leb, F64.gtb, SFleb, SFltb. intros Hx Hy.
  rewrite (compare_antisym x y).
  destruct (SFcompare x y) as [[| |]|] eqn:Hc; cbn; try discriminate;
    try reflexivity.
  destruct x, y; cbn in *; discriminate.
Qed.

Lemma gtb_not_leb (x y : float) : F64.gtb x y = true -> F64.leb x y = false.
Proof.
  unfold F64.leb, F64.gtb, SFleb, SFltb.
  rewrite (compare_antisym x y).
  destruct (SFcompare x y) as [[| |]|]; cbn; congruence.
Qed.

Lemma gtb_leb (x y : float) : F64.gtb y x = true -> F64.leb x y = true.
Proof.
  unfold F64.leb, F64.gtb, SFleb, SFltb.
  destruct (SFcompare x y) as [[| |]|]; cbn; congruence.
Qed.

Lemma leb_number (x y : float) :
  F64.leb x y = true -> F64.is_nan x = false /\ F64.is_nan y = false.
Proof. destruct x, y; cbn; try discriminate; auto. Qed.

(** The scan is monotone: a smaller value leaves the scan no later. *)
Lemma first_breakpoint_mono (x y : float) (bps : list float) (k sy : Z) :
  F64.leb x y = true ->
  first_breakpoint y bps k = Some sy ->
  exists sx, first_breakpoint x bps k = Some sx /\ sx <= sy.
Proof.
  intros Hxy. revert k.
  induction bps as [|b rest IH]; intros k Hy; cbn in *; [discriminate|].
  destruct (F64.leb y b) eqn:Hyb.
  - injection Hy as <-. rewrite (leb_trans x y b Hxy Hyb).
    exists k. split; [reflexivity | lia].
  - destruct (F64.leb x b).
    + apply first_breakpoint_range in Hy. exists k. split; [reflexivity | lia].
    + apply IH, Hy.
Qed.

Lemma fold_push_mono (lb : Z) (l l' : list Z) :
  0 <= lb -> Forall2 Z.le l l' ->
  letters_below lb l -> letters_below lb l' ->
  forall w w' b,
    0 <= b -> 0 <= w <= w' -> w' < 2 ^ b ->
    b + Z.of_nat (length l) * lb <= 63 ->
    fold_left (push_symbol lb) l w <= fold_left (push_symbol lb) l' w'.
Proof.
  intros Hlb Hll. induction Hll as [|s s' l l' Hs Hll IH];
    intros Hl Hl' w w' b Hb Hw Hw' Hbits; cbn; [lia|].
  apply Forall_cons in Hl as [Hs0 Hl], Hl' as [Hs0' Hl'].
  cbn [length] in Hbits.
  assert (Hp : 0 <= Z.of_nat (length l) * lb) by lia.
  destruct (push_symbol_spec lb b w s) as [Hv Hr]; try lia.
  destruct (push_symbol_spec lb b w' s') as [Hv' Hr']; try lia.
  apply (IH Hl Hl' _ _ (b + lb)); try lia.
  rewrite Hv, Hv'. split; [lia|].
  assert (0 < 2 ^ lb) by (apply pow2_pos; lia). nia.
Qed.

Lemma symbols_mono (bps : list float) (l l' : list float) :
  F64.inf ∈ bps ->
  Forall2 (fun x y => F64.leb x y = true) l l' ->
  Forall2 Z.le (omap (fun x => first_breakpoint x bps 0) l)
               (omap (fun x => first_breakpoint x bps 0) l').
Proof.
  intros Hinf Hll. induction Hll as [|x y l l' Hxy Hll IH]; cbn; [constructor|].
  destruct (leb_number x y Hxy) as [_ Hy].
  destruct (first_breakpoint_number y bps 0 Hy Hinf) as [sy Hsy].
  destruct (first_breakpoint_mono x y bps 0 sy Hxy Hsy) as (sx & Hsx & Hle).
  rewrite Hsx, Hsy. constructor; assumption.
Qed.

(** X10.  The encoder keeps the order: when every segment of a pattern is
    at most the segment of another pattern at the same place, its word is at
    most the other word. *)
Theorem words_monotone (p q : list float) (wl : Z) (bps : list float) (lb : Z) :
  0 <= lb -> 0 <= wl -> wl * lb <= 63 ->
  Z.of_nat (length bps) <= 2 ^ lb -> F64.inf ∈ bps ->
  (Z.to_nat wl <= length p)%nat ->
  Forall2 (fun x y => F64.leb x y = true) p q ->
  exists wp wq,
    _generate_words p wl bps lb = Ok wp /\
    _generate_words q wl bps lb = Ok wq /\
    wp <= wq.
Proof.
  intros Hlb Hwl Hbits Hbps Hinf Hlen Hpq.
  pose proof (Forall2_length _ _ _ Hpq) as Hlenq.
  rewrite !generate_words_pack by lia.
  eexists _, _. split; [reflexivity|]. split; [reflexivity|].
  unfold pack_symbols.
  apply (fold_push_mono lb _ _ Hlb) with (b := 0); try lia.
  - apply symbols_mono; [assumption|]. apply Forall2_take, Hpq.
  - apply symbols_below, Hbps.
  - apply symbols_below, Hbps.
  - pose proof (length_omap_le (fun x => first_breakpoint x bps 0)
                  (take (Z.to_nat wl) p)) as Hle.
    rewrite length_take in Hle. nia.
Qed.

(** ** Ascending thresholds *)

Lemma leb_refl (x : float) : F64.is_nan x = false -> F64.leb x x = true.
Proof.
  intros Hx. destruct (F64.leb x x) eqn:Hxx; [reflexivity|].
  pose proof (leb_total x x Hx Hx Hxx) as Hg.
  apply gtb_leb in Hg. congruence.
Qed.

Lemma gtb_number (x y : float) :
  F64.gtb x y = true -> F64.is_nan x = false /\ F64.is_nan y = false.
Proof. destruct x, y; cbn; try discriminate; auto. Qed.

Lemma gtb_trans (x y z : float) :
  F64.gtb y x = true -> F64.gtb z y = true -> F64.gtb z x = true.
Proof.
  intros Hxy Hyz.
  destruct (gtb_number _ _ Hxy) as [_ Hx], (gtb_number _ _ Hyz) as [Hz _].
  apply leb_total; [assumption..|].
  destruct (F64.leb z x) eqn:Hzx; [|reflexivity].
  pose proof (leb_trans z x y Hzx (gtb_leb _ _ Hxy)) as Hzy.
  rewrite (gtb_not_leb _ _ Hyz) in Hzy. discriminate.
Qed.

Lemma ascending_cons (b : float) (rest : list float) :
  ascending (b :: rest) = true ->
  ascending rest = true /\
  forall i b', rest !! i = Some b' -> F64.gtb b' b = true.
Proof.
  revert b. induction rest as [|c rest IH]; intros b H.
  - split; [reflexivity|]. intros i b' Hi. discriminate.
  - cbn [ascending] in H. apply andb_true_iff in H as [Hbc Hrest].
    split; [exact Hrest|]. intros [|i] b' Hi; cbn in Hi.
    + injection Hi as <-. exact Hbc.
    + destruct (IH c Hrest) as [_ Hc].
      eapply gtb_trans; [exact Hbc | eapply Hc, Hi].
Qed.

(** The scan stops at the first threshold the value does not exceed. *)
Lemma first_breakpoint_spec (x : float) (bps : list float) (k s : Z) :
  first_breakpoint x bps k = Some s <->
  exists (i : nat) (b : float),
    s = k + Z.of_nat i /\ bps !! i = Some b /\ F64.leb x b = true /\
    forall i' b', (i' < i)%nat -> bps !! i' = Some b' -> F64.leb x b' = false.
Proof.
  revert k. induction bps as [|c rest IH]; intros k; cbn.
  - split; [discriminate|]. intros (i & b & _ & Hi & _). discriminate.
  - destruct (F64.leb x c) eqn:Hc.
    + split.
      * intros [= <-]. exists 0%nat, c.
        split; [lia|]. split; [reflexivity|]. split; [exact Hc|].
        intros i' b' Hi'. lia.
      * intros (i & b & -> & Hi & Hb & Hfirst). destruct i as [|i].
        -- f_equal. lia.
        -- rewrite (Hfirst 0%nat c ltac:(lia) eq_refl) in Hc. discriminate.
    + rewrite IH. split.
      * intros (i & b & -> & Hi & Hb & Hfirst). exists (S i), b.
        split; [lia|]. split; [exact Hi|]. split; [exact Hb|].
        intros [|i'] b' Hlt Hi'; cbn in Hi'.
        -- injection Hi' as <-. exact Hc.
        -- eapply (Hfirst i'); [lia | exact Hi'].
      * intros (i & b & -> & Hi & Hb & Hfirst). destruct i as [|i]; cbn in Hi.
        -- injection Hi as <-. congruence.
        -- exists i, b.
           split; [lia|]. split; [exact Hi|]. split; [exact Hb|].
           intros i' b' Hlt Hi'. apply (Hfirst (S i') b'); [lia | exact Hi'].
Qed.

Lemma ascending_lookup (bps : list float) (i j : nat) (b b' : float) :
  ascending bps = true -> (i < j)%nat ->
  bps !! i = Some b -> bps !! j = Some b' -> F64.gtb b' b = true.
Proof.
  revert i j. induction bps as [|c rest IH]; intros i j Hasc Hij Hi Hj;
    [discriminate|].
  destruct (ascending_cons c rest Hasc) as [Hrest Hc].
  destruct j as [|j]; [lia|]. cbn in Hj.
  destruct i as [|i]; cbn in Hi.
  - injection Hi as <-. eapply Hc, Hj.
  - eapply (IH i j); try eassumption. lia.
Qed.

(** X9.  The bins of the discretization.  For thresholds in strictly
    ascending order and a value [x] that is a number, the scan of
    [_generate_words] gives the symbol [s] exactly when
    [breakpoints[s-1] < x <= breakpoints[s]] (the first condition only for
    [s >= 1]). *)
Theorem symbol_interval (x : float) (bps : list float) (s : Z) :
  ascending bps = true -> F64.is_nan x = false ->
  first_breakpoint x bps 0 = Some s <->
  0 <= s /\
  exists b, bps !! Z.to_nat s = Some b /\ F64.leb x b = true /\
    (1 <= s ->
     exists b', bps !! Z.to_nat (s - 1) = Some b' /\ F64.gtb x b' = true).
Proof.
  intros Hasc Hx. rewrite first_breakpoint_spec. split.
  - intros (i & b & -> & Hi & Hb & Hfirst). split; [lia|].
    exists b. rewrite Z.add_0_l, Nat2Z.id.
    split; [exact Hi|]. split; [exact Hb|].
    intros H1. destruct i as [|i]; [lia|].
    replace (Z.to_nat (Z.of_nat (S i) - 1)) with i by lia.
    destruct (lookup_lt_is_Some_2 bps i) as [b' Hi'];
      [apply lookup_lt_Some in Hi; lia|].
    exists b'. split; [exact Hi'|].
    pose proof (ascending_lookup bps i (S i) b' b Hasc ltac:(lia) Hi' Hi) as Hg.
    apply leb_total; [assumption | apply (gtb_number _ _ Hg) |].
    apply (Hfirst i b'); [lia | exact Hi'].
  - intros (Hs & b & Hi & Hb & Hprev). exists (Z.to_nat s), b.
    split; [lia|]. split; [exact Hi|]. split; [exact Hb|].
    intros i' b' Hlt Hi'.
    destruct (Hprev ltac:(lia)) as (c & Hc & Hxc).
    destruct (F64.leb x b') eqn:Hxb'; [|reflexivity].
    assert (Hb'c : F64.leb b' c = true).
    { destruct (decide (i' = Z.to_nat (s - 1))) as [->|Hne].
      - rewrite Hc in Hi'. injection Hi' as <-.
        destruct (gtb_number _ _ Hxc) as [_ Hcn].
        apply leb_refl, Hcn.
      - apply gtb_leb.
        apply (ascending_lookup bps i' (Z.to_nat (s - 1))); try assumption.
        lia. }
    pose proof (leb_trans x b' c Hxb' Hb'c) as Hxc'.
    rewrite (gtb_not_leb _ _ Hxc) in Hxc'. discriminate.
Qed.

Lemma breakpoint_table_defined (a : Z) :
  2 <= a <= 10 ->
  exists bps,
    breakpoint_table a = Some bps /\
    Z.of_nat (length bps) = a /\
    ascending bps = true /\ last bps = Some F64.inf /\ mirrored bps = true /\
    F64.inf ∈ bps.
Proof.
  intros Ha.
  assert (Hcases : a = 2 \/ a = 3 \/ a = 4 \/ a = 5 \/ a = 6 \/ a = 7 \/
                   a = 8 \/ a = 9 \/ a = 10) by lia.
  destruct Hcases as [-> | [-> | [-> | [-> | [-> | [-> | [-> | [-> | ->]]]]]]]];
    eexists; (split; [reflexivity|]);
    (split; [reflexivity|]);
    (split; [vm_compute; reflexivity|]);
    (split; [reflexivity|]);
    (split; [vm_compute; reflexivity|]);
    repeat first [apply list_elem_of_here | apply list_elem_of_further].
Qed.

Lemma breakpoint_table_undefined (a : Z) :
  a < 2 \/ 10 < a -> breakpoint_table a = None.
Proof.
  intros Ha. destruct a as [|p|p]; try reflexivity.
  do 4 (destruct p as [p|p|]; try reflexivity; try lia).
Qed.

(** X8.  [_generate_breakpoints] has a table for the alphabets of 2 to 10
    symbols: it has [alphabet_size] thresholds in strictly ascending order,
    the last of them infinite and those before it mirrored about zero, so
    that every value that is a number has a symbol index in
    [0, alphabet_size).  For every other alphabet size the lookup raises
    [KeyError].  The transformer is not changed. *)
Theorem breakpoints_by_alphabet (self : SAX_FAST) :
  let a := alphabet_size self in
  (2 <= a <= 10 ->
   exists bps,
     _generate_breakpoints self = (Ok bps, self) /\
     Z.of_nat (length bps) = a /\
     ascending bps = true /\ last bps = Some F64.inf /\ mirrored bps = true /\
     forall x, F64.is_nan x = false ->
       exists s, first_breakpoint x bps 0 = Some s /\ 0 <= s < a) /\
  (a < 2 \/ 10 < a ->
   _generate_breakpoints self = (Raise (KeyError a), self)).
Proof.
  cbn zeta. unfold _generate_breakpoints. split.
  - intros Ha.
    destruct (breakpoint_table_defined _ Ha)
      as (bps & -> & Hlen & Hasc & Hlast & Hmir & Hinf).
    exists bps. repeat (split; [assumption || reflexivity|]).
    intros x Hx.
    destruct (first_breakpoint_number x bps 0 Hx Hinf) as [s Hs].
    exists s. split; [exact Hs|].
    apply first_breakpoint_range in Hs. lia.
  - intros Ha. rewrite (breakpoint_table_undefined _ Ha). reflexivity.
Qed.

Lemma breakpoints_by_alphabet_witness :
  exists bps,
    _generate_breakpoints (init 8 7 12 false true false false)
      = (Ok bps, init 8 7 12 false true false false) /\
    Z.of_nat (length bps) = 7 /\ ascending bps = true /\
    _generate_breakpoints bad_sax = (Raise (KeyError 11), bad_sax).
Proof.
  destruct (breakpoints_by_alphabet (init 8 7 12 false true false false))
    as [Hin _].
  destruct (Hin ltac:(cbn; lia)) as (bps & Hb & Hlen & Hasc & _).
  exists bps. split; [exact Hb|]. split; [exact Hlen|]. split; [exact Hasc|].
  apply (proj2 (breakpoints_by_alphabet bad_sax)). cbn. lia.
Defined.

Lemma symbol_interval_witness :
  (ascending (default [] (breakpoint_table 4)) = true /\
   F64.is_nan (F64.centi 50) = false) /\
  (first_breakpoint (F64.centi 50) (default [] (breakpoint_table 4)) 0 = Some 2
   <->
   0 <= 2 /\
   exists b, default [] (breakpoint_table 4) !! Z.to_nat 2 = Some b /\
     F64.leb (F64.centi 50) b = true /\
     (1 <= 2 ->
      exists b', default [] (breakpoint_table 4) !! Z.to_nat (2 - 1) = Some b' /\
        F64.gtb (F64.centi 50) b' = true)).
Proof.
  assert (H : ascending (default [] (breakpoint_table 4)) = true /\
              F64.is_nan (F64.centi 50) = false).
  { split; vm_compute; reflexivity. }
  split; [exact H|]. destruct H as [Hasc Hx].
  exact (symbol_interval _ _ 2 Hasc Hx).
Defined.

Lemma words_monotone_witness :
  (0 <= 2 /\ 0 <= 2 /\ 2 * 2 <= 63 /\
   Z.of_nat (length (default [] (breakpoint_table 4))) <= 2 ^ 2 /\
   F64.inf ∈ default [] (breakpoint_table 4) /\
   (Z.to_nat 2 <= length (to_floats [-1; 0]%Z))%nat /\
   Forall2 (fun x y => F64.leb x y = true)
     (to_floats [-1; 0]) (to_floats [0; 1])) /\
  exists wp wq,
    _generate_words (to_floats [-1; 0]) 2 (default [] (breakpoint_table 4)) 2
      = Ok wp /\
    _generate_words (to_floats [0; 1]) 2 (default [] (breakpoint_table 4)) 2
      = Ok wq /\
    wp <= wq.
Proof.
  assert (H : 0 <= 2 /\ 0 <= 2 /\ 2 * 2 <= 63 /\
   Z.of_nat (length (default [] (breakpoint_table 4))) <= 2 ^ 2 /\
   F64.inf ∈ default [] (breakpoint_table 4) /\
   (Z.to_nat 2 <= length (to_floats [-1; 0]%Z))%nat /\
   Forall2 (fun x y => F64.leb x y = true)
     (to_floats [-1; 0]) (to_floats [0; 1])).
  { split; [lia|]. split; [lia|]. split; [lia|].
    split; [vm_compute; discriminate|].
    split; [repeat first [apply list_elem_of_here | apply list_elem_of_further]|].
    split; [cbn; lia|]. repeat constructor. }
  split; [exact H|]. destruct H as (H1 & H2 & H3 & H4 & H5 & H6 & H7).
  exact (words_monotone _ _ 2 _ 2 H1 H2 H3 H4 H5 H6 H7).
Defined.

(** ** Words of concatenated patterns *)

(** Letters pushed onto a word: the word moves up by their bits. *)
Lemma fold_push_value (lb : Z) (l : list Z) (w b : Z) :
  0 <= lb -> letters_below lb l -> 0 <= b -> 0 <= w < 2 ^ b ->
  b + Z.of_nat (length l) * lb <= 63 ->
  fold_left (push_symbol lb) l w =
  w * 2 ^ (Z.of_nat (length l) * lb) + pack_symbols lb l.
Proof.
  intros Hlb. revert w b. induction l as [|s l IH] using rev_ind;
    intros w b Hl Hb Hw Hbits.
  - unfold pack_symbols. cbn [fold_left length Z.of_nat].
    rewrite Z.mul_0_l. change (2 ^ 0) with 1. lia.
  - apply Forall_app in Hl as [Hl Hs]. apply Forall_inv in Hs.
    rewrite length_app in *. cbn [length] in *.
    assert (Hp : 0 <= Z.of_nat (length l) * lb) by lia.
    rewrite fold_left_app, pack_symbols_snoc. cbn [fold_left].
    rewrite (IH w b) by (try assumption; lia).
    pose proof (pack_symbols_range lb l Hlb Hl ltac:(lia)) as Hr.
    assert (Hpow : 0 < 2 ^ (Z.of_nat (length l) * lb)) by (apply pow2_pos; lia).
    destruct (push_symbol_spec lb (Z.of_nat (length l) * lb)
                (pack_symbols lb l) s) as [-> _]; try lia.
    destruct (push_symbol_spec lb (b + Z.of_nat (length l) * lb)
                (w * 2 ^ (Z.of_nat (length l) * lb) + pack_symbols lb l) s)
      as [-> _]; try lia.
    + rewrite Z.pow_add_r by lia. nia.
    + replace (Z.of_nat (length l + 1) * lb)
        with (Z.of_nat (length l) * lb + lb) by lia.
      rewrite Z.pow_add_r by lia. ring.
Qed.

Lemma symbols_count (bps : list float) (l : list float) :
  F64.inf ∈ bps ->
  length (omap (fun x => first_breakpoint x bps 0) l)
  = length (filter is_number l).
Proof.
  intros Hinf. induction l as [|x l IH]; [reflexivity|].
  rewrite filter_cons. case_decide as Hx; cbn.
  - destruct (first_breakpoint_number x bps 0 Hx Hinf) as [s Hs].
    rewrite Hs. cbn. rewrite IH. reflexivity.
  - destruct x; try (exfalso; apply Hx; reflexivity).
    pose proof (first_breakpoint_nan bps 0) as Hnone.
    unfold F64.nan in Hnone. rewrite Hnone. exact IH.
Qed.

(** With the ordered comparison: the word of a pattern followed by another
    is the word of the first, shifted left by [letter_bits] for each segment
    of the second that has a symbol, or-ed with the word of the second. *)
Lemma concatenation_when_ordered (p q : list float) (bps : list float)
    (lb : Z) :
  0 <= lb -> Z.of_nat (length bps) <= 2 ^ lb -> F64.inf ∈ bps ->
  Z.of_nat (length p + length q) * lb <= 63 ->
  exists wp wq,
    _generate_words p (Z.of_nat (length p)) bps lb = Ok wp /\
    _generate_words q (Z.of_nat (length q)) bps lb = Ok wq /\
    _generate_words (p ++ q) (Z.of_nat (length p + length q)) bps lb =
    Ok (Z.lor
          (Z.shiftl wp (Z.of_nat (length (filter is_number q)) * lb)) wq).
Proof.
  intros Hlb Hbps Hinf Hbits.
  rewrite !generate_words_pack by (rewrite ?length_app; lia).
  rewrite !Nat2Z.id.
  rewrite <- length_app, !firstn_all.
  eexists _, _. split; [reflexivity|]. split; [reflexivity|]. f_equal.
  set (f := fun x => first_breakpoint x bps 0).
  set (sp := omap f p). set (sq := omap f q).
  assert (Hsp : letters_below lb sp) by (apply symbols_below, Hbps).
  assert (Hsq : letters_below lb sq) by (apply symbols_below, Hbps).
  assert (Hlp : (length sp <= length p)%nat) by apply length_omap_le.
  assert (Hlq : (length sq <= length q)%nat) by apply length_omap_le.
  assert (Hcount : length (filter is_number q) = length sq)
    by (symmetry; apply symbols_count, Hinf).
  rewrite Hcount.
  replace (omap f (p ++ q)) with (sp ++ sq)
    by (symmetry; apply omap_app).
  unfold pack_symbols at 1. rewrite fold_left_app. fold (pack_symbols lb sp).
  pose proof (pack_symbols_range lb sp Hlb Hsp ltac:(nia)) as Hrp.
  pose proof (pack_symbols_range lb sq Hlb Hsq ltac:(nia)) as Hrq.
  rewrite (fold_push_value lb sq _ (Z.of_nat (length sp) * lb));
    try assumption; try nia.
  symmetry. apply lor_shiftl_add; [nia | exact Hrq].
Qed.

Lemma filter_numbers (l : list float) :
  Forall is_number l -> filter is_number l = l.
Proof.
  induction 1 as [|x l Hx _ IH]; [reflexivity|].
  rewrite filter_cons, decide_True by exact Hx. rewrite IH. reflexivity.
Qed.

(** On numbers the compiled comparison is the ordered one, and so are the
    words. *)
Lemma words_of_pattern_fastmath_numbers (unordered : bool)
    (pattern : list float) (count : nat) (bps : list float) (lb word : Z) :
  Forall is_number pattern -> Forall is_number bps ->
  words_of_pattern_fastmath unordered pattern count bps lb word =
  words_of_pattern pattern count bps lb word.
Proof.
  intros Hp Hbps. revert count word.
  induction Hp as [|x rest Hx _ IH]; intros [|count] word; try reflexivity.
  cbn. rewrite (first_breakpoint_fastmath_number unordered x bps 0 Hx Hbps).
  apply IH.
Qed.

Lemma generate_words_fastmath_numbers (unordered : bool)
    (pattern : list float) (wl : Z) (bps : list float) (lb : Z) :
  Forall is_number pattern -> Forall is_number bps ->
  _generate_words_fastmath unordered pattern wl bps lb =
  _generate_words pattern wl bps lb.
Proof. apply words_of_pattern_fastmath_numbers. Qed.

(** X11.  For patterns and thresholds that are numbers, where the compiled
    comparison is fixed: the word of a pattern followed by another is the
    word of the first, shifted left by [letter_bits] for each segment of the
    second, or-ed with the word of the second; the first segment has the
    highest bits. *)
Theorem word_of_concatenation (unordered : bool) (p q : list float)
    (bps : list float) (lb : Z) :
  0 <= lb -> Z.of_nat (length bps) <= 2 ^ lb -> F64.inf ∈ bps ->
  Forall is_number bps -> Forall is_number p -> Forall is_number q ->
  Z.of_nat (length p + length q) * lb <= 63 ->
  exists wp wq,
    _generate_words_fastmath unordered p (Z.of_nat (length p)) bps lb
      = Ok wp /\
    _generate_words_fastmath unordered q (Z.of_nat (length q)) bps lb
      = Ok wq /\
    _generate_words_fastmath unordered (p ++ q)
      (Z.of_nat (length p + length q)) bps lb =
    Ok (Z.lor (Z.shiftl wp (Z.of_nat (length q) * lb)) wq).
Proof.
  intros Hlb Hfit Hinf Hbps Hp Hq Hbits.
  rewrite !generate_words_fastmath_numbers
    by (try apply Forall_app; auto).
  destruct (concatenation_when_ordered p q bps lb Hlb Hfit Hinf Hbits)
    as (wp & wq & Hwp & Hwq & Hw).
  rewrite (filter_numbers q Hq) in Hw. eauto.
Qed.

Lemma word_of_concatenation_witness :
  (0 <= 2 /\ Z.of_nat (length (default [] (breakpoint_table 4))) <= 2 ^ 2 /\
   F64.inf ∈ default [] (breakpoint_table 4) /\
   Forall is_number (default [] (breakpoint_table 4)) /\
   Forall is_number (to_floats [1]) /\
   Forall is_number (to_floats [-1; 0]) /\
   Z.of_nat (length (to_floats [1]) + length (to_floats [-1; 0])) * 2
     <= 63) /\
  exists wp wq,
    _generate_words_fastmath true (to_floats [1]) 1
      (default [] (breakpoint_table 4)) 2 = Ok wp /\
    _generate_words_fastmath true (to_floats [-1; 0]) 2
      (default [] (breakpoint_table 4)) 2 = Ok wq /\
    _generate_words_fastmath true (to_floats [1] ++ to_floats [-1; 0]) 3
      (default [] (breakpoint_table 4)) 2
    = Ok (Z.lor (Z.shiftl wp (2 * 2)) wq).
Proof.
  assert (H : 0 <= 2 /\
   Z.of_nat (length (default [] (breakpoint_table 4))) <= 2 ^ 2 /\
   F64.inf ∈ default [] (breakpoint_table 4) /\
   Forall is_number (default [] (breakpoint_table 4)) /\
   Forall is_number (to_floats [1]) /\
   Forall is_number (to_floats [-1; 0]) /\
   Z.of_nat (length (to_floats [1]) + length (to_floats [-1; 0])) * 2 <= 63).
  { split; [lia|]. split; [vm_compute; discriminate|].
    split; [repeat first [apply list_elem_of_here | apply list_elem_of_further]|].
    split; [vm_compute; repeat constructor|].
    split; [vm_compute; repeat constructor|].
    split; [vm_compute; repeat constructor|].
    cbn. lia. }
  split; [exact H|].
  destruct H as (Hlb & Hfit & Hinf & Hbps & Hp & Hq & Hbits).
  exact (word_of_concatenation true (to_floats [1]) (to_floats [-1; 0]) _ 2
           Hlb Hfit Hinf Hbps Hp Hq Hbits).
Defined.

(** ** PAA with one segment, and with one segment for each sample *)

Lemma mul_one_l (x : float) : is_valid x = true -> F64.mul F64.one x = x.
Proof.
  intros Hx. destruct x as [s|s| |s m e]; try reflexivity.
  unfold is_valid in Hx. cbn [valid_binary] in Hx.
  apply bounded_eq in Hx as [Hc He].
  unfold F64.mul, F64.one, F64.prec, F64.emax. cbn [SFmul xorb].
  rewrite (binary_round_aux_exact s (4503599627370496 * m) m (-52 + e) 52).
  - f_equal. lia.
  - lia.
  - rewrite Pos2Z.inj_mul. change (Z.pos 4503599627370496) with (2 ^ 52). lia.
  - assert (Hd : Z.pos (digits2_pos (4503599627370496 * m)) + 0
                 = Z.pos (digits2_pos m) + 52).
    { apply position_eq; lia. }
    replace (Z.pos (digits2_pos (4503599627370496 * m)) + (-52 + e))
      with (Z.pos (digits2_pos m) + e) by lia.
    rewrite Hc. lia.
  - replace (-52 + e + 52) with e by lia. exact Hc.
  - lia.
Qed.

Lemma div_eucl_exact (a b : Z) : b <> 0 -> Z.div_eucl (a * b) b = (a, 0).
Proof.
  intros Hb. pose proof (Z.div_mul a b Hb) as Hq.
  pose proof (Z.mod_mul a b Hb) as Hr. unfold Z.div, Z.modulo in Hq, Hr.
  destruct (Z.div_eucl (a * b) b) as [q r]. cbn in Hq, Hr. congruence.
Qed.

Lemma div_core_one (m : positive) (e : Z) :
  bounded 53 1024 m e = true ->
  exists n,
    0 <= n <= 1 /\
    SFdiv_core_binary 53 1024 (Zpos m) e (2 ^ 52) (-52) =
      (Zpos m * 2 ^ n, e - n, loc_Exact).
Proof.
  intros Hb. pose proof (bounded_emin _ _ Hb) as Hmin.
  apply bounded_eq in Hb as [Hc He]. rewrite fexp64_eq in Hc.
  unfold SFdiv_core_binary. cbn [Zdigits2].
  change (Zdigits2 (2 ^ 52)) with 53.
  fold (fexp64 (Z.pos (digits2_pos m) + e - (53 + -52))). rewrite fexp64_eq.
  set (d := Z.pos (digits2_pos m)) in *.
  assert (Hcases :
    Z.min (Z.max (d + e - (53 + -52) - 53) (-1074)) (e - -52) = e \/
    Z.min (Z.max (d + e - (53 + -52) - 53) (-1074)) (e - -52) = e - 1) by lia.
  destruct Hcases as [-> | ->].
  - exists 0. split; [lia|].
    replace (e - -52 - e) with 52 by lia.
    rewrite Z.shiftl_mul_pow2 by lia.
    rewrite div_eucl_exact by lia. rewrite Z.mul_1_r, Z.sub_0_r. reflexivity.
  - exists 1. split; [lia|].
    replace (e - -52 - (e - 1)) with 53 by lia.
    rewrite Z.shiftl_mul_pow2 by lia.
    replace (Z.pos m * 2 ^ 53) with (Z.pos m * 2 ^ 1 * 2 ^ 52) by lia.
    rewrite div_eucl_exact by lia. reflexivity.
Qed.

Lemma div_one_r (x : float) : is_valid x = true -> F64.div x F64.one = x.
Proof.
  intros Hx. destruct x as [s|s| |s m e]; try (destruct s; reflexivity);
    try reflexivity.
  unfold is_valid in Hx. cbn [valid_binary] in Hx.
  destruct (div_core_one m e Hx) as (n & Hn & Hcore).
  apply bounded_eq in Hx as [Hc He].
  unfold F64.div, F64.one, F64.prec, F64.emax. cbn [SFdiv].
  change (Z.pos 4503599627370496) with (2 ^ 52). rewrite Hcore.
  rewrite xorb_false_r.
  assert (Hn' : n = 0 \/ n = 1) by lia.
  destruct Hn' as [-> | ->].
  - rewrite Z.mul_1_r, Z.sub_0_r.
    replace e with (e + 0) at 1 by lia.
    rewrite (binary_round_aux_exact s m m (e + 0) 0); rewrite ?Z.add_0_r;
      try lia; try assumption; reflexivity.
  - replace (Z.pos m * 2 ^ 1) with (Z.pos m~0) by lia.
    rewrite (binary_round_aux_exact s (m~0) m (e - 1) 1).
    + f_equal. lia.
    + lia.
    + lia.
    + replace (Z.pos (digits2_pos m~0) + (e - 1))
        with (Z.pos (digits2_pos m) + e) by (cbn [digits2_pos]; lia).
      rewrite Hc. lia.
    + replace (e - 1 + 1) with e by lia. exact Hc.
    + lia.
Qed.

Lemma of_Z_valid (n : Z) : 0 <= n < 2 ^ 53 -> is_valid (F64.of_Z n) = true.
Proof.
  intros Hn. pose proof (of_Z_exact n Hn) as H. unfold is_valid.
  destruct (F64.of_Z n); cbn in H |- *; tauto.
Qed.

Lemma lattice_unit (M : positive) (E : Z) :
  -52 <= E <= 0 -> lattice E (2 ^ (- E)) = F64.one.
Proof.
  intros HE. symmetry. apply (is_float_lattice M E HE).
  - split; [apply Z.lt_le_incl, pow2_pos; lia|].
    apply Z.pow_lt_mono_r; lia.
  - apply (one_is_float M E HE).
Qed.

Lemma fold_add_snoc (l : list float) (x a : float) :
  fold_left F64.add (l ++ [x]) a = F64.add (fold_left F64.add l a) x.
Proof. rewrite fold_left_app. reflexivity. Qed.

(** X12.  With one segment ([num_intervals = 1]) PAA returns the mean of
    the window: the samples added from left to right, divided by their
    number. *)
Theorem single_segment_is_mean (window : list float) :
  1 <= Z.of_nat (length window) < 2 ^ 52 ->
  Forall (fun x => is_valid x = true) window ->
  paa_row 1 window = Ok [fmean window].
Proof.
  intros Hn Hvalid. set (n := length window) in *.
  destruct (of_Z_normal (Z.of_nat n) Hn) as (m & e & Hof & Hm & He & Hv).
  assert (HU : 0 < 2 ^ (- e)) by (apply pow2_pos; lia).
  assert (Hfl : F64.div (F64.of_Z (Z.of_nat n)) (F64.of_Z (Z.of_nat 1))
                = S754_finite false m e).
  { change (F64.of_Z (Z.of_nat 1)) with F64.one.
    rewrite div_one_r by (apply of_Z_valid; lia). exact Hof. }
  change 1 with (Z.of_nat 1) at 1.
  rewrite (paa_row_segments m e Hm ltac:(lia) window 1); fold n;
    try assumption; try lia.
  cbn [seq fmap list_fmap]. do 2 f_equal.
  unfold segment_mean, fmean. fold n. rewrite Hof. f_equal.
  unfold frame_total.
  rewrite (frame_start_0 m e Hm ltac:(lia)).
  rewrite (frame_start_unique m e Hm ltac:(lia) 1 n) by lia.
  cbn [frame_carry]. rewrite drop_0, Nat.sub_0_r.
  destruct (lookup_lt_is_Some_2 window (n - 1) ltac:(lia)) as [x Hx].
  rewrite Hx.
  replace (Z.of_nat 1 * Z.pos m - Z.of_nat (n - 1) * 2 ^ (- e))
    with (2 ^ (- e))
    by (rewrite Nat2Z.inj_sub, Hv by lia; change (Z.of_nat 1) with 1; ring).
  rewrite (lattice_unit m e ltac:(lia)).
  rewrite mul_one_l by (eapply (Forall_lookup_1 _ _ _ _ Hvalid), Hx).
  rewrite <- fold_add_snoc. unfold fsum. f_equal.
  rewrite <- (take_S_r _ _ _ Hx).
  replace (S (n - 1)) with n by lia. apply take_ge. lia.
Qed.

Lemma div_self (n : Z) :
  1 <= n < 2 ^ 52 -> F64.div (F64.of_Z n) (F64.of_Z n) = F64.one.
Proof.
  intros Hn.
  destruct (of_Z_normal n Hn) as (m & e & -> & Hm & He & Hv).
  unfold F64.div, F64.prec, F64.emax. cbn [SFdiv xorb].
  rewrite div_core by assumption.
  rewrite (Z.mul_comm (Z.pos m)), Z.div_mul, Z.mod_mul by lia.
  replace (new_location (Z.pos m) 0) with loc_Exact
    by (unfold new_location, new_location_even, new_location_odd;
        destruct (Z.even _); reflexivity).
  replace (e - e - 53) with (-53) by lia. reflexivity.
Qed.

Lemma is_finite_valid (x : float) : is_finite x = true -> is_valid x = true.
Proof. destruct x; cbn; auto; discriminate. Qed.

Lemma mul_zero_finite (x : float) :
  is_finite x = true -> F64.is_zero (F64.mul F64.zero x) = true.
Proof. destruct x; cbn; auto; discriminate. Qed.

Lemma add_zero_finite (z x : float) :
  F64.is_zero z = true -> is_finite x = true ->
  same_number (F64.add z x) x.
Proof.
  destruct z as [sz| | |]; try discriminate. intros _ Hx.
  destruct x as [sx| | |sx m e]; try discriminate.
  - right. destruct sz, sx; split; reflexivity.
  - left. reflexivity.
Qed.

Lemma same_number_div_one (y x : float) :
  is_finite x = true -> same_number y x ->
  same_number (F64.div y F64.one) x.
Proof.
  intros Hx [->|[Hy Hz]].
  - left. apply div_one_r, is_finite_valid, Hx.
  - right. split; [|exact Hz]. destruct y; try discriminate. reflexivity.
Qed.

Lemma same_number_leb (x y b : float) :
  same_number x y -> F64.leb x b = F64.leb y b.
Proof.
  intros [->|[Hx Hy]]; [reflexivity|].
  destruct x, y; try discriminate. destruct b; reflexivity.
Qed.

Lemma same_number_symbol (x y : float) (bps : list float) (k : Z) :
  same_number x y -> first_breakpoint x bps k = first_breakpoint y bps k.
Proof.
  intros Hxy. revert k. induction bps as [|b rest IH]; intros k; cbn;
    [reflexivity|].
  rewrite (same_number_leb x y b Hxy), IH. reflexivity.
Qed.

Lemma same_number_words (p q : list float) (count : nat) (bps : list float)
    (lb word : Z) :
  Forall2 same_number p q ->
  words_of_pattern p count bps lb word = words_of_pattern q count bps lb word.
Proof.
  intros H. revert count word.
  induction H as [|x y p q Hxy Hpq IH]; intros [|count] word; cbn;
    try reflexivity.
  rewrite (same_number_symbol x y bps 0 Hxy). apply IH.
Qed.

(** As many segments as samples: every segment is its sample. *)
Lemma segment_of_sample (window : list float) (j : nat) (x : float) :
  Forall (fun x => is_finite x = true) window ->
  window !! j = Some x ->
  same_number (segment_mean 4503599627370496 (-52) window j) x.
Proof.
  intros Hfin Hx.
  assert (HM : 2 ^ 52 <= Z.pos 4503599627370496 < 2 ^ 53) by (cbn; lia).
  assert (HE : -52 <= -52 <= 0) by lia.
  assert (Hstart : forall i, frame_start 4503599627370496 (-52) i = i).
  { intros i. apply (frame_start_unique _ _ HM HE).
    change (2 ^ (- -52)) with (2 ^ 52).
    change (Z.pos 4503599627370496) with (2 ^ 52). lia. }
  pose proof (Forall_lookup_1 _ _ _ _ Hfin Hx) as Hxf. cbn in Hxf.
  unfold segment_mean.
  change (S754_finite false 4503599627370496 (-52)) with F64.one.
  apply same_number_div_one; [exact Hxf|].
  unfold frame_total. rewrite !Hstart.
  replace (S j - 1)%nat with j by lia. rewrite Nat.sub_diag, take_0, Hx.
  cbn [fold_left].
  replace (Z.of_nat (S j) * Z.pos 4503599627370496
           - Z.of_nat j * 2 ^ (- -52)) with (2 ^ (- -52))
    by (change (2 ^ (- -52)) with (2 ^ 52);
        change (Z.pos 4503599627370496) with (2 ^ 52); lia).
  rewrite (lattice_unit 1 (-52) HE).
  rewrite mul_one_l by (apply is_finite_valid, Hxf).
  apply add_zero_finite; [|exact Hxf].
  destruct j as [|j']; [reflexivity|].
  cbn [frame_carry]. rewrite Hstart.
  replace (Z.of_nat (S j') * 2 ^ (- -52)
           - Z.of_nat (S j') * Z.pos 4503599627370496) with 0
    by (change (2 ^ (- -52)) with (2 ^ 52);
        change (Z.pos 4503599627370496) with (2 ^ 52); lia).
  change (lattice (-52) 0) with F64.zero.
  apply mul_zero_finite.
  replace (S j' - 1)%nat with j' by lia.
  destruct (lookup_lt_is_Some_2 window j') as [y Hy];
    [apply lookup_lt_Some in Hx; lia|].
  rewrite (nth_lookup_Some _ _ _ _ Hy).
  exact (Forall_lookup_1 _ _ _ _ Hfin Hy).
Qed.

Lemma paa_row_identity (window : list float) :
  1 <= Z.of_nat (length window) < 2 ^ 52 ->
  Forall (fun x => is_finite x = true) window ->
  exists pattern,
    paa_row (Z.of_nat (length window)) window = Ok pattern /\
    Forall2 same_number pattern window.
Proof.
  intros Hn Hfin.
  assert (HM : 2 ^ 52 <= Z.pos 4503599627370496 < 2 ^ 53) by (cbn; lia).
  assert (HE : -52 <= -52 <= 0) by lia.
  eexists. split.
  - apply (paa_row_segments _ _ HM HE window (length window)).
    + change (2 ^ (- -52)) with (2 ^ 52).
      change (Z.pos 4503599627370496) with (2 ^ 52). lia.
    + lia.
    + change (2 ^ (- -52)) with (2 ^ 52).
      change (Z.pos 4503599627370496) with (2 ^ 52). lia.
    + apply div_self, Hn.
  - apply Forall2_same_length_lookup_2.
    + rewrite length_fmap, length_seq. reflexivity.
    + intros j y x Hy Hx. rewrite list_lookup_fmap in Hy.
      rewrite lookup_seq_lt in Hy by (eapply lookup_lt_Some, Hx).
      cbn in Hy. injection Hy as <-.
      apply segment_of_sample; assumption.
Qed.

Lemma single_segment_is_mean_witness :
  (1 <= Z.of_nat (length (to_floats [1; 2; 3; 6])) < 2 ^ 52 /\
   Forall (fun x => is_valid x = true) (to_floats [1; 2; 3; 6])) /\
  paa_row 1 (to_floats [1; 2; 3; 6]) = Ok [fmean (to_floats [1; 2; 3; 6])].
Proof.
  assert (H : 1 <= Z.of_nat (length (to_floats [1; 2; 3; 6])) < 2 ^ 52 /\
              Forall (fun x => is_valid x = true) (to_floats [1; 2; 3; 6])).
  { split; [cbn; lia | repeat constructor]. }
  split; [exact H|]. destruct H as [Hn Hv].
  exact (single_segment_is_mean _ Hn Hv).
Defined.

(** X13.  With as many segments as samples PAA changes nothing: on a
    window of finite values every segment is its sample (a zero may change
    its sign), and so the encoder gives the pattern the word of the window
    itself. *)
Theorem full_length_identity (window : list float) :
  1 <= Z.of_nat (length window) < 2 ^ 52 ->
  Forall (fun x => is_finite x = true) window ->
  exists pattern,
    paa_row (Z.of_nat (length window)) window = Ok pattern /\
    Forall2 same_number pattern window /\
    forall wl bps lb,
      _generate_words pattern wl bps lb = _generate_words window wl bps lb.
Proof.
  intros Hn Hfin.
  destruct (paa_row_identity window Hn Hfin) as (pattern & Hp & Hsame).
  exists pattern. split; [exact Hp|]. split; [exact Hsame|].
  intros wl bps lb. apply same_number_words, Hsame.
Qed.

Lemma full_length_identity_witness :
  (1 <= Z.of_nat (length (to_floats [-1; 0; 1])) < 2 ^ 52 /\
   Forall (fun x => is_finite x = true) (to_floats [-1; 0; 1])) /\
  exists pattern,
    paa_row 3 (to_floats [-1; 0; 1]) = Ok pattern /\
    Forall2 same_number pattern (to_floats [-1; 0; 1]).
Proof.
  assert (H : 1 <= Z.of_nat (length (to_floats [-1; 0; 1])) < 2 ^ 52 /\
              Forall (fun x => is_finite x = true) (to_floats [-1; 0; 1])).
  { split; [cbn; lia | repeat constructor]. }
  split; [exact H|]. destruct H as [Hn Hv].
  destruct (full_length_identity _ Hn Hv) as (pattern & Hp & Hsame & _).
  exists pattern. split; [exact Hp | exact Hsame].
Defined.

(** ** PAA with frames of a whole number of samples *)

Lemma new_location_exact (m : Z) : new_location m 0 = loc_Exact.
Proof.
  unfold new_location, new_location_even, new_location_odd.
  destruct (Z.even m); reflexivity.
Qed.

(** The quotient of a multiple is exact. *)
Lemma div_multiple (k f : Z) :
  1 <= k -> 1 <= f -> k * f < 2 ^ 52 ->
  F64.div (F64.of_Z (k * f)) (F64.of_Z k) = F64.of_Z f.
Proof.
  intros Hk Hf Hn.
  assert (Hk52 : k < 2 ^ 52) by nia. assert (Hf52 : f < 2 ^ 52) by nia.
  destruct (of_Z_normal (k * f) ltac:(nia))
    as (mn & en & -> & Hmn & Hen & Hvn).
  destruct (of_Z_normal k ltac:(lia)) as (mk & ek & -> & Hmk & Hek & Hvk).
  destruct (of_Z_normal f ltac:(lia)) as (mf & ef & -> & Hmf & Hef & Hvf).
  unfold F64.div, F64.prec, F64.emax. cbn [SFdiv xorb].
  rewrite div_core by assumption.
  set (g := 53 - en + ek).
  assert (Hg : 0 <= g) by (subst g; lia).
  assert (Hpg : 0 < 2 ^ g) by (apply pow2_pos; lia).
  assert (Hprod : Z.pos mn * 2 ^ 53 = f * 2 ^ g * Z.pos mk).
  { rewrite Hvn, Hvk.
    replace (f * 2 ^ g * (k * 2 ^ (- ek))) with (k * f * (2 ^ g * 2 ^ (- ek)))
      by ring.
    rewrite <- (Z.pow_add_r 2 g (- ek)) by lia.
    rewrite <- Z.mul_assoc, <- (Z.pow_add_r 2 (- en) 53) by lia.
    do 2 f_equal. subst g. lia. }
  rewrite Hprod, Z.div_mul, Z.mod_mul, new_location_exact by lia.
  assert (Hq : 2 ^ 52 <= f * 2 ^ g).
  { apply (Z.mul_le_mono_pos_r _ _ (Z.pos mk)); [lia|].
    rewrite <- Hprod.
    assert (2 ^ 52 * Z.pos mk <= 2 ^ 52 * 2 ^ 53)
      by (apply Z.mul_le_mono_nonneg_l; lia).
    assert (2 ^ 52 * 2 ^ 53 <= Z.pos mn * 2 ^ 53)
      by (apply Z.mul_le_mono_nonneg_r; lia).
    lia. }
  assert (Hnn : 0 <= ef + g).
  { destruct (Z.lt_ge_cases (ef + g) 0) as [Hneg|]; [|lia]. exfalso.
    assert (Hsplit : 2 ^ (- ef) = 2 ^ g * 2 ^ (- ef - g))
      by (rewrite <- Z.pow_add_r by lia; f_equal; lia).
    assert (H2 : 2 <= 2 ^ (- ef - g)).
    { change 2 with (2 ^ 1) at 1. apply Z.pow_le_mono_r; lia. }
    assert (Hmf2 : Z.pos mf = f * 2 ^ g * 2 ^ (- ef - g))
      by (rewrite Hvf, Hsplit; ring).
    assert (f * 2 ^ g * 2 <= f * 2 ^ g * 2 ^ (- ef - g))
      by (apply Z.mul_le_mono_nonneg_l; lia).
    lia. }
  destruct (f * 2 ^ g) as [|pq|pq] eqn:Hpq; try lia.
  assert (Hval : Z.pos pq = Z.pos mf * 2 ^ (ef + g)).
  { rewrite <- Hpq, Hvf, <- Z.mul_assoc, <- (Z.pow_add_r 2 (- ef) (ef + g))
      by lia.
    do 2 f_equal. lia. }
  replace (en - ek - 53) with (- g) by (subst g; lia).
  rewrite (binary_round_aux_exact false pq mf (- g) (ef + g) Hnn Hval).
  - f_equal. lia.
  - assert (Hd : Z.pos (digits2_pos pq) + 0
                 = Z.pos (digits2_pos mf) + (ef + g)).
    { apply position_eq; lia. }
    rewrite (digits_53 mf Hmf) in Hd.
    replace (Z.pos (digits2_pos pq) + - g) with (53 + ef) by lia.
    rewrite fexp64_eq. lia.
  - rewrite (digits_53 mf Hmf).
    replace (- g + (ef + g)) with ef by lia. rewrite fexp64_eq. lia.
  - lia.
Qed.

Lemma same_number_add (a a' x : float) :
  same_number a a' -> same_number (F64.add a x) (F64.add a' x).
Proof.
  intros [->|[Ha Ha']]; [left; reflexivity|].
  destruct a as [s| | |], a' as [s'| | |]; try discriminate.
  destruct x as [sx|sx| |sx m e]; try (left; reflexivity).
  right. destruct s, s', sx; split; reflexivity.
Qed.

Lemma same_number_fold (l : list float) (a a' : float) :
  same_number a a' ->
  same_number (fold_left F64.add l a) (fold_left F64.add l a').
Proof.
  revert a a'. induction l as [|x l IH]; intros a a' H; [exact H|].
  cbn. apply IH, same_number_add, H.
Qed.

Lemma same_number_div (y y' d : float) :
  same_number y y' -> same_number (F64.div y d) (F64.div y' d).
Proof.
  intros [->|[Hy Hy']]; [left; reflexivity|].
  destruct y as [s| | |], y' as [s'| | |]; try discriminate.
  destruct d as [sd|sd| |sd m e]; try (left; reflexivity);
    right; split; reflexivity.
Qed.

(** A frame of a whole number of samples: its value is the mean of its
    block of samples. *)
Lemma segment_of_block (window : list float) (f k j : nat)
    (mf : positive) (ef : Z) :
  F64.of_Z (Z.of_nat f) = S754_finite false mf ef ->
  2 ^ 52 <= Z.pos mf < 2 ^ 53 -> -52 <= ef <= -1 ->
  Z.pos mf = Z.of_nat f * 2 ^ (- ef) ->
  (1 <= f)%nat -> (j < k)%nat -> length window = (k * f)%nat ->
  Forall (fun x => is_finite x = true) window ->
  same_number (segment_mean mf ef window j)
    (fmean (take f (drop (j * f) window))).
Proof.
  intros Hof HM HE Hv Hf Hj Hlen Hfin.
  assert (HE' : -52 <= ef <= 0) by lia.
  assert (HU : 0 < 2 ^ (- ef)) by (apply pow2_pos; lia).
  assert (Hstart : forall i, frame_start mf ef i = (i * f)%nat).
  { intros i. apply (frame_start_unique _ _ HM HE').
    rewrite Hv, Nat2Z.inj_mul. nia. }
  assert (Hjf : (j * f + f <= length window)%nat) by nia.
  unfold segment_mean, fmean.
  rewrite length_take, length_drop.
  replace (f `min` (length window - j * f))%nat with f by lia.
  rewrite Hof. apply same_number_div.
  unfold frame_total. rewrite !Hstart.
  destruct (lookup_lt_is_Some_2 window (S j * f - 1)) as [x Hx]; [lia|].
  rewrite Hx.
  replace (Z.of_nat (S j) * Z.pos mf - Z.of_nat (S j * f - 1) * 2 ^ (- ef))
    with (2 ^ (- ef))
    by (rewrite Hv, Nat2Z.inj_sub, Nat2Z.inj_mul by lia;
        change (Z.of_nat 1) with 1; ring).
  rewrite (lattice_unit mf ef HE').
  rewrite mul_one_l
    by (apply is_finite_valid; exact (Forall_lookup_1 _ _ _ _ Hfin Hx)).
  rewrite <- fold_add_snoc.
  replace (take (S j * f - 1 - j * f) (drop (j * f) window) ++ [x])
    with (take f (drop (j * f) window)).
  2:{ replace (S j * f - 1 - j * f)%nat with (f - 1)%nat by lia.
      replace f with (S (f - 1)) at 1 by lia.
      apply take_S_r. rewrite lookup_drop, <- Hx. f_equal. lia. }
  unfold fsum. apply same_number_fold.
  destruct j as [|j']; [left; reflexivity|]. right. split; [|reflexivity].
  cbn [frame_carry]. rewrite Hstart.
  replace (Z.of_nat (S j' * f) * 2 ^ (- ef) - Z.of_nat (S j') * Z.pos mf)
    with 0 by (rewrite Hv, Nat2Z.inj_mul; ring).
  change (lattice ef 0) with F64.zero.
  apply mul_zero_finite.
  destruct (lookup_lt_is_Some_2 window (S j' * f - 1)) as [y Hy]; [lia|].
  rewrite (nth_lookup_Some _ _ _ _ Hy).
  exact (Forall_lookup_1 _ _ _ _ Hfin Hy).
Qed.

(** X17.  PAA by blocks.  When the window has [k * f] samples for [k]
    segments, the frame length is [f] exactly and segment [j] is the mean of
    the block of [f] samples from sample [j * f] on: on a window of finite
    values the two are equal, or both zero. *)
Theorem block_means (window : list float) (k f : nat) :
  (1 <= k)%nat -> (1 <= f)%nat -> length window = (k * f)%nat ->
  Z.of_nat (length window) < 2 ^ 52 ->
  Forall (fun x => is_finite x = true) window ->
  exists pattern,
    paa_row (Z.of_nat k) window = Ok pattern /\
    length pattern = k /\
    forall j, (j < k)%nat ->
      exists y, pattern !! j = Some y /\
        same_number y (fmean (take f (drop (j * f) window))).
Proof.
  intros Hk Hf Hlen Hn Hfin.
  assert (Hkf : Z.of_nat (length window) = Z.of_nat k * Z.of_nat f)
    by (rewrite Hlen; lia).
  destruct (of_Z_normal (Z.of_nat f) ltac:(nia))
    as (mf & ef & Hof & HM & HE & Hv).
  assert (HU : 0 < 2 ^ (- ef)) by (apply pow2_pos; lia).
  assert (HnU : Z.of_nat (length window) * 2 ^ (- ef)
                = Z.of_nat k * Z.pos mf) by (rewrite Hkf, Hv; ring).
  exists (segment_mean mf ef window <$> seq 0 k). split; [|split].
  - apply (paa_row_segments mf ef HM ltac:(lia) window k).
    + rewrite HnU. lia.
    + exact Hk.
    + rewrite HnU. lia.
    + rewrite Hkf, div_multiple by lia. exact Hof.
  - rewrite length_fmap, length_seq. reflexivity.
  - intros j Hj. eexists. split.
    + rewrite list_lookup_fmap, lookup_seq_lt by exact Hj. reflexivity.
    + cbn [Nat.add]. eapply segment_of_block; eassumption.
Qed.

Lemma block_means_witness :
  ((1 <= 2)%nat /\ (1 <= 2)%nat /\
   length (to_floats [1; 3; 5; 9]) = (2 * 2)%nat /\
   Z.of_nat (length (to_floats [1; 3; 5; 9])) < 2 ^ 52 /\
   Forall (fun x => is_finite x = true) (to_floats [1; 3; 5; 9])) /\
  exists pattern,
    paa_row 2 (to_floats [1; 3; 5; 9]) = Ok pattern /\
    exists y, pattern !! 1%nat = Some y /\
      same_number y (fmean (to_floats [5; 9])).
Proof.
  assert (H : (1 <= 2)%nat /\ (1 <= 2)%nat /\
   length (to_floats [1; 3; 5; 9]) = (2 * 2)%nat /\
   Z.of_nat (length (to_floats [1; 3; 5; 9])) < 2 ^ 52 /\
   Forall (fun x => is_finite x = true) (to_floats [1; 3; 5; 9])).
  { split; [lia|]. split; [lia|]. split; [reflexivity|].
    split; [cbn; lia | repeat constructor]. }
  split; [exact H|]. destruct H as (Hk & Hf & Hlen & Hn & Hfin).
  destruct (block_means _ 2 2 Hk Hf Hlen Hn Hfin) as (pattern & Hp & _ & Hj).
  exists pattern. split; [exact Hp|]. exact (Hj 1%nat ltac:(lia)).
Defined.

(** ** Letters of the words, forms of the output, state *)

Lemma words_of_pattern_reads (pattern : list float) (count : nat)
    (bps : list float) (lb word w : Z) :
  words_of_pattern pattern count bps lb word = Ok w ->
  (count <= length pattern)%nat.
Proof.
  revert pattern word. induction count as [|count IH]; intros pattern word H;
    [lia|].
  destruct pattern as [|x rest]; cbn in H; [discriminate|].
  apply IH in H. cbn. lia.
Qed.

Lemma generate_words_letters (pattern : list float) (wl : Z)
    (bps : list float) (lb w : Z) :
  0 <= lb -> 0 <= wl -> wl * lb <= 63 ->
  1 <= Z.of_nat (length bps) <= 2 ^ lb ->
  _generate_words pattern wl bps lb = Ok w ->
  letters_valid (Z.of_nat (length bps)) lb wl w.
Proof.
  intros Hlb Hwl Hbits Hbps Hw.
  pose proof (words_of_pattern_reads _ _ _ _ _ _ Hw) as Hlen.
  rewrite generate_words_pack in Hw by assumption. injection Hw as <-.
  set (syms := omap (fun x => first_breakpoint x bps 0)
                 (take (Z.to_nat wl) pattern)).
  assert (Hsyms : Forall (fun s => 0 <= s < Z.of_nat (length bps)) syms).
  { subst syms. generalize (take (Z.to_nat wl) pattern). intros l.
    induction l as [|x l IH]; cbn; [constructor|].
    destruct (first_breakpoint x bps 0) as [s|] eqn:Hs; [|exact IH].
    constructor; [|exact IH]. apply first_breakpoint_range in Hs. lia. }
  assert (Hshort : (length syms <= Z.to_nat wl)%nat).
  { subst syms. etransitivity; [apply length_omap_le|].
    rewrite length_take. lia. }
  set (pad := replicate (Z.to_nat wl - length syms) 0).
  unfold letters_valid.
  rewrite <- (pack_symbols_leading_zeros lb (Z.to_nat wl - length syms) syms).
  replace (Z.to_nat wl) with (length (pad ++ syms)) at 1
    by (subst pad; rewrite length_app, length_replicate; lia).
  rewrite unpack_pack_symbols.
  - apply Forall_app. split; [|exact Hsyms].
    apply Forall_replicate. lia.
  - exact Hlb.
  - apply Forall_app. split.
    + apply Forall_replicate. pose proof (pow2_pos lb Hlb). lia.
    + eapply Forall_impl; [exact Hsyms|]. intros s Hs. cbv beta in Hs |- *. lia.
  - subst pad. rewrite length_app, length_replicate.
    replace (Z.of_nat (Z.to_nat wl - length syms + length syms)) with wl by lia.
    exact Hbits.
Qed.

Lemma set_item_Forall (P : Z -> Prop) (m m' : int_matrix) (i n : nat) (v : Z) :
  Forall (Forall P) (rows m) -> P v ->
  set_item m i n v = Ok m' -> Forall (Forall P) (rows m').
Proof.
  intros Hall Hv. unfold set_item.
  destruct (rows m !! i) as [row|] eqn:Hi; [|discriminate].
  case_decide; [|discriminate]. intros [= <-]. cbn.
  apply Forall_insert; [assumption|].
  apply Forall_insert; [|assumption].
  eapply Forall_lookup_1; eassumption.
Qed.

Lemma words_loop_Forall (P : Z -> Prop) (wl : Z) (bps : list float) (lb : Z)
    (patterns : list (list float)) (i n : nat) (m m' : int_matrix) :
  (forall pattern w, _generate_words pattern wl bps lb = Ok w -> P w) ->
  Forall (Forall P) (rows m) ->
  words_loop patterns wl bps lb i n m = Ok m' ->
  Forall (Forall P) (rows m').
Proof.
  intros Hgen. revert n m.
  induction patterns as [|pattern rest IH]; intros n m Hm Hrun; cbn in Hrun.
  - injection Hrun as <-. exact Hm.
  - destruct (_generate_words pattern wl bps lb) as [w|e] eqn:Hw;
      cbn in Hrun; [|discriminate].
    destruct (set_item m i n w) as [m1|e] eqn:Hset; cbn in Hrun; [|discriminate].
    apply IH in Hrun; [exact Hrun|].
    eapply set_item_Forall; eauto.
Qed.

Lemma instances_loop_Forall (zscore : list float -> list float)
    (P : Z -> Prop) (ws nw wl : Z) (bps : list float)
    (lb : Z) (X : list (list float)) (i : nat) (m m' : int_matrix) :
  (forall pattern w, _generate_words pattern wl bps lb = Ok w -> P w) ->
  Forall (Forall P) (rows m) ->
  instances_loop zscore X ws nw wl bps lb i m = Ok m' ->
  Forall (Forall P) (rows m').
Proof.
  intros Hgen. revert i m.
  induction X as [|s rest IH]; intros i m Hm Hrun; cbn in Hrun.
  - injection Hrun as <-. exact Hm.
  - destruct (_perform_paa_along_dim _ wl) as [patterns|e];
      cbn in Hrun; [|discriminate].
    destruct (words_loop patterns wl bps lb i 0 m) as [m1|e] eqn:Hwords;
      cbn in Hrun; [|discriminate].
    eapply words_loop_Forall in Hwords; [|eassumption..].
    eapply IH; eassumption.
Qed.

(** The outcome of a call that passes the checks and the allocation. *)
Lemma transform_valid_run (zscore : list float -> list float) (X : panel)
    (self : SAX_FAST) :
  let a := alphabet_size self in
  let wl := word_length self in
  let nw := Z.of_nat (series_length X) - window_size self + 1 in
  let self1 := snd (set_letter_bits (Z.log2_up a) self) in
  2 <= a <= 4 -> 1 <= wl <= 16 ->
  exists bps,
    breakpoint_table a = Some bps /\
    _transform zscore X self =
    match np_zeros (n_instances X) nw with
    | Raise e => (Raise e, self)
    | Ok zeros =>
        match instances_loop zscore (series X) (window_size self) nw wl
                bps (Z.log2_up a) 0 zeros with
        | Raise e => (Raise e, self1)
        | Ok all_words => transform_tail self1 all_words
        end
    end.
Proof.
  intros a wl nw self1 Ha Hwl.
  destruct (valid_alphabet a Ha) as (bps & Htab & _ & _ & Hmod & _).
  exists bps. split; [exact Htab|].
  rewrite transform_run. cbn zeta. fold a wl nw.
  rewrite (range_check_passes 2 4 a Ha), (range_check_passes 1 16 wl Hwl).
  rewrite Htab, Hmod. reflexivity.
Qed.

(** X7.  In a valid configuration every letter of every word of the output
    is a symbol index of the alphabet: the [word_length] groups of
    [letter_bits] bits of an entry are all below [alphabet_size], also for
    the alphabet of three symbols, whose letters have two bits. *)
Theorem letters_are_symbols (zscore : list float -> list float) (X : panel)
    (self self' : SAX_FAST) (out : output) :
  2 <= alphabet_size self <= 4 ->
  1 <= word_length self <= 16 ->
  _transform zscore X self = (Ok out, self') ->
  forall i j,
    letters_valid (alphabet_size self) (Z.log2_up (alphabet_size self))
      (word_length self) (output_get out i j).
Proof.
  intros Ha Hwl Hrun i j.
  destruct (transform_valid_run zscore X self Ha Hwl) as (bps & Htab & Heq).
  rewrite Heq in Hrun. clear Heq.
  destruct (valid_alphabet _ Ha) as (bps' & Htab' & Hlen & _ & _ & Hlb & _).
  rewrite Htab in Htab'. injection Htab' as <-.
  destruct (valid_words_below _ _ bps Ha Hwl Htab) as [Hbound Hrange].
  set (a := alphabet_size self) in *. set (wl := word_length self) in *.
  set (lb := Z.log2_up a) in *.
  set (P := fun w => 0 <= w < 2 ^ 32 /\ letters_valid a lb wl w).
  assert (H0 : P 0).
  { split; [lia|]. unfold letters_valid. rewrite unpack_symbols_zero.
    apply Forall_replicate. lia. }
  assert (Hgen : forall pattern w,
    _generate_words pattern wl bps lb = Ok w -> P w).
  { intros pattern w Hw. split.
    - pose proof (Hrange pattern w Hw). lia.
    - rewrite <- Hlen. apply (generate_words_letters pattern); try lia.
      + nia.
      + rewrite Hlen. subst lb.
        pose proof (Z.log2_up_spec a ltac:(lia)). lia.
      + exact Hw. }
  destruct (np_zeros _ _) as [zeros|e] eqn:Hzeros; [|discriminate].
  assert (Hz : Forall (Forall P) (rows zeros)).
  { unfold np_zeros in Hzeros. destruct (_ <? 0); [discriminate|].
    injection Hzeros as <-. cbn. apply Forall_replicate, Forall_replicate, H0. }
  destruct (instances_loop _ _ _ _ _ _ _ _ _) as [m|e] eqn:Hloop;
    [|discriminate].
  pose proof (instances_loop_Forall zscore P _ _ _ _ _ _ _ _ _ Hgen Hz Hloop)
    as Hm.
  unfold transform_tail in Hrun. injection Hrun as Hout _. subst out.
  set (m' := if remove_repeat_words _ then _ else m).
  assert (Hm' : Forall (Forall P) (rows m')).
  { subst m'. destruct (remove_repeat_words _); [|exact Hm]. cbn.
    unfold _remove_repeating_words. apply Forall_fmap.
    eapply Forall_impl; [exact Hm|]. intros row Hrow. cbn.
    apply remove_repeating_row_Forall; assumption. }
  assert (Hij : P (get_item m' i j)).
  { unfold get_item. destruct (rows m' !! i) as [row|] eqn:Hi; cbn; [|exact H0].
    destruct (row !! j) as [w|] eqn:Hj; cbn; [|exact H0].
    eapply Forall_lookup_1 in Hm'; [|exact Hi].
    eapply Forall_lookup_1 in Hm'; [|exact Hj]. exact Hm'. }
  cbn [return_pandas_data_series return_sparse set_letter_bits snd].
  destruct (return_pandas_data_series self); [exact (proj2 Hij)|].
  destruct (return_sparse self); [|exact (proj2 Hij)].
  cbn [output_get]. rewrite csr_get_of_dense. unfold to_uint32.
  rewrite Z.mod_small by exact (proj1 Hij). exact (proj2 Hij).
Qed.

Lemma letters_are_symbols_witness :
  (2 <= alphabet_size skew_sax <= 4 /\ 1 <= word_length skew_sax <= 16 /\
   _transform zscore_ref skew_panel skew_sax =
     (Ok (Dense (mk_int_matrix 1 1 [[40]])),
      snd (set_letter_bits 2 skew_sax))) /\
  letters_valid 3 2 3 40.
Proof.
  assert (H : 2 <= alphabet_size skew_sax <= 4 /\
              1 <= word_length skew_sax <= 16 /\
              _transform zscore_ref skew_panel skew_sax =
                (Ok (Dense (mk_int_matrix 1 1 [[40]])),
                 snd (set_letter_bits 2 skew_sax))).
  { split; [cbn; lia|]. split; [cbn; lia|]. vm_compute. reflexivity. }
  split; [exact H|]. destruct H as (Ha & Hwl & Hrun).
  exact (letters_are_symbols zscore_ref skew_panel skew_sax _ _ Ha Hwl Hrun
           0%nat 0%nat).
Defined.

(** X6.  The flag [return_pandas_data_series] comes before [return_sparse]:
    with it the call returns the frame, whatever [return_sparse] is, and the
    bags of the frame are the rows of the dense matrix that the call returns
    with both flags off; the two calls raise the same exception if one of
    them raises. *)
Theorem frame_dense_agree (zscore : list float -> list float) (X : panel)
    (self : SAX_FAST) :
  same_outcome
    (fun frame dense =>
       match frame, dense with
       | Frame bags, Dense d => bags = rows d
       | _, _ => False
       end)
    (fst (_transform zscore X (with_return_pandas true self)))
    (fst (_transform zscore X
            (with_return_pandas false (with_return_sparse false self)))).
Proof.
  rewrite !transform_run. cbn zeta.
  cbn [with_return_pandas with_return_sparse alphabet_size word_length
       window_size].
  destruct ((alphabet_size self <? 2) || (alphabet_size self >? 4));
    [reflexivity|].
  destruct ((word_length self <? 1) || (word_length self >? 16));
    [reflexivity|].
  destruct (breakpoint_table (alphabet_size self)); [|reflexivity].
  destruct (np_zeros _ _); [|reflexivity].
  destruct (instances_loop _ _ _ _ _ _ _ _ _); [|reflexivity].
  unfold transform_tail.
  cbn [fst set_letter_bits snd with_return_pandas with_return_sparse
       remove_repeat_words return_pandas_data_series return_sparse
       same_outcome].
  reflexivity.
Qed.

(** X5.  What a call of [_transform] does to the transformer.  The
    parameters are never changed.  When the call returns, [letter_bits] is
    [ceil(log2(alphabet_size))] and the output is a form of a word matrix
    [m]; [words] is that matrix (after the suppression, when it is asked
    for) if [save_words] is set, and unchanged if not.  When the call raises,
    [words] is unchanged, and [letter_bits] is unchanged or already set. *)
Theorem transform_state (zscore : list float -> list float) (X : panel)
    (self : SAX_FAST) :
  let r := fst (_transform zscore X self) in
  let self' := snd (_transform zscore X self) in
  (word_length self' = word_length self /\
   alphabet_size self' = alphabet_size self /\
   window_size self' = window_size self /\
   remove_repeat_words self' = remove_repeat_words self /\
   return_sparse self' = return_sparse self /\
   save_words self' = save_words self /\
   return_pandas_data_series self' = return_pandas_data_series self) /\
  match r with
  | Ok out =>
      letter_bits self' = Z.log2_up (alphabet_size self) /\
      exists m,
        out = rendered self m /\
        words self' = if save_words self then rows m else words self
  | Raise e =>
      words self' = words self /\
      (letter_bits self' = letter_bits self \/
       letter_bits self' = Z.log2_up (alphabet_size self))
  end.
Proof.
  cbn zeta. rewrite transform_run. cbn zeta.
  destruct ((alphabet_size self <? 2) || (alphabet_size self >? 4)) eqn:Ha;
    [cbn; auto 10|].
  destruct ((word_length self <? 1) || (word_length self >? 16));
    [cbn; auto 10|].
  apply orb_false_iff in Ha as [Ha1 Ha2]. rewrite Z.gtb_ltb in Ha2.
  apply Z.ltb_ge in Ha1, Ha2.
  destruct (valid_alphabet (alphabet_size self) ltac:(lia))
    as (bps & -> & _ & _ & -> & _).
  destruct (np_zeros _ _); [|cbn; auto 10].
  destruct (instances_loop _ _ _ _ _ _ _ _ _) as [m|e]; [|cbn; auto 10].
  unfold transform_tail, rendered.
  cbn [fst snd set_letter_bits set_words remove_repeat_words save_words
       return_pandas_data_series return_sparse word_length alphabet_size
       window_size letter_bits words].
  split.
  - destruct (save_words self); cbn; auto 10.
  - split; [destruct (save_words self); reflexivity|].
    eexists. split; [reflexivity|].
    destruct (save_words self); reflexivity.
Qed.

(** ** The word matrix of a call *)

(** The quotient of two positive integers below [2^52] is a positive
    binary64 number. *)
Lemma div_ints_finite (n k : Z) :
  1 <= n < 2 ^ 52 -> 1 <= k < 2 ^ 52 ->
  exists M E, F64.div (F64.of_Z n) (F64.of_Z k) = S754_finite false M E.
Proof.
  intros Hn Hk.
  destruct (of_Z_normal n ltac:(lia)) as (mn & en & -> & Hmn & Hen & Hvn).
  destruct (of_Z_normal k ltac:(lia)) as (mk & ek & -> & Hmk & Hek & Hvk).
  unfold F64.div, F64.prec, F64.emax. cbn [SFdiv xorb].
  rewrite div_core by assumption.
  set (l := new_location _ _).
  set (q := Zpos mn * 2 ^ 53 / Zpos mk) in *.
  assert (Hq : 2 ^ 52 <= q < 2 ^ 54).
  { split.
    - apply Z.div_le_lower_bound; [lia|].
      assert (Zpos mk * 2 ^ 52 <= 2 ^ 53 * 2 ^ 52)
        by (apply Z.mul_le_mono_nonneg_r; lia).
      assert (2 ^ 52 * 2 ^ 53 <= Zpos mn * 2 ^ 53)
        by (apply Z.mul_le_mono_nonneg_r; lia).
      lia.
    - apply Z.div_lt_upper_bound; [lia|].
      assert (Zpos mn * 2 ^ 53 < 2 ^ 53 * 2 ^ 53)
        by (apply Z.mul_lt_mono_pos_r; lia).
      assert (2 ^ 52 * 2 ^ 54 <= Zpos mk * 2 ^ 54)
        by (apply Z.mul_le_mono_nonneg_r; lia).
      lia. }
  destruct q as [|pq|pq] eqn:Hpq; try lia.
  destruct (Z.lt_ge_cases (Zpos pq) (2 ^ 53)) as [H53|H54].
  - destruct (round_aux_53 pq (en - ek - 53) l ltac:(lia) ltac:(lia))
      as (M & E & -> & _). exists M, E. reflexivity.
  - destruct (round_aux_54 pq (en - ek - 53) l ltac:(lia) ltac:(lia))
      as (M & E & -> & _). exists M, E. reflexivity.
Qed.

Lemma div_zero_int (k : Z) :
  1 <= k < 2 ^ 52 -> F64.div (F64.of_Z 0) (F64.of_Z k) = F64.zero.
Proof.
  intros Hk.
  destruct (of_Z_normal k ltac:(lia)) as (mk & ek & -> & _). reflexivity.
Qed.

(** ** Windows shorter than the word *)

(** A step stores in the slot [current_frame], so with as many slots left as
    samples no store leaves the row. *)
Lemma paa_step_short (fl : float) (st : paa_state) (x : float) :
  F64.is_zero fl = false ->
  (current_frame st < length (data st))%nat ->
  exists st',
    paa_step fl st x = Ok st' /\
    length (data st') = length (data st) /\
    (current_frame st' <= S (current_frame st))%nat.
Proof.
  intros Hfl Hcf. unfold paa_step, checked_div, paa_store. rewrite Hfl.
  destruct (F64.gtb _ _); destruct (F64.eqb _ fl); cbn;
    rewrite ?decide_True by assumption;
    eexists; (split; [reflexivity|]); cbn; rewrite ?length_insert; lia.
Qed.

Lemma paa_loop_short (fl : float) (series : list float) (st : paa_state) :
  F64.is_zero fl = false ->
  (current_frame st + length series <= length (data st))%nat ->
  exists st',
    paa_loop fl series st = Ok st' /\
    length (data st') = length (data st) /\
    (current_frame st' <= current_frame st + length series)%nat.
Proof.
  intros Hfl. revert st.
  induction series as [|x rest IH]; intros st Hcf; cbn [paa_loop length] in *.
  - exists st. split; [reflexivity|]. lia.
  - destruct (paa_step_short fl st x Hfl ltac:(lia)) as (st1 & -> & Hd & Hc).
    cbn [mbind result_bind].
    destruct (IH st1 ltac:(lia)) as (st' & -> & Hd' & Hc').
    exists st'. split; [reflexivity|]. lia.
Qed.

Lemma paa_row_short (k : Z) (series : list float) :
  1 <= Z.of_nat (length series) <= k -> k < 2 ^ 52 ->
  exists pattern, paa_row k series = Ok pattern.
Proof.
  intros Hn Hk. unfold paa_row.
  replace (k =? 0) with false by (symmetry; apply Z.eqb_neq; lia).
  destruct (div_ints_finite (Z.of_nat (length series)) k ltac:(lia) ltac:(lia))
    as (M & E & ->).
  set (st0 := mk_paa_state _ _ _ _).
  destruct (paa_loop_short (S754_finite false M E) series st0 eq_refl)
    as (st & -> & Hd & Hc).
  { cbn. rewrite length_replicate. lia. }
  cbn [mbind result_bind]. cbn in Hd, Hc. rewrite length_replicate in Hd.
  destruct (_ =? k - 1) eqn:Hflush; [|eexists; reflexivity].
  apply Z.eqb_eq in Hflush.
  unfold checked_div, paa_store. cbn [F64.is_zero mbind result_bind].
  rewrite decide_True by lia. eexists. reflexivity.
Qed.

Lemma paa_row_closed_form (k : Z) (series : list float) :
  1 <= k <= Z.of_nat (length series) ->
  Z.of_nat (length series) < 2 ^ 52 ->
  paa_row k series = Ok (paa_segments k series).
Proof.
  intros Hk Hn.
  destruct (frame_length_schedule _ k Hk Hn)
    as (M & E & Hfl & HM & HE & Hupper & Hlower).
  assert (Hkn : Z.of_nat (Z.to_nat k) = k) by lia.
  unfold paa_segments. rewrite Hfl. rewrite <- Hkn at 1.
  apply paa_row_segments; rewrite ?Hkn; try assumption; lia.
Qed.

(** A window that is not empty is compressed without an exception. *)
Lemma paa_row_ok (k : Z) (series : list float) :
  1 <= k < 2 ^ 52 -> 1 <= Z.of_nat (length series) < 2 ^ 52 ->
  exists pattern,
    paa_row k series = Ok pattern /\ length pattern = Z.to_nat k.
Proof.
  intros Hk Hn.
  assert (Hok : exists pattern, paa_row k series = Ok pattern).
  { destruct (Z.le_gt_cases k (Z.of_nat (length series))) as [Hle|Hgt].
    - eexists. apply paa_row_closed_form; lia.
    - apply paa_row_short; lia. }
  destruct Hok as [pattern Hp]. exists pattern. split; [exact Hp|].
  eapply paa_row_length, Hp.
Qed.

Lemma paa_row_empty (k : Z) :
  1 <= k < 2 ^ 52 ->
  paa_row k [] =
  if k =? 1 then Raise ZeroDivisionError
  else Ok (replicate (Z.to_nat k) F64.zero).
Proof.
  intros Hk. unfold paa_row. cbn [length Z.of_nat].
  replace (k =? 0) with false by (symmetry; apply Z.eqb_neq; lia).
  rewrite div_zero_int by assumption. cbn [paa_loop mbind result_bind].
  cbn [current_frame Z.of_nat].
  destruct (Z.eqb_spec k 1) as [->|Hne].
  - reflexivity.
  - change (Z.of_nat 0) with 0.
    replace (0 =? k - 1) with false by (symmetry; apply Z.eqb_neq; lia).
    reflexivity.
Qed.

Lemma set_item_ok (m : int_matrix) (i n : nat) (v : Z) (row : list Z) :
  rows m !! i = Some row -> (n < length row)%nat ->
  set_item m i n v =
  Ok (mk_int_matrix (nrows m) (ncols m) (<[i := <[n := v]> row]> (rows m))).
Proof.
  intros Hi Hn. unfold set_item. rewrite Hi, decide_True by assumption.
  reflexivity.
Qed.

(** The words of one instance are written side by side into its row. *)
Lemma words_loop_ok (wl : Z) (bps : list float) (lb : Z)
    (patterns : list (list float)) (ws : list Z) (i : nat) :
  Forall2 (fun p w => _generate_words p wl bps lb = Ok w) patterns ws ->
  forall (n : nat) (m : int_matrix) (row : list Z),
    rows m !! i = Some row -> (n + length patterns <= length row)%nat ->
    words_loop patterns wl bps lb i n m =
    Ok (mk_int_matrix (nrows m) (ncols m)
          (<[i := take n row ++ ws ++ drop (n + length ws) row]> (rows m))).
Proof.
  induction 1 as [|p w patterns ws Hw Hrest IH]; intros n m row Hi Hn.
  - cbn. rewrite Nat.add_0_r, take_drop, list_insert_id by assumption.
    destruct m; reflexivity.
  - cbn [words_loop length] in *. rewrite Hw. cbn [mbind result_bind].
    rewrite (set_item_ok m i n w row Hi) by lia. cbn [mbind result_bind].
    assert (Hi' : (i < length (rows m))%nat) by (eapply lookup_lt_Some, Hi).
    rewrite (IH (S n) _ (<[n := w]> row)); cbn [rows nrows ncols].
    + f_equal. f_equal. rewrite list_insert_insert_eq. f_equal.
      rewrite drop_insert_lt by lia.
      assert (Hn' : (n < length row)%nat) by lia.
      rewrite (take_S_r (<[n:=w]> row) n w)
        by (apply list_lookup_insert_eq; lia).
      rewrite take_insert_ge by lia.
      rewrite <- app_assoc. cbn [app].
      replace (S n + length ws)%nat with (n + S (length ws))%nat by lia.
      reflexivity.
    + apply list_lookup_insert_eq, Hi'.
    + rewrite length_insert. lia.
Qed.

Lemma perform_paa_ok (wl : Z) (X : list (list float))
    (patterns : list (list float)) :
  0 <= wl ->
  Forall2 (fun s p => paa_row wl s = Ok p) X patterns ->
  _perform_paa_along_dim X wl = Ok patterns.
Proof.
  intros Hwl H. unfold _perform_paa_along_dim.
  replace (wl <? 0) with false by (symmetry; apply Z.ltb_ge; lia).
  induction H as [|s p X patterns Hp Hrest IH]; [reflexivity|].
  cbn [mapM]. rewrite Hp. cbn [mbind result_bind]. rewrite IH. reflexivity.
Qed.

Section Locality.

Variable zscore : list float -> list float.

Lemma window_words_patterns (wl : Z) (bps : list float) (lb : Z)
    (wins : list (list float)) (ws : list Z) :
  0 <= wl ->
  Forall2 (fun win w => window_word zscore wl bps lb win = Ok w) wins ws ->
  exists patterns,
    _perform_paa_along_dim (map zscore wins) wl = Ok patterns /\
    Forall2 (fun p w => _generate_words p wl bps lb = Ok w) patterns ws.
Proof.
  intros Hwl H.
  enough (exists patterns,
    Forall2 (fun s p => paa_row wl s = Ok p) (map zscore wins) patterns /\
    Forall2 (fun p w => _generate_words p wl bps lb = Ok w) patterns ws)
    as (patterns & Hp & Hw).
  { exists patterns. split; [apply perform_paa_ok; assumption | exact Hw]. }
  induction H as [|win w wins ws Hw Hrest (patterns & Hp & Hws)].
  - exists []. split; constructor.
  - unfold window_word in Hw.
    destruct (paa_row wl (zscore win)) as [p|e] eqn:Hrow; [|discriminate].
    cbn in Hw. exists (p :: patterns). split; constructor; assumption.
Qed.

(** The loop over the instances fills the rows one after the other, each
    with the words of the windows of its own series. *)
Lemma instances_loop_ok (ws nw wl : Z) (bps : list float) (lb : Z) (c : nat)
    (X : list (list float)) (R : list (list Z)) :
  0 <= wl ->
  Forall2
    (fun s r =>
       length r = c /\
       Forall2 (fun win w => window_word zscore wl bps lb win = Ok w)
         (sliding_windows ws nw s) r) X R ->
  forall (i : nat) (m : int_matrix),
    Forall (fun row => length row = c) (rows m) ->
    (i + length X <= length (rows m))%nat ->
    instances_loop zscore X ws nw wl bps lb i m =
    Ok (mk_int_matrix (nrows m) (ncols m)
          (take i (rows m) ++ R ++ drop (i + length R) (rows m))).
Proof.
  intros Hwl H.
  induction H as [|s r X R [Hc Hr] Hrest IH]; intros i m Hm Hi.
  - cbn. rewrite Nat.add_0_r, take_drop. destruct m; reflexivity.
  - cbn [instances_loop length] in *.
    destruct (window_words_patterns wl bps lb _ r Hwl Hr) as (ps & -> & Hps).
    cbn [mbind result_bind].
    destruct (lookup_lt_is_Some_2 (rows m) i ltac:(lia)) as [row Hrow].
    pose proof (Forall_lookup_1 _ _ _ _ Hm Hrow) as Hlen. cbn in Hlen.
    pose proof (Forall2_length _ _ _ Hps) as Hpl.
    rewrite (words_loop_ok wl bps lb ps r i Hps 0 m row Hrow) by lia.
    cbn [mbind result_bind take app Nat.add].
    rewrite (drop_ge row) by lia. rewrite app_nil_r.
    rewrite IH; cbn [rows nrows ncols].
    + f_equal. f_equal.
      rewrite (take_S_r _ i r)
        by (apply list_lookup_insert_eq; eapply lookup_lt_Some, Hrow).
      rewrite take_insert_ge, drop_insert_lt by lia.
      rewrite <- app_assoc. cbn [app].
      replace (S i + length R)%nat with (i + S (length R))%nat by lia.
      reflexivity.
    + apply Forall_insert; assumption.
    + rewrite length_insert. lia.
Qed.

End Locality.

Lemma Forall_exists_Forall2 {A B : Type} (P : A -> B -> Prop) (l : list A) :
  Forall (fun x => exists y, P x y) l -> exists k, Forall2 P l k.
Proof.
  induction 1 as [|x l [y Hy] _ [k Hk]].
  - exists []. constructor.
  - exists (y :: k). constructor; assumption.
Qed.

Lemma sliding_windows_length (ws nw : Z) (s : list float) :
  length (sliding_windows ws nw s) = Z.to_nat nw.
Proof. unfold sliding_windows. rewrite length_map, length_seq. reflexivity. Qed.

Lemma sliding_windows_lookup (ws nw : Z) (s : list float) (j : nat) :
  (j < Z.to_nat nw)%nat ->
  sliding_windows ws nw s !! j = Some (take (Z.to_nat ws) (drop j s)).
Proof.
  intros Hj. unfold sliding_windows.
  rewrite list_lookup_fmap, lookup_seq_lt by assumption. reflexivity.
Qed.

(** Every window has [window_size] samples, or none when [window_size] is
    not positive. *)
Lemma sliding_windows_sizes (ws : Z) (s : list float) :
  let nw := Z.of_nat (length s) - ws + 1 in
  Forall (fun win => Z.of_nat (length win) = Z.max 0 ws /\
                     (length win <= length s)%nat)
    (sliding_windows ws nw s).
Proof.
  cbn zeta. unfold sliding_windows. apply Forall_fmap, Forall_forall.
  intros j Hj. apply elem_of_seq in Hj. cbn.
  rewrite length_take, length_drop. lia.
Qed.

Section Outcome.

Variable zscore : list float -> list float.
Hypothesis zscore_length : forall w, length (zscore w) = length w.

Lemma window_word_ok (wl : Z) (bps : list float) (lb : Z)
    (window : list float) :
  1 <= wl < 2 ^ 52 ->
  1 <= Z.of_nat (length window) < 2 ^ 52 \/ (window = [] /\ 2 <= wl) ->
  exists w, window_word zscore wl bps lb window = Ok w.
Proof.
  intros Hwl Hwin. unfold window_word.
  assert (Hp : exists pattern,
    paa_row wl (zscore window) = Ok pattern /\ length pattern = Z.to_nat wl).
  { destruct Hwin as [Hlen|[-> Hwl2]].
    - apply paa_row_ok; [assumption|]. rewrite zscore_length. exact Hlen.
    - pose proof (zscore_length []) as Hz.
      destruct (zscore []); [|discriminate].
      rewrite paa_row_empty by assumption.
      replace (wl =? 1) with false by (symmetry; apply Z.eqb_neq; lia).
      eexists. split; [reflexivity|]. apply length_replicate. }
  destruct Hp as (pattern & -> & Hlen). cbn [mbind result_bind].
  rewrite generate_words_pack by lia. eexists. reflexivity.
Qed.

(** The word matrix that the loop over the instances leaves: row [i] holds
    the words of the windows of series [i]. *)
Lemma instances_loop_words (X : panel) (ws wl : Z) (bps : list float)
    (lb : Z) :
  let nw := Z.of_nat (series_length X) - ws + 1 in
  1 <= wl < 2 ^ 52 -> well_formed X ->
  Z.of_nat (series_length X) < 2 ^ 52 -> 0 <= nw ->
  (ws <= 0 -> wl = 1 -> series X = []) ->
  exists R,
    instances_loop zscore (series X) ws nw wl bps lb 0
      (mk_int_matrix (n_instances X) (Z.to_nat nw)
         (replicate (n_instances X) (replicate (Z.to_nat nw) 0)))
    = Ok (mk_int_matrix (n_instances X) (Z.to_nat nw) R) /\
    Forall2
      (fun s r =>
         length r = Z.to_nat nw /\
         Forall2 (fun win w => window_word zscore wl bps lb win = Ok w)
           (sliding_windows ws nw s) r) (series X) R.
Proof.
  intros nw Hwl [Hn Hlen] Hsl Hnw Hzero.
  assert (HR : exists R,
    Forall2
      (fun s r =>
         length r = Z.to_nat nw /\
         Forall2 (fun win w => window_word zscore wl bps lb win = Ok w)
           (sliding_windows ws nw s) r) (series X) R).
  { apply Forall_exists_Forall2, Forall_forall. intros s Hin.
    pose proof (proj1 (Forall_forall _ _) Hlen s Hin) as Hs. cbn in Hs.
    assert (Hex : exists r,
      Forall2 (fun win w => window_word zscore wl bps lb win = Ok w)
        (sliding_windows ws nw s) r).
    { apply Forall_exists_Forall2.
      pose proof (sliding_windows_sizes ws s) as Hsizes. cbn zeta in Hsizes.
      rewrite Hs in Hsizes. fold nw in Hsizes.
      eapply Forall_impl; [exact Hsizes|]. intros win [Hwin Hle]. cbn beta.
      apply window_word_ok; [assumption|].
      destruct (Z.le_gt_cases ws 0) as [Hneg|Hpos].
      - right. split; [destruct win; [reflexivity | cbn in Hwin; lia]|].
        destruct (Z.eq_dec wl 1) as [H1|H1]; [|lia].
        exfalso. rewrite (Hzero Hneg H1) in Hin. inversion Hin.
      - left. lia. }
    destruct Hex as [r Hr]. exists r. split; [|exact Hr].
    apply Forall2_length in Hr. rewrite <- Hr.
    apply sliding_windows_length. }
  destruct HR as [R HR]. exists R. split; [|exact HR].
  pose proof (Forall2_length _ _ _ HR) as HlenR.
  rewrite (instances_loop_ok zscore ws nw wl bps lb (Z.to_nat nw)
             (series X) R ltac:(lia) HR); cbn [rows nrows ncols].
  - rewrite take_0, drop_ge by (rewrite length_replicate; lia).
    rewrite app_nil_r. reflexivity.
  - apply Forall_replicate, length_replicate.
  - rewrite length_replicate. lia.
Qed.

End Outcome.

Lemma zscore_ref_length (w : list float) : length (zscore_ref w) = length w.
Proof.
  unfold zscore_ref. destruct (is_constant w).
  - apply length_replicate.
  - rewrite !length_map. reflexivity.
Qed.

Lemma transform_tail_shape (self : SAX_FAST) (m : int_matrix) (n c : nat) :
  nrows m = n -> ncols m = c -> length (rows m) = n ->
  Forall (fun row => length row = c) (rows m) ->
  exists out,
    fst (transform_tail self m) = Ok out /\ has_shape out n c.
Proof.
  intros Hn Hc Hlen Hrows. unfold transform_tail. cbn [fst].
  set (m' := if remove_repeat_words self then _ else m).
  assert (Hm' : nrows m' = n /\ ncols m' = c /\ length (rows m') = n /\
                Forall (fun row => length row = c) (rows m')).
  { subst m'. destruct (remove_repeat_words self); [|auto]. cbn.
    unfold _remove_repeating_words. rewrite length_map.
    repeat split; try assumption.
    apply Forall_fmap. eapply Forall_impl; [exact Hrows|].
    intros row Hrow. cbn. rewrite remove_repeating_row_length. exact Hrow. }
  destruct Hm' as (Hn' & Hc' & Hlen' & Hrows').
  eexists. split; [reflexivity|].
  destruct (return_pandas_data_series self); [cbn; auto|].
  destruct (return_sparse self); cbn; [|auto].
  rewrite length_map. auto.
Qed.

Section Runs.

Variable zscore : list float -> list float.
Hypothesis zscore_length : forall w, length (zscore w) = length w.

(** A call with a valid configuration and room for the windows: the loop
    leaves the matrix of the words of the windows, and the statements after
    the loop run on it. *)
Lemma transform_matrix (X : panel) (self : SAX_FAST) :
  let a := alphabet_size self in
  let wl := word_length self in
  let ws := window_size self in
  let nw := Z.of_nat (series_length X) - ws + 1 in
  2 <= a <= 4 -> 1 <= wl <= 16 -> well_formed X ->
  Z.of_nat (series_length X) < 2 ^ 52 -> 0 <= nw ->
  (ws <= 0 -> wl = 1 -> series X = []) ->
  exists bps R,
    breakpoint_table a = Some bps /\
    _transform zscore X self =
      transform_tail (snd (set_letter_bits (Z.log2_up a) self))
        (mk_int_matrix (n_instances X) (Z.to_nat nw) R) /\
    Forall2
      (fun s r =>
         length r = Z.to_nat nw /\
         Forall2
           (fun win w => window_word zscore wl bps (Z.log2_up a) win = Ok w)
           (sliding_windows ws nw s) r) (series X) R.
Proof.
  intros a wl ws nw Ha Hwl Hwf Hsl Hnw Hzero.
  destruct (valid_alphabet a Ha) as (bps & Htab & _ & _ & Hmod & _).
  destruct (instances_loop_words zscore zscore_length X ws wl bps
              (Z.log2_up a) ltac:(lia) Hwf Hsl Hnw Hzero) as (R & Hloop & HR).
  exists bps, R. split; [exact Htab|]. split; [|exact HR].
  rewrite transform_run. cbn zeta. fold a wl ws nw.
  rewrite (range_check_passes 2 4 a Ha), (range_check_passes 1 16 wl Hwl).
  rewrite Htab. unfold np_zeros.
  replace (nw <? 0) with false by (symmetry; apply Z.ltb_ge; lia).
  cbv beta iota zeta. fold a. rewrite Hmod. fold ws nw wl.
  fold nw in Hloop. rewrite Hloop. reflexivity.
Qed.

End Runs.

Lemma Forall2_rows_lookup (P : list float -> Z -> Prop) (c : nat)
    (Q : list float -> list (list float))
    (X : list (list float)) (R : list (list Z)) (i j : nat)
    (s : list float) (win : list float) :
  Forall2 (fun s r => length r = c /\ Forall2 P (Q s) r) X R ->
  X !! i = Some s -> Q s !! j = Some win ->
  exists w, R !! i ≫= (fun row => row !! j) = Some w /\ P win w.
Proof.
  intros HR Hi Hj.
  destruct (Forall2_lookup_l _ _ _ _ _ HR Hi) as (r & Hr & _ & Hwins).
  destruct (Forall2_lookup_l _ _ _ _ _ Hwins Hj) as (w & Hw & HP).
  exists w. rewrite Hr. cbn. split; assumption.
Qed.

(** X1.  The outcome of a call with a valid configuration on a batch of
    [n_instances] series of [series_length] samples (fewer than [2^52]),
    for every row-wise normalization that keeps the length of a row, is
    decided by the shapes alone.  With [nw = series_length - window_size + 1]:
    a negative [nw] raises the [ValueError] of the allocation; windows
    without samples ([window_size <= 0]) with [word_length = 1] and at least
    one instance raise [ZeroDivisionError], from the division by the frame
    length [0 / 1]; every other call returns an output of [n_instances] rows
    and [nw] columns.  So the call raises no [KeyError], no [IndexError] and
    makes no access outside an array. *)
Theorem transform_outcome (zscore : list float -> list float) (X : panel)
    (self : SAX_FAST) :
  2 <= alphabet_size self <= 4 -> 1 <= word_length self <= 16 ->
  well_formed X -> (forall w, length (zscore w) = length w) ->
  Z.of_nat (series_length X) < 2 ^ 52 ->
  let nw := Z.of_nat (series_length X) - window_size self + 1 in
  let r := fst (_transform zscore X self) in
  (nw < 0 -> r = Raise (ValueError "negative dimensions are not allowed")) /\
  (0 <= nw -> window_size self <= 0 -> word_length self = 1 ->
   (1 <= n_instances X)%nat -> r = Raise ZeroDivisionError) /\
  (0 <= nw ->
   (window_size self <= 0 -> word_length self = 1 -> n_instances X = 0%nat) ->
   exists out, r = Ok out /\ has_shape out (n_instances X) (Z.to_nat nw)) /\
  (forall e, r = Raise e ->
     e = ValueError "negative dimensions are not allowed" \/
     e = ZeroDivisionError).
Proof.
  intros Ha Hwl Hwf Hz Hsl nw r.
  destruct (valid_alphabet _ Ha) as (bps & Htab & _ & _ & Hmod & _).
  enough (Hcases :
    (nw < 0 -> r = Raise (ValueError "negative dimensions are not allowed")) /\
    (0 <= nw -> window_size self <= 0 -> word_length self = 1 ->
     (1 <= n_instances X)%nat -> r = Raise ZeroDivisionError) /\
    (0 <= nw ->
     (window_size self <= 0 -> word_length self = 1 ->
      n_instances X = 0%nat) ->
     exists out, r = Ok out /\ has_shape out (n_instances X) (Z.to_nat nw))).
  { destruct Hcases as (Hneg & Hzero & Hok).
    split; [exact Hneg|]. split; [exact Hzero|]. split; [exact Hok|].
    intros e He.
    destruct (Z.lt_ge_cases nw 0) as [Hlt|Hge].
    - left. rewrite (Hneg Hlt) in He. congruence.
    - destruct (decide (window_size self <= 0 /\ word_length self = 1 /\
                        (1 <= n_instances X)%nat)) as [(H1 & H2 & H3)|Hnot].
      + right. rewrite (Hzero Hge H1 H2 H3) in He. congruence.
      + destruct (Hok Hge) as (out & Hout & _); [lia|].
        rewrite Hout in He. discriminate. }
  split; [|split].
  - intros Hneg. subst r. rewrite transform_run. cbn zeta.
    rewrite (range_check_passes 2 4 _ Ha), (range_check_passes 1 16 _ Hwl).
    rewrite Htab. unfold np_zeros. fold nw.
    replace (nw <? 0) with true by (symmetry; apply Z.ltb_lt; lia).
    reflexivity.
  - intros Hnw Hws H1 Hn. subst r. rewrite transform_run. cbn zeta.
    rewrite (range_check_passes 2 4 _ Ha), (range_check_passes 1 16 _ Hwl).
    rewrite Htab. unfold np_zeros. fold nw.
    replace (nw <? 0) with false by (symmetry; apply Z.ltb_ge; lia).
    destruct Hwf as [Hlen _].
    destruct (series X) as [|s rest] eqn:HX; [cbn in Hlen; lia|].
    cbn [instances_loop].
    assert (Hwin : exists wins,
      sliding_windows (window_size self) nw s = [] :: wins).
    { unfold sliding_windows.
      destruct (Z.to_nat nw) as [|k] eqn:Hk; [lia|].
      replace (Z.to_nat (window_size self)) with 0%nat by lia.
      cbn. eexists. reflexivity. }
    destruct Hwin as [wins ->]. cbn [map].
    pose proof (Hz []) as Hz0. destruct (zscore []); [|discriminate].
    unfold _perform_paa_along_dim. rewrite H1. cbn [Z.ltb Z.compare mapM].
    rewrite paa_row_empty by lia. reflexivity.
  - intros Hnw Hzero. subst r.
    destruct (transform_matrix zscore Hz X self Ha Hwl Hwf Hsl Hnw)
      as (bps' & R & _ & -> & HR).
    { intros Hws H1. destruct Hwf as [Hlen _].
      rewrite (Hzero Hws H1) in Hlen. destruct (series X); [reflexivity|].
      discriminate. }
    fold nw in HR.
    apply transform_tail_shape; cbn [nrows ncols rows]; try reflexivity.
    + apply Forall2_length in HR. destruct Hwf as [Hlen _]. lia.
    + apply Forall_forall. intros row Hrow.
      apply list_elem_of_lookup in Hrow as [i Hi].
      destruct (Forall2_lookup_r _ _ _ _ _ HR Hi) as (s & _ & Hr & _).
      exact Hr.
Qed.

(** X2.  Each entry of the word matrix is the word of its own window: for a
    valid configuration with [1 <= window_size <= series_length], the matrix
    [m] that the loop of [_transform] leaves (on which the statements after
    the loop run: suppression, saving, the form of the output) has at row [i]
    and column [j] the word that PAA and the encoder give for the normalized
    window of [window_size] samples that starts at sample [j] of series
    [i]. *)
Theorem transform_words (zscore : list float -> list float) (X : panel)
    (self : SAX_FAST) :
  2 <= alphabet_size self <= 4 -> 1 <= word_length self <= 16 ->
  well_formed X -> (forall w, length (zscore w) = length w) ->
  Z.of_nat (series_length X) < 2 ^ 52 ->
  1 <= window_size self <= Z.of_nat (series_length X) ->
  let nw := Z.to_nat (Z.of_nat (series_length X) - window_size self + 1) in
  exists bps m,
    breakpoint_table (alphabet_size self) = Some bps /\
    nrows m = n_instances X /\ ncols m = nw /\
    fst (_transform zscore X self) = fst (transform_tail self m) /\
    forall i j s,
      series X !! i = Some s -> (j < nw)%nat ->
      window_word zscore (word_length self) bps
        (Z.log2_up (alphabet_size self))
        (take (Z.to_nat (window_size self)) (drop j s))
      = Ok (get_item m i j).
Proof.
  intros Ha Hwl Hwf Hz Hsl Hws nw.
  destruct (transform_matrix zscore Hz X self Ha Hwl Hwf Hsl)
    as (bps & R & Htab & Hrun & HR); [lia | lia |].
  exists bps, (mk_int_matrix (n_instances X) nw R).
  split; [exact Htab|]. split; [reflexivity|]. split; [reflexivity|].
  split; [rewrite Hrun; reflexivity|].
  intros i j s Hi Hj.
  destruct (Forall2_rows_lookup _ _ _ _ _ i j s _ HR Hi
              (sliding_windows_lookup _ _ s j Hj)) as (w & Hw & Hword).
  unfold get_item. cbn [rows]. rewrite Hw. exact Hword.
Qed.

Lemma transform_outcome_witness :
  (2 <= alphabet_size ramp_sax <= 4 /\ 1 <= word_length ramp_sax <= 16 /\
   well_formed ramp_panel /\
   (forall w, length (zscore_ref w) = length w) /\
   Z.of_nat (series_length ramp_panel) < 2 ^ 52) /\
  exists out,
    fst (_transform zscore_ref ramp_panel ramp_sax) = Ok out /\
    has_shape out 1 5.
Proof.
  assert (H : 2 <= alphabet_size ramp_sax <= 4 /\
              1 <= word_length ramp_sax <= 16 /\
              well_formed ramp_panel /\
              (forall w, length (zscore_ref w) = length w) /\
              Z.of_nat (series_length ramp_panel) < 2 ^ 52).
  { split; [cbn; lia|]. split; [cbn; lia|].
    split; [split; [reflexivity | repeat constructor]|].
    split; [exact zscore_ref_length | cbn; lia]. }
  split; [exact H|]. destruct H as (Ha & Hwl & Hwf & Hz & Hsl).
  destruct (transform_outcome zscore_ref ramp_panel ramp_sax Ha Hwl Hwf Hz Hsl)
    as (_ & _ & Hok).
  apply Hok; cbn; lia.
Defined.

Lemma transform_words_witness :
  (2 <= alphabet_size ramp_sax <= 4 /\ 1 <= word_length ramp_sax <= 16 /\
   well_formed ramp_panel /\
   (forall w, length (zscore_ref w) = length w) /\
   Z.of_nat (series_length ramp_panel) < 2 ^ 52 /\
   1 <= window_size ramp_sax <= Z.of_nat (series_length ramp_panel)) /\
  exists bps m,
    breakpoint_table 4 = Some bps /\
    fst (_transform zscore_ref ramp_panel ramp_sax)
      = fst (transform_tail ramp_sax m) /\
    window_word zscore_ref 2 bps 2 (to_floats [3; 4; 5; 6])
      = Ok (get_item m 0 2).
Proof.
  assert (H : 2 <= alphabet_size ramp_sax <= 4 /\
              1 <= word_length ramp_sax <= 16 /\
              well_formed ramp_panel /\
              (forall w, length (zscore_ref w) = length w) /\
              Z.of_nat (series_length ramp_panel) < 2 ^ 52 /\
              1 <= window_size ramp_sax
                <= Z.of_nat (series_length ramp_panel)).
  { split; [cbn; lia|]. split; [cbn; lia|].
    split; [split; [reflexivity | repeat constructor]|].
    split; [exact zscore_ref_length|]. split; cbn; lia. }
  split; [exact H|]. destruct H as (Ha & Hwl & Hwf & Hz & Hsl & Hws).
  destruct (transform_words zscore_ref ramp_panel ramp_sax Ha Hwl Hwf Hz Hsl
              Hws) as (bps & m & Htab & _ & _ & Hrun & Hword).
  exists bps, m. split; [exact Htab|]. split; [exact Hrun|].
  apply (Hword 0%nat 2%nat (to_floats [1; 2; 3; 4; 5; 6; 7; 8]));
    [reflexivity | cbn; lia].
Defined.

(** ** Instances and windows *)

Lemma window_words_unique (f : list float -> result Z)
    (wins : list (list float)) (r r' : list Z) :
  Forall2 (fun win w => f win = Ok w) wins r ->
  Forall2 (fun win w => f win = Ok w) wins r' -> r = r'.
Proof.
  intros H. revert r'. induction H as [|win w wins r Hw Hr IH]; intros r' H';
    inversion H' as [|? w' ? r'' Hw' Hr']; subst; [reflexivity|].
  f_equal; [congruence | apply IH, Hr'].
Qed.

(** What the statements after the loop return at a place of row [i] depends
    on row [i] of the word matrix alone. *)
Lemma transform_tail_row (self : SAX_FAST) (m m' : int_matrix) (i i' : nat) :
  rows m !! i = rows m' !! i' ->
  exists out out',
    fst (transform_tail self m) = Ok out /\
    fst (transform_tail self m') = Ok out' /\
    forall j, output_get out i j = output_get out' i' j.
Proof.
  intros Hrow. unfold transform_tail. cbn [fst].
  eexists _, _. split; [reflexivity|]. split; [reflexivity|]. intros j.
  set (k := if remove_repeat_words self then _ else m).
  set (k' := if remove_repeat_words self then _ else m').
  assert (Hk : rows k !! i = rows k' !! i').
  { subst k k'. destruct (remove_repeat_words self); [|exact Hrow]. cbn.
    unfold _remove_repeating_words. rewrite !list_lookup_fmap, Hrow.
    reflexivity. }
  assert (Hget : get_item k i j = get_item k' i' j)
    by (unfold get_item; rewrite Hk; reflexivity).
  destruct (return_pandas_data_series self); [exact Hget|].
  destruct (return_sparse self); [|exact Hget].
  cbn [output_get]. rewrite !csr_get_of_dense, Hget. reflexivity.
Qed.

(** X3.  The transformer works instance by instance: a series has the same
    words, with or without suppression and in each form of the output,
    whatever the other series of the batch are and at whatever row it
    stands. *)
Theorem instancewise (zscore : list float -> list float) (X X' : panel)
    (self : SAX_FAST) (i i' : nat) (s : list float) :
  2 <= alphabet_size self <= 4 -> 1 <= word_length self <= 16 ->
  (forall w, length (zscore w) = length w) ->
  well_formed X -> well_formed X' ->
  series_length X' = series_length X ->
  Z.of_nat (series_length X) < 2 ^ 52 ->
  1 <= window_size self <= Z.of_nat (series_length X) ->
  series X !! i = Some s -> series X' !! i' = Some s ->
  exists out out',
    fst (_transform zscore X self) = Ok out /\
    fst (_transform zscore X' self) = Ok out' /\
    forall j, output_get out i j = output_get out' i' j.
Proof.
  intros Ha Hwl Hz Hwf Hwf' Hsl' Hsl Hws Hi Hi'.
  destruct (transform_matrix zscore Hz X self Ha Hwl Hwf Hsl)
    as (bps & R & Htab & -> & HR); [lia | lia |].
  destruct (transform_matrix zscore Hz X' self Ha Hwl Hwf')
    as (bps' & R' & Htab' & -> & HR'); [rewrite ?Hsl'; lia..|].
  rewrite Htab in Htab'. injection Htab' as <-. rewrite Hsl' in HR'.
  apply transform_tail_row. cbn [rows].
  destruct (Forall2_lookup_l _ _ _ _ _ HR Hi) as (r & -> & _ & Hr).
  destruct (Forall2_lookup_l _ _ _ _ _ HR' Hi') as (r' & -> & _ & Hr').
  f_equal. eapply window_words_unique; eassumption.
Qed.

Lemma instancewise_witness :
  (2 <= alphabet_size ramp_sax <= 4 /\ 1 <= word_length ramp_sax <= 16 /\
   (forall w, length (zscore_ref w) = length w) /\
   well_formed ramp_panel /\
   well_formed (mk_panel 2 8 [to_floats [0; 0; 0; 0; 10; 10; 10; 10];
                              to_floats [1; 2; 3; 4; 5; 6; 7; 8]]) /\
   Z.of_nat (series_length ramp_panel) < 2 ^ 52 /\
   1 <= window_size ramp_sax <= Z.of_nat (series_length ramp_panel)) /\
  exists out out',
    fst (_transform zscore_ref ramp_panel ramp_sax) = Ok out /\
    fst (_transform zscore_ref
           (mk_panel 2 8 [to_floats [0; 0; 0; 0; 10; 10; 10; 10];
                          to_floats [1; 2; 3; 4; 5; 6; 7; 8]]) ramp_sax)
      = Ok out' /\
    forall j, output_get out 0 j = output_get out' 1 j.
Proof.
  assert (H : 2 <= alphabet_size ramp_sax <= 4 /\
   1 <= word_length ramp_sax <= 16 /\
   (forall w, length (zscore_ref w) = length w) /\
   well_formed ramp_panel /\
   well_formed (mk_panel 2 8 [to_floats [0; 0; 0; 0; 10; 10; 10; 10];
                              to_floats [1; 2; 3; 4; 5; 6; 7; 8]]) /\
   Z.of_nat (series_length ramp_panel) < 2 ^ 52 /\
   1 <= window_size ramp_sax <= Z.of_nat (series_length ramp_panel)).
  { split; [cbn; lia|]. split; [cbn; lia|].
    split; [exact zscore_ref_length|].
    split; [split; [reflexivity | repeat constructor]|].
    split; [split; [reflexivity | repeat constructor]|].
    split; cbn; lia. }
  split; [exact H|].
  destruct H as (Ha & Hwl & Hz & Hwf & Hwf' & Hsl & Hws).
  exact (instancewise zscore_ref ramp_panel _ ramp_sax 0 1
           (to_floats [1; 2; 3; 4; 5; 6; 7; 8]) Ha Hwl Hz Hwf Hwf' eq_refl
           Hsl Hws eq_refl eq_refl).
Defined.

(** ** Windows without samples *)

Lemma Forall2_replicate_r_eq {A B : Type} (P : A -> B -> Prop) (l : list A)
    (k : list B) (c : B) :
  Forall2 (fun x y => y = c) l k -> k = replicate (length l) c.
Proof.
  induction 1 as [|x y l k -> _ IH]; [reflexivity|]. cbn. rewrite IH.
  reflexivity.
Qed.

(** X4.  With [window_size <= 0] and [word_length >= 2] the windows have no
    samples: the call returns, and every one of the
    [series_length - window_size + 1] words of every instance (before
    suppression) is the same word [c], that of [word_length] segments equal
    to zero, whatever the data. *)
Theorem empty_windows (zscore : list float -> list float) (X : panel)
    (self : SAX_FAST) :
  2 <= alphabet_size self <= 4 -> 2 <= word_length self <= 16 ->
  well_formed X -> (forall w, length (zscore w) = length w) ->
  Z.of_nat (series_length X) < 2 ^ 52 ->
  window_size self <= 0 ->
  let nw := Z.to_nat (Z.of_nat (series_length X) - window_size self + 1) in
  exists bps c,
    breakpoint_table (alphabet_size self) = Some bps /\
    _generate_words (replicate (Z.to_nat (word_length self)) F64.zero)
      (word_length self) bps (Z.log2_up (alphabet_size self)) = Ok c /\
    fst (_transform zscore X self) =
    fst (transform_tail self
           (mk_int_matrix (n_instances X) nw
              (replicate (n_instances X) (replicate nw c)))).
Proof.
  intros Ha Hwl Hwf Hz Hsl Hws nw.
  destruct (transform_matrix zscore Hz X self Ha ltac:(lia) Hwf Hsl)
    as (bps & R & Htab & Hrun & HR); [lia | lia |].
  set (wl := word_length self) in *. set (lb := Z.log2_up _) in *.
  assert (Hc : exists c,
    _generate_words (replicate (Z.to_nat wl) F64.zero) wl bps lb = Ok c).
  { rewrite generate_words_pack by (rewrite length_replicate; lia).
    eexists. reflexivity. }
  destruct Hc as [c Hc]. exists bps, c.
  split; [exact Htab|]. split; [exact Hc|].
  rewrite Hrun. fold nw in HR |- *.
  assert (Hword : window_word zscore wl bps lb [] = Ok c).
  { unfold window_word. pose proof (Hz []) as Hz0.
    destruct (zscore []); [|discriminate].
    rewrite paa_row_empty by lia.
    replace (wl =? 1) with false by (symmetry; apply Z.eqb_neq; lia).
    exact Hc. }
  assert (HRc : R = replicate (n_instances X) (replicate nw c)).
  { destruct Hwf as [Hlen _]. rewrite <- Hlen.
    apply (Forall2_replicate_r_eq (fun _ _ => True)).
    eapply Forall2_impl; [exact HR|]. intros s r [Hr Hwins]. cbn beta.
    rewrite <- Hr.
    assert (Hl : length r = length (sliding_windows (window_size self)
      (Z.of_nat (series_length X) - window_size self + 1) s))
      by (symmetry; eapply Forall2_length, Hwins).
    rewrite Hl. apply (Forall2_replicate_r_eq (fun _ _ => True)).
    apply Forall2_same_length_lookup_2; [lia|].
    intros j win w Hwin Hw.
    destruct (Forall2_lookup_l _ _ _ _ _ Hwins Hwin) as (w' & Hw' & Hok).
    rewrite Hw in Hw'. injection Hw' as <-.
    assert (win = []) as ->.
    { unfold sliding_windows in Hwin. rewrite list_lookup_fmap in Hwin.
      destruct (seq 0 _ !! j); [|discriminate]. cbn in Hwin.
      injection Hwin as <-.
      replace (Z.to_nat (window_size self)) with 0%nat by lia. reflexivity. }
    congruence. }
  rewrite HRc. reflexivity.
Qed.

Lemma empty_windows_witness :
  (2 <= alphabet_size (init 2 4 0 false false false false) <= 4 /\
   2 <= word_length (init 2 4 0 false false false false) <= 16 /\
   well_formed ramp_panel /\
   (forall w, length (zscore_ref w) = length w) /\
   Z.of_nat (series_length ramp_panel) < 2 ^ 52 /\
   window_size (init 2 4 0 false false false false) <= 0) /\
  exists bps c,
    breakpoint_table 4 = Some bps /\
    _generate_words (replicate 2 F64.zero) 2 bps 2 = Ok c /\
    fst (_transform zscore_ref ramp_panel (init 2 4 0 false false false false))
    = Ok (Dense (mk_int_matrix 1 9 [replicate 9 c])).
Proof.
  assert (H : 2 <= alphabet_size (init 2 4 0 false false false false) <= 4 /\
   2 <= word_length (init 2 4 0 false false false false) <= 16 /\
   well_formed ramp_panel /\
   (forall w, length (zscore_ref w) = length w) /\
   Z.of_nat (series_length ramp_panel) < 2 ^ 52 /\
   window_size (init 2 4 0 false false false false) <= 0).
  { split; [cbn; lia|]. split; [cbn; lia|].
    split; [split; [reflexivity | repeat constructor]|].
    split; [exact zscore_ref_length|]. split; cbn; lia. }
  split; [exact H|]. destruct H as (Ha & Hwl & Hwf & Hz & Hsl & Hws).
  destruct (empty_windows zscore_ref ramp_panel _ Ha Hwl Hwf Hz Hsl Hws)
    as (bps & c & Htab & Hc & Hrun).
  exists bps, c. split; [exact Htab|]. split; [exact Hc | exact Hrun].
Defined.
